(** * Lint orchestration of the Atom linter package

    A shallow embedding of
      - [lib/editor-linter.coffee]  (the per-editor lint scheduler),
      - the ES6 [EditorLinter] class (the per-editor message session), and
      - [lib/ui/bottom-panel.js]    (the message panel and its counter),
    followed by the properties established about them.

    JavaScript objects are references: analyzers, editors, messages and
    event handlers are named by [positive] identifiers, and the fields of an
    analyzer are read through the reference.  Promises are modelled by the
    list of batches a session has started: an analyzer invocation is a task
    that waits in its batch until its outcome arrives. *)

From Stdlib Require Import ZArith Bool List String Lia.
From stdpp Require Import base option list gmap strings.
Import ListNotations.

Local Open Scope Z_scope.
Local Open Scope nat_scope.
Local Open Scope string_scope.
Local Open Scope list_scope.

(** ** The host: event-kit's [Emitter] and [CompositeDisposable] *)

Module Atom.

Abbreviation EditorRef := positive (only parsing).
Abbreviation LinterRef := positive (only parsing).
Abbreviation MessageRef := positive (only parsing).

(** A subscriber's callback, or one of the callbacks a session registers
    on its own emitter. *)
Inductive Handler :=
| Callback (id : positive)
| Internal (name : string).

(** What a subscription was taken on; disposing it cancels it. *)
Inductive Disposable :=
| EditorSub (e : EditorRef) (event : string)
| ConfigSub (key : string)
| EmitterSub (event : string) (h : Handler).

(** Effects that collaborators of a session can observe, in program order. *)
Inductive Event :=
| Subscribed (d : Disposable)
| Disposed (d : Disposable)
| Called (event : string) (h : Handler)
| LockRead (key : string)
| LockWrite (key : string) (v : bool)
| Invoked (l : LinterRef) (e : EditorRef)
| AddError (message detail : string)
| ProjectSet (l : LinterRef)
| SessionSet (l : LinterRef)
| Render
| UpdateBubble
| GutterAdded (priority : Z)
| GutterDestroyed
| MarkerCreated (m : MessageRef)
| MarkerDestroyed (m : MessageRef).

(** [Emitter]: handlers in subscription order; [dispose] drops them all and
    every later [emit] reaches nobody. *)
Record Emitter := mkEmitter {
  handlers : list (string * Handler);
  emitterDisposed : bool }.

Definition newEmitter : Emitter := mkEmitter [] false.

Definition on (event : string) (h : Handler) (em : Emitter) : Emitter :=
  if emitterDisposed em then em
  else mkEmitter (handlers em ++ [(event, h)]) false.

Definition listeners (event : string) (em : Emitter) : list Handler :=
  map snd (List.filter (fun p => String.eqb (fst p) event) (handlers em)).

Definition emit (event : string) (em : Emitter) : list Event :=
  if emitterDisposed em then [] else map (Called event) (listeners event em).

Definition disposeEmitter (em : Emitter) : Emitter := mkEmitter [] true.

(** [CompositeDisposable]: [dispose] disposes every member once. *)
Record CompositeDisposable := mkComposite {
  disposables : list Disposable;
  compositeDisposed : bool }.

Definition newComposite : CompositeDisposable := mkComposite [] false.

Definition add (d : Disposable) (c : CompositeDisposable) : CompositeDisposable :=
  if compositeDisposed c then c
  else mkComposite (disposables c ++ [d]) false.

Definition disposeAll (c : CompositeDisposable) : list Event * CompositeDisposable :=
  if compositeDisposed c then ([], c)
  else (map Disposed (disposables c), mkComposite [] true).

Record Error := mkError { message : string; stack : string }.



End Atom.

Import Atom.

(** ** [lib/editor-linter.coffee] *)

Module EditorLinter.

(** An analyzer as the scheduler reads it: [linter.grammarScopes],
    [linter.lintOnFly] ([None] when the property is not a boolean) and
    [linter.scope]. *)
Record Provider := mkProvider {
  grammarScopes : list string;
  lintOnFly : option bool;
  scope : string }.

Section Scheduler.

(** What an analyzer hands back, and the diagnostics kept from it. *)
Variable RawResult : Type.
Variable Message : Type.

(** [Helpers.validateResults] lives in [./helpers]: it returns the
    diagnostics or throws. *)
Variable validateResults : RawResult -> Error + list Message.

(** The shared [@linter] object. *)
Record Linter := mkLinter {
  activeEditor : option EditorRef;
  lintOnTheFly : bool;                      (* @linter.lintOnFly *)
  linters : list LinterRef;
  provider : LinterRef -> Provider;
  messagesProject : gmap LinterRef (list Message) }.

(** One [EditorLinter] instance.  [props] holds the properties that
    [@[key] = value] creates on the instance. *)
Record Session := mkSession {
  editor : EditorRef;
  _messages : gmap LinterRef (list Message);
  _inProgress : bool;
  _inProgressFly : bool;
  props : gmap string bool;
  _emitter : Emitter;
  _subscriptions : CompositeDisposable }.

(** [Promise.all(...)] of one [lint] call: the trigger kind and the
    analyzers whose promise chain has not finished yet. *)
Record Run := mkRun {
  runKind : bool;
  waiting : list LinterRef }.

Record State := mkState {
  linter : Linter;
  self : Session;
  cursorScopes : list string;   (* scopes at the editor's cursor *)
  runs : list Run;
  trace : list Event }.

Definition log (es : list Event) (st : State) : State :=
  mkState (linter st) (self st) (cursorScopes st) (runs st) (trace st ++ es).

Definition withSelf (s : Session) (st : State) : State :=
  mkState (linter st) s (cursorScopes st) (runs st) (trace st).

Definition withLinter (l : Linter) (st : State) : State :=
  mkState l (self st) (cursorScopes st) (runs st) (trace st).

Definition withRuns (rs : list Run) (st : State) : State :=
  mkState (linter st) (self st) (cursorScopes st) rs (trace st).

(** constructor: (@linter, @editor) -> *)
Definition constructor (e : EditorRef) : Session * list Event :=
  let subs := [EditorSub e "did-save";
               EditorSub e "did-change-cursor-position";
               EditorSub e "did-stop-changing"] in
  (mkSession e ∅ false false ∅ newEmitter
     (fold_left (fun c d => add d c) subs newComposite),
   map Subscribed subs).

Definition getMessages (s : Session) : gmap LinterRef (list Message) :=
  _messages s.

Definition setMessages (l : LinterRef) (ms : list Message)
    (s : Session) : Session :=
  mkSession (editor s) (<[l := ms]> (_messages s)) (_inProgress s)
    (_inProgressFly s) (props s) (_emitter s) (_subscriptions s).

Definition deleteMessages (l : LinterRef) (s : Session) : Session :=
  mkSession (editor s) (delete l (_messages s)) (_inProgress s)
    (_inProgressFly s) (props s) (_emitter s) (_subscriptions s).

Definition setProjectMessages (l : LinterRef) (ms : list Message)
    (lm : Linter) : Linter :=
  mkLinter (activeEditor lm) (lintOnTheFly lm) (linters lm) (provider lm)
    (<[l := ms]> (messagesProject lm)).

Definition onDidUpdate (h : Handler) (s : Session) : Session :=
  mkSession (editor s) (_messages s) (_inProgress s) (_inProgressFly s)
    (props s) (on "did-update" h (_emitter s)) (_subscriptions s).

Definition onDidDestroy (h : Handler) (s : Session) : Session :=
  mkSession (editor s) (_messages s) (_inProgress s) (_inProgressFly s)
    (props s) (on "did-destroy" h (_emitter s)) (_subscriptions s).

(** destroy: emit 'did-destroy', then dispose the subscriptions. *)
Definition destroy (st : State) : State :=
  let s := self st in
  let st1 := log (emit "did-destroy" (_emitter s)) st in
  let '(es, subs) := disposeAll (_subscriptions s) in
  log es (withSelf (mkSession (editor s) (_messages s) (_inProgress s)
                      (_inProgressFly s) (props s) (_emitter s) subs) st1).

(** [@editor is @linter.activeEditor] *)
Definition isActive (st : State) : bool :=
  match activeEditor (linter st) with
  | Some e => Pos.eqb (editor (self st)) e
  | None => false
  end.

(** [key = wasTriggeredOnChange ? '_inProgressFly' : '_inProgress']:
    CoffeeScript has no conditional operator.  [a ? b] is the existential
    operator and ['_inProgressFly' : '_inProgress'] an object literal, so
    for a boolean argument the key is the argument itself, used as the
    property name "true" or "false". *)
Definition lockKey (wasTriggeredOnChange : bool) : string :=
  if wasTriggeredOnChange then "true" else "false".

(** [_lock]: without a value the property is read ([None] is undefined),
    with a value it is assigned. *)
Definition _lock (wasTriggeredOnChange : bool) (value : option bool)
    (st : State) : option bool * State :=
  let key := lockKey wasTriggeredOnChange in
  let s := self st in
  match value with
  | None => (props s !! key, log [LockRead key] st)
  | Some v =>
      (Some v,
       log [LockWrite key v]
         (withSelf (mkSession (editor s) (_messages s) (_inProgress s)
                      (_inProgressFly s) (<[key := v]> (props s))
                      (_emitter s) (_subscriptions s)) st))
  end.

(** Truthiness of what [_lock] reads. *)
Definition truthy (v : option bool) : bool :=
  match v with Some true => true | _ => false end.

(** [scopes.some (entry) -> entry in linter.grammarScopes] *)
Definition scopeMatches (scopes : list string) (p : Provider) : bool :=
  existsb (fun entry => existsb (String.eqb entry) (grammarScopes p)) scopes.

(** [wasTriggeredOnChange isnt linter.lintOnFly] *)
Definition isnt (wasTriggeredOnChange : bool) (v : option bool) : bool :=
  match v with
  | Some b => negb (Bool.eqb wasTriggeredOnChange b)
  | None => true
  end.

(** One pass of the [forEach] callback of [_lint]: [true] when the
    analyzer is invoked and its promise pushed. *)
Definition selected (lm : Linter) (wasTriggeredOnChange : bool)
    (scopes : list string) (l : LinterRef) : bool :=
  if lintOnTheFly lm && isnt wasTriggeredOnChange (lintOnFly (provider lm l))
  then false
  else scopeMatches scopes (provider lm l).

(** [_lint]: the analyzers invoked, in registry order. *)
Fixpoint _lint (lm : Linter) (wasTriggeredOnChange : bool)
    (scopes : list string) (registry : list LinterRef) : list LinterRef :=
  match registry with
  | [] => []
  | l :: rest =>
      if selected lm wasTriggeredOnChange scopes l
      then l :: _lint lm wasTriggeredOnChange scopes rest
      else _lint lm wasTriggeredOnChange scopes rest
  end.

(** [lint]: the two guards, the scopes with '*' pushed, the fan-out, and
    [Promise.all(...).then => @_lock(wasTriggeredOnChange, false)].  An
    empty batch is already settled, so its release follows at once. *)
Definition lint (wasTriggeredOnChange : bool) (st : State) : State :=
  if negb (isActive st) then st
  else
    let '(held, st1) := _lock wasTriggeredOnChange None st in
    if truthy held then st1
    else
      let scopes := cursorScopes st1 ++ ["*"] in
      let invoked :=
        _lint (linter st1) wasTriggeredOnChange scopes (linters (linter st1)) in
      let st2 := log (map (fun l => Invoked l (editor (self st1))) invoked) st1 in
      match invoked with
      | [] => snd (_lock wasTriggeredOnChange (Some false) st2)
      | _ :: _ => withRuns (runs st2 ++ [mkRun wasTriggeredOnChange invoked]) st2
      end.

(** What a call of [lint] invokes once past its guards, and the second
    guard as a predicate. *)
Definition invokedBy (st : State) (wasTriggeredOnChange : bool)
    : list LinterRef :=
  _lint (linter st) wasTriggeredOnChange (cursorScopes st ++ ["*"])
    (linters (linter st)).

Definition lockFree (st : State) (wasTriggeredOnChange : bool) : Prop :=
  truthy (props (self st) !! lockKey wasTriggeredOnChange) = false.

(** The editor callbacks wired by the constructor. *)
Definition onDidSave (st : State) : State := lint false st.

Definition onDidChangeCursorPosition (st : State) : State :=
  log [UpdateBubble] st.

Definition onDidStopChanging (st : State) : State :=
  if lintOnTheFly (linter st) then lint true st else st.

(** How an analyzer's invocation ends when the chain handles it: with a
    value, or with an error object thrown or rejected with.  (What the
    handler of [.catch] cannot read, see [Rejection.Thrown].) *)
Inductive Outcome :=
| Fulfilled (raw : RawResult)
| Rejected (e : Error).

(** [.then(Helpers.validateResults).catch(...)]: the error reported, if
    any, and the results passed on. *)
Definition caught (o : Outcome) : option Error * list Message :=
  match o with
  | Rejected e => (Some e, [])
  | Fulfilled raw =>
      match validateResults raw with
      | inl e => (Some e, [])
      | inr ms => (None, ms)
      end
  end.

Definition results (o : Outcome) : list Message := snd (caught o).

Definition failed (o : Outcome) : bool :=
  match fst (caught o) with Some _ => true | None => false end.

Definition notification (o : Outcome) : list Event :=
  match fst (caught o) with
  | Some e => [AddError (message e) (stack e)]
  | None => []
  end.

Fixpoint removeFirst (l : LinterRef) (ls : list LinterRef) : list LinterRef :=
  match ls with
  | [] => []
  | x :: rest => if Pos.eqb x l then rest else x :: removeFirst l rest
  end.

Definition isWaiting (l : LinterRef) (ls : list LinterRef) : bool :=
  existsb (Pos.eqb l) ls.

(** The last [.then] of the chain: store, emit, render. *)
Definition deliver (l : LinterRef) (ms : list Message) (st : State) : State :=
  let st1 :=
    if String.eqb (scope (provider (linter st) l)) "project"
    then log [ProjectSet l] (withLinter (setProjectMessages l ms (linter st)) st)
    else log [SessionSet l] (withSelf (setMessages l ms (self st)) st) in
  let st2 := log (emit "did-update" (_emitter (self st1))) st1 in
  if isActive st2 then log [Render] st2 else st2.

(** The promise of analyzer [l] in batch [r] finishes with outcome [o].
    When it was the last one of its batch the lock is released. *)
Definition settle (r : nat) (l : LinterRef) (o : Outcome) (st : State) : State :=
  match runs st !! r with
  | Some run =>
      if isWaiting l (waiting run) then
        let st1 := deliver l (results o) (log (notification o) st) in
        let rest := removeFirst l (waiting run) in
        let st2 := withRuns (<[r := mkRun (runKind run) rest]> (runs st1)) st1 in
        match rest with
        | [] => snd (_lock (runKind run) (Some false) st2)
        | _ :: _ => st2
        end
      else st
  | None => st
  end.

Definition settleAll (r : nat) (outcomes : list (LinterRef * Outcome))
    (st : State) : State :=
  fold_left (fun acc lo => settle r (fst lo) (snd lo) acc) outcomes st.

(** Counting, over a trace. *)
Definition isAddError (e : Event) : bool :=
  match e with AddError _ _ => true | _ => false end.

Definition isInvoked (e : Event) : bool :=
  match e with Invoked _ _ => true | _ => false end.

Definition errorCount (es : list Event) : nat := length (List.filter isAddError es).

Definition invocationCount (es : list Event) : nat := length (List.filter isInvoked es).

Definition inFlight (kind : bool) (st : State) : list Run :=
  List.filter (fun run => Bool.eqb (runKind run) kind
                     && negb (Nat.eqb (length (waiting run)) 0)) (runs st).

(** The events of the last [.then] of one chain, and of the release
    that follows the last chain of a batch. *)
Definition delivered (st : State) (l : LinterRef) : list Event :=
  [if String.eqb (scope (provider (linter st) l)) "project"
   then ProjectSet l else SessionSet l]
  ++ emit "did-update" (_emitter (self st))
  ++ (if isActive st then [Render] else []).

Definition released (kind : bool) (rest : list LinterRef) : list Event :=
  match rest with
  | [] => [LockWrite (lockKey kind) false]
  | _ :: _ => []
  end.

(** The entry of analyzer [l] in the map its results go to. *)
Definition stored (l : LinterRef) (st : State) : option (list Message) :=
  if String.eqb (scope (provider (linter st) l)) "project"
  then messagesProject (linter st) !! l
  else _messages (self st) !! l.

(** Both maps at a key: the session's and the project's. *)
Definition entries (l : LinterRef) (st : State)
    : option (list Message) * option (list Message) :=
  (_messages (self st) !! l, messagesProject (linter st) !! l).

End Scheduler.

Arguments mkLinter {Message}.
Arguments activeEditor {Message}.
Arguments lintOnTheFly {Message}.
Arguments linters {Message}.
Arguments provider {Message}.
Arguments messagesProject {Message}.
Arguments mkSession {Message}.
Arguments editor {Message}.
Arguments _messages {Message}.
Arguments _inProgress {Message}.
Arguments _inProgressFly {Message}.
Arguments props {Message}.
Arguments _emitter {Message}.
Arguments _subscriptions {Message}.
Arguments mkState {Message}.
Arguments linter {Message}.
Arguments self {Message}.
Arguments cursorScopes {Message}.
Arguments runs {Message}.
Arguments trace {Message}.
Arguments log {Message}.
Arguments withSelf {Message}.
Arguments withLinter {Message}.
Arguments withRuns {Message}.
Arguments getMessages {Message}.
Arguments setMessages {Message}.
Arguments deleteMessages {Message}.
Arguments setProjectMessages {Message}.
Arguments onDidUpdate {Message}.
Arguments onDidDestroy {Message}.
Arguments destroy {Message}.
Arguments isActive {Message}.
Arguments _lock {Message}.
Arguments selected {Message}.
Arguments _lint {Message}.
Arguments lint {Message}.
Arguments onDidSave {Message}.
Arguments onDidChangeCursorPosition {Message}.
Arguments onDidStopChanging {Message}.
Arguments Fulfilled {RawResult}.
Arguments Rejected {RawResult}.
Arguments caught {RawResult Message}.
Arguments results {RawResult Message}.
Arguments failed {RawResult Message}.
Arguments notification {RawResult Message}.
Arguments deliver {Message}.
Arguments settle {RawResult Message}.
Arguments settleAll {RawResult Message}.
Arguments inFlight {Message}.
Arguments stored {Message}.
Arguments entries {Message}.
Arguments delivered {Message}.
Arguments invokedBy {Message}.
Arguments lockFree {Message}.

(** The run-mode rule in the words of the specification, to be compared
    with [selected]: an analyzer is restricted to change-triggered runs,
    restricted to save-triggered runs, or unrestricted. *)
Inductive RunMode := OnChange | OnSave | Both.

Definition runModeOf (p : Provider) : RunMode :=
  match lintOnFly p with
  | Some true => OnChange
  | Some false => OnSave
  | None => Both
  end.

Definition spec_runModeMatches (mode : RunMode) (triggeredByChange : bool) : bool :=
  match mode with
  | OnChange => triggeredByChange
  | OnSave => negb triggeredByChange
  | Both => true
  end.

End EditorLinter.

(** ** The ES6 [EditorLinter] class: one session per text editor *)

Module EditorLinterES6.

(** What the constructor may be handed. *)
Inductive Value :=
| VUndefined
| VNull
| VBoolean (b : bool)
| VNumber (z : Z)
| VString (s : string)
| VObject (ref : positive)
| VTextEditor (e : EditorRef).

(** [editor instanceof TextEditor] *)
Definition instanceofTextEditor (v : Value) : option EditorRef :=
  match v with
  | VTextEditor e => Some e
  | _ => None
  end.

(** The settings the session reads from [atom.config]. *)
Record Config := mkConfig {
  cfgUnderlineIssues : bool;
  cfgGutterEnabled : bool;
  cfgGutterPosition : string }.

(** [gutter] holds the priority of the gutter added, [None] for null; the
    two marker tables are WeakMaps from messages to markers. *)
Record Session := mkSession {
  editor : EditorRef;
  emitter : Emitter;
  messages : list MessageRef;
  gutterMarkers : list MessageRef;
  editorMarkers : list MessageRef;
  gutter : option Z;
  subscriptions : CompositeDisposable;
  underlineIssues : bool;
  gutterEnabled : bool }.

Definition withGutter (g : option Z) (s : Session) : Session :=
  mkSession (editor s) (emitter s) (messages s) (gutterMarkers s)
    (editorMarkers s) g (subscriptions s) (underlineIssues s) (gutterEnabled s).

Definition withEmitter (em : Emitter) (s : Session) : Session :=
  mkSession (editor s) em (messages s) (gutterMarkers s)
    (editorMarkers s) (gutter s) (subscriptions s) (underlineIssues s)
    (gutterEnabled s).

Definition withMessages (ms : list MessageRef) (s : Session) : Session :=
  mkSession (editor s) (emitter s) ms (gutterMarkers s)
    (editorMarkers s) (gutter s) (subscriptions s) (underlineIssues s)
    (gutterEnabled s).

Definition withMarkers (gm em : list MessageRef) (s : Session) : Session :=
  mkSession (editor s) (emitter s) (messages s) gm em (gutter s)
    (subscriptions s) (underlineIssues s) (gutterEnabled s).

Definition withSubscriptions (c : CompositeDisposable) (s : Session) : Session :=
  mkSession (editor s) (emitter s) (messages s) (gutterMarkers s)
    (editorMarkers s) (gutter s) c (underlineIssues s) (gutterEnabled s).

Definition subscribe (d : Disposable) (s : Session) : Session :=
  withSubscriptions (add d (subscriptions s)) s.

(** removeGutter *)
Definition removeGutter (s : Session) : Session * list Event :=
  match gutter s with
  | Some _ => (withGutter None s, [GutterDestroyed])
  | None => (s, [])
  end.

(** addGutter *)
Definition addGutter (cfg : Config) (s : Session) : Session * list Event :=
  let priority :=
    if String.eqb (cfgGutterPosition cfg) "Left" then (-100)%Z else 100%Z in
  (withGutter (Some priority) s, [GutterAdded priority]).

(** handleGutter *)
Definition handleGutter (cfg : Config) (s : Session) : Session * list Event :=
  let '(s1, es1) :=
    match gutter s with
    | Some _ => removeGutter s
    | None => (s, [])
    end in
  if cfgGutterEnabled cfg
  then let '(s2, es2) := addGutter cfg s1 in (s2, es1 ++ es2)
  else (s1, es1).

Definition markOnAdd : Handler := Internal "mark-on-add".
Definition unmarkOnRemove : Handler := Internal "unmark-on-remove".

(** The subscriptions of the constructor, in the order they are taken:
    those up to the observer of 'linter.gutterEnabled', whose first call
    runs [handleGutter], and those after it. *)
Definition firstSubscriptions (e : EditorRef) : list Disposable :=
  [ConfigSub "linter.underlineIssues";
   EditorSub e "did-destroy";
   EditorSub e "did-save";
   EditorSub e "did-change-cursor-position";
   ConfigSub "linter.gutterEnabled"].

Definition lastSubscriptions : list Disposable :=
  [ConfigSub "linter.gutterPosition";
   EmitterSub "did-message-add" markOnAdd;
   EmitterSub "did-message-remove" unmarkOnRemove].

Definition notAnEditor : Error :=
  mkError "Given editor is not really an editor" "".

(** [constructor(editor)]: the events of a call are appended to the
    history [past]; a refused argument leaves the history as it was.
    [atom.config.observe] calls back at once with the current value. *)
Definition constructor (cfg : Config) (v : Value) (past : list Event)
    : (Error + Session) * list Event :=
  match instanceofTextEditor v with
  | None => (inl notAnEditor, past)
  | Some e =>
      let s0 := mkSession e newEmitter [] [] [] None
                  (fold_left (fun c d => add d c) (firstSubscriptions e)
                     newComposite)
                  (cfgUnderlineIssues cfg) (cfgGutterEnabled cfg) in
      let '(s1, es) := handleGutter cfg s0 in
      let em := on "did-message-remove" unmarkOnRemove
                  (on "did-message-add" markOnAdd (emitter s1)) in
      let s2 := withSubscriptions
                  (fold_left (fun c d => add d c) lastSubscriptions
                     (subscriptions s1))
                  (withEmitter em s1) in
      (inr s2,
       past ++ map Subscribed (firstSubscriptions e) ++ es
            ++ map Subscribed lastSubscriptions)
  end.

(** The callback queued with [setImmediate]. *)
Definition afterImmediate (s : Session) : Session * list Event :=
  let d := EditorSub (editor s) "did-stop-changing" in
  (subscribe d s, [Subscribed d]).

Definition onDidDestroy (h : Handler) (s : Session) : Session :=
  withEmitter (on "did-destroy" h (emitter s)) s.

Definition onDidMessageChange (h : Handler) (s : Session) : Session :=
  withEmitter (on "did-message-change" h (emitter s)) s.

Definition hasMessage (m : MessageRef) (ms : list MessageRef) : bool :=
  existsb (Pos.eqb m) ms.

Definition dropMessage (m : MessageRef) (ms : list MessageRef) : list MessageRef :=
  List.filter (fun x => negb (Pos.eqb x m)) ms.

(** One handler of 'did-message-add' or 'did-message-remove' runs. *)
Definition runHandler (event : string) (m : MessageRef) (h : Handler)
    (s : Session) : Session * list Event :=
  match h with
  | Callback _ => (s, [Called event h])
  | Internal name =>
      if String.eqb name "mark-on-add" then
        if underlineIssues s
        then (withMarkers (gutterMarkers s)
                (dropMessage m (editorMarkers s) ++ [m]) s, [MarkerCreated m])
        else (s, [])
      else
        let es1 := if hasMessage m (editorMarkers s) then [MarkerDestroyed m] else [] in
        let es2 := if hasMessage m (gutterMarkers s) then [MarkerDestroyed m] else [] in
        (withMarkers (dropMessage m (gutterMarkers s))
           (dropMessage m (editorMarkers s)) s, es1 ++ es2)
  end.

Definition emitMessage (event : string) (m : MessageRef) (s : Session)
    : Session * list Event :=
  if emitterDisposed (emitter s) then (s, [])
  else
    fold_left (fun acc h =>
                 let '(s', es') := runHandler event m h (fst acc) in
                 (s', snd acc ++ es'))
      (listeners event (emitter s)) (s, []).

(** addMessage *)
Definition addMessage (m : MessageRef) (s : Session) : Session * list Event :=
  if hasMessage m (messages s) then (s, [])
  else
    let '(s1, es1) := emitMessage "did-message-add" m
                        (withMessages (messages s ++ [m]) s) in
    (s1, es1 ++ emit "did-message-change" (emitter s1)).

(** removeMessage *)
Definition removeMessage (m : MessageRef) (s : Session) : Session * list Event :=
  if hasMessage m (messages s) then
    let '(s1, es1) := emitMessage "did-message-remove" m
                        (withMessages (dropMessage m (messages s)) s) in
    (s1, es1 ++ emit "did-message-change" (emitter s1))
  else (s, []).

(** [dispose]: a WeakMap has no [size], so neither marker table is
    walked; the gutter goes, the subscriptions are disposed, the message
    set is cleared and the emitter disposed. *)
Definition dispose (s : Session) : Session * list Event :=
  let '(s1, es1) := removeGutter s in
  let '(es2, subs) := disposeAll (subscriptions s1) in
  (withEmitter (disposeEmitter (emitter s1))
     (withMessages [] (withSubscriptions subs s1)),
   es1 ++ es2).

(** [destroy]: emit 'did-destroy', then [dispose]. *)
Definition destroy (s : Session) : Session * list Event :=
  let es0 := emit "did-destroy" (emitter s) in
  let '(s1, es1) := dispose s in
  (s1, es0 ++ es1).

End EditorLinterES6.

(** ** [lib/ui/bottom-panel.js] *)

Module BottomPanel.

(** A message element: its identity in the DOM and the [status] that its
    last [updateVisibility] left. *)
Record Element := mkElement {
  elementId : nat;
  status : bool }.

(** What the panel does to the DOM and to the workspace panel. *)
Inductive Op :=
| AppendChild (m : MessageRef) (el : nat)
| RemoveChild (m : MessageRef) (el : nat)
| ShowPanel
| HidePanel.

(** [messages] is the Map from message to element in insertion order,
    [children] the child nodes of [messagesElement]. *)
Record Panel := mkPanel {
  scope : string;
  messages : list (MessageRef * Element);
  visibleMessages : Z;
  children : list nat;
  visibility : bool;
  configVisibility : bool;
  paneVisibility : bool;
  nextElement : nat;
  ops : list Op }.

Inductive Call :=
| SetMessages (added removed : list MessageRef)
| RemoveMessages (removed : list MessageRef)
| Refresh (scope : option string).

Section Panel.

(** Modelled from the spec: [Message.fromMessage] and the element's
    [updateVisibility(scope)] live in [./message-element]; the element
    evaluates the visibility predicate of the message under the scope,
    keeps the verdict in [status] and returns itself. *)
Variable visible : string -> MessageRef -> bool.

(** [constructor(scope)]: the two visibility settings come from the
    configuration and from the workspace. *)
Definition constructor (scope : string) (configVisibility paneVisibility : bool)
    : Panel :=
  mkPanel scope [] 0%Z [] false configVisibility paneVisibility 0 [].

(** Map.prototype.has / get / set / delete *)
Definition has (m : MessageRef) (ms : list (MessageRef * Element)) : bool :=
  existsb (fun p => Pos.eqb (fst p) m) ms.

Definition get (m : MessageRef) (ms : list (MessageRef * Element))
    : option Element :=
  match List.find (fun p => Pos.eqb (fst p) m) ms with
  | Some p => Some (snd p)
  | None => None
  end.

Fixpoint replace (m : MessageRef) (el : Element)
    (ms : list (MessageRef * Element)) : list (MessageRef * Element) :=
  match ms with
  | [] => []
  | p :: rest =>
      if Pos.eqb (fst p) m then (m, el) :: rest else p :: replace m el rest
  end.

Definition set (m : MessageRef) (el : Element)
    (ms : list (MessageRef * Element)) : list (MessageRef * Element) :=
  if has m ms then replace m el ms else ms ++ [(m, el)].

Definition delete (m : MessageRef) (ms : list (MessageRef * Element))
    : list (MessageRef * Element) :=
  List.filter (fun p => negb (Pos.eqb (fst p) m)) ms.

(** updateVisibility (of the panel) *)
Definition updateVisibility (p : Panel) : Panel :=
  let v := configVisibility p && paneVisibility p
           && Z.ltb 0 (visibleMessages p) in
  mkPanel (scope p) (messages p) (visibleMessages p) (children p) v
    (configVisibility p) (paneVisibility p) (nextElement p)
    (ops p ++ [if v then ShowPanel else HidePanel]).

(** One turn of the loop of [removeMessages]. *)
Definition removeOne (p : Panel) (m : MessageRef) : Panel :=
  match get m (messages p) with
  | Some el =>
      mkPanel (scope p) (delete m (messages p))
        (if status el then (visibleMessages p - 1)%Z else visibleMessages p)
        (List.filter (fun c => negb (Nat.eqb c (elementId el))) (children p))
        (visibility p) (configVisibility p) (paneVisibility p)
        (nextElement p) (ops p ++ [RemoveChild m (elementId el)])
  | None => p
  end.

(** removeMessages *)
Definition removeMessages (removed : list MessageRef) (p : Panel) : Panel :=
  fold_left removeOne removed p.

(** One turn of the loop over [added] in [setMessages]. *)
Definition addOne (p : Panel) (m : MessageRef) : Panel :=
  let el := mkElement (nextElement p) (visible (scope p) m) in
  mkPanel (scope p) (set m el (messages p))
    (if status el then (visibleMessages p + 1)%Z else visibleMessages p)
    (children p ++ [elementId el])
    (visibility p) (configVisibility p) (paneVisibility p)
    (S (nextElement p)) (ops p ++ [AppendChild m (elementId el)]).

Definition addMessages (added : list MessageRef) (p : Panel) : Panel :=
  fold_left addOne added p.

(** setMessages *)
Definition setMessages (added removed : list MessageRef) (p : Panel) : Panel :=
  let p1 :=
    match removed with
    | [] => p
    | _ :: _ => removeMessages removed p
    end in
  updateVisibility (addMessages added p1).

(** [if (scope)]: an absent or empty scope is falsy. *)
Definition given (scope : option string) : option string :=
  match scope with
  | Some s => if String.eqb s "" then None else Some s
  | None => None
  end.

(** An element after [updateVisibility(sc)]. *)
Definition restatus (sc : string) (e : MessageRef * Element)
    : MessageRef * Element :=
  (fst e, mkElement (elementId (snd e)) (visible sc (fst e))).

(** One turn of the loop of [refresh]: the element takes its status
    under [sc] and the counter follows. *)
Definition refreshOne (sc : string)
    (acc : list (MessageRef * Element) * Z) (e : MessageRef * Element)
    : list (MessageRef * Element) * Z :=
  let e' := restatus sc e in
  (fst acc ++ [e'],
   if status (snd e') then (snd acc + 1)%Z else snd acc).

(** refresh *)
Definition refresh (scope' : option string) (p : Panel) : Panel :=
  let sc := match given scope' with Some s => s | None => scope p end in
  let '(ms, n) := fold_left (refreshOne sc) (messages p) ([], 0%Z) in
  updateVisibility
    (mkPanel sc ms n (children p) (visibility p) (configVisibility p)
       (paneVisibility p) (nextElement p) (ops p)).

Definition call (p : Panel) (c : Call) : Panel :=
  match c with
  | SetMessages added removed => setMessages added removed p
  | RemoveMessages removed => removeMessages removed p
  | Refresh sc => refresh sc p
  end.

Definition calls (cs : list Call) (p : Panel) : Panel := fold_left call cs p.

(** The tracked messages that are visible under the panel's scope. *)
Definition visibleNow (p : Panel) : Z :=
  Z.of_nat (length (List.filter (fun e => visible (scope p) (fst e))
                      (messages p))).

Definition keys (ms : list (MessageRef * Element)) : list MessageRef :=
  map fst ms.

(** The tracked elements whose [status] is set. *)
Definition counted (ms : list (MessageRef * Element)) : Z :=
  Z.of_nat (length (List.filter (fun e => status (snd e)) ms)).

(** The panel's bookkeeping is in order: no message is tracked twice,
    every element's [status] is the verdict under the panel's scope, and
    the counter is the number of elements whose [status] is set. *)
Definition consistent (p : Panel) : Prop :=
  List.NoDup (keys (messages p))
  /\ Forall (fun e => status (snd e) = visible (scope p) (fst e)) (messages p)
  /\ visibleMessages p = counted (messages p).

Definition isRemoval (o : Op) : bool :=
  match o with RemoveChild _ _ => true | _ => false end.

Definition isAddition (o : Op) : bool :=
  match o with AppendChild _ _ => true | _ => false end.

Definition additions (os : list Op) : list MessageRef :=
  flat_map (fun o => match o with AppendChild m _ => [m] | _ => [] end) os.

Fixpoint distinct (ms : list MessageRef) : bool :=
  match ms with
  | [] => true
  | m :: rest => negb (existsb (Pos.eqb m) rest) && distinct rest
  end.

(** A call hands over additions that are pairwise distinct and not
    tracked once its removals are done. *)
Definition freshCall (p : Panel) (c : Call) : bool :=
  match c with
  | SetMessages added removed =>
      distinct added
      && forallb (fun m => negb (has m (messages (removeMessages removed p))))
           added
  | _ => true
  end.

Fixpoint freshCalls (cs : list Call) (p : Panel) : bool :=
  match cs with
  | [] => true
  | c :: rest => freshCall p c && freshCalls rest (call p c)
  end.

End Panel.

End BottomPanel.

(** ** Editor events and whole lives of a CoffeeScript session *)

Module Lifecycle.

Import EditorLinter.

(** The events the constructor subscribes to on its editor. *)
Inductive EditorEvent :=
| DidSave
| DidChangeCursorPosition
| DidStopChanging.

Definition eventName (ev : EditorEvent) : string :=
  match ev with
  | DidSave => "did-save"
  | DidChangeCursorPosition => "did-change-cursor-position"
  | DidStopChanging => "did-stop-changing"
  end.

Definition handlerEqb (a b : Handler) : bool :=
  match a, b with
  | Callback x, Callback y => Pos.eqb x y
  | Internal x, Internal y => String.eqb x y
  | _, _ => false
  end.

Definition disposableEqb (a b : Disposable) : bool :=
  match a, b with
  | EditorSub e ev, EditorSub e' ev' => Pos.eqb e e' && String.eqb ev ev'
  | ConfigSub k, ConfigSub k' => String.eqb k k'
  | EmitterSub ev h, EmitterSub ev' h' => String.eqb ev ev' && handlerEqb h h'
  | _, _ => false
  end.

(** A subscription is live while its composite holds it undisposed. *)
Definition live (d : Disposable) (c : CompositeDisposable) : bool :=
  negb (compositeDisposed c) && existsb (disposableEqb d) (disposables c).

Section Lifecycle.

Variable RawResult : Type.
Variable Message : Type.
Variable validateResults : RawResult -> Error + list Message.

(** The state right after [new EditorLinter(linter, editor)]. *)
Definition initial (lm : Linter Message) (e : EditorRef) (scopes : list string)
    : State Message :=
  mkState lm (fst (constructor Message e)) scopes []
    (snd (constructor Message e)).

(** The editor raises [ev]: the callback wired by the constructor runs if
    its subscription is still live. *)
Definition fire (ev : EditorEvent) (st : State Message) : State Message :=
  if live (EditorSub (editor (self st)) (eventName ev))
       (_subscriptions (self st))
  then match ev with
       | DidSave => onDidSave st
       | DidChangeCursorPosition => onDidChangeCursorPosition st
       | DidStopChanging => onDidStopChanging st
       end
  else st.

(** What the host does around the session. *)
Definition activate (e : option EditorRef) (st : State Message) : State Message :=
  withLinter (mkLinter e (lintOnTheFly (linter st)) (linters (linter st))
                (provider (linter st)) (messagesProject (linter st))) st.

Definition toggle (b : bool) (st : State Message) : State Message :=
  withLinter (mkLinter (activeEditor (linter st)) b (linters (linter st))
                (provider (linter st)) (messagesProject (linter st))) st.

Definition moveCursor (scopes : list string) (st : State Message) : State Message :=
  mkState (linter st) (self st) scopes (runs st) (trace st).

(** What can happen to a session: a call of one of its methods, an event
    of its editor, the settlement of a task whose failure, if any, the
    chain handles, and a change of the host around it. *)
Inductive Action :=
| Lint (wasTriggeredOnChange : bool)
| Fire (ev : EditorEvent)
| Settle (r : nat) (l : LinterRef) (o : Outcome RawResult)
| Destroy
| SetMessages (l : LinterRef) (ms : list Message)
| DeleteMessages (l : LinterRef)
| OnDidUpdate (h : Handler)
| OnDidDestroy (h : Handler)
| Activate (e : option EditorRef)
| Toggle (b : bool)
| MoveCursor (scopes : list string).

Definition act (st : State Message) (a : Action) : State Message :=
  match a with
  | Lint w => lint w st
  | Fire ev => fire ev st
  | Settle r l o => settle validateResults r l o st
  | Destroy => destroy st
  | SetMessages l ms => withSelf (setMessages l ms (self st)) st
  | DeleteMessages l => withSelf (deleteMessages l (self st)) st
  | OnDidUpdate h => withSelf (onDidUpdate h (self st)) st
  | OnDidDestroy h => withSelf (onDidDestroy h (self st)) st
  | Activate e => activate e st
  | Toggle b => toggle b st
  | MoveCursor scopes => moveCursor scopes st
  end.

Definition acts (actions : list Action) (st : State Message) : State Message :=
  fold_left act actions st.

(** The actions that store or delete an analyzer's messages. *)
Definition isWriter (a : Action) : bool :=
  match a with
  | Settle _ _ _ => true
  | SetMessages _ _ => true
  | DeleteMessages _ => true
  | _ => false
  end.

(** No lock field or lock property of the session holds [true]. *)
Definition unlocked (s : Session Message) : Prop :=
  _inProgress s = false
  /\ _inProgressFly s = false
  /\ forall k, truthy (props s !! k) = false.

(** What an operation may do to the lock state: leave it, or store
    [false] under one key. *)
Definition releasedOnly (s s' : Session Message) : Prop :=
  _inProgress s' = _inProgress s
  /\ _inProgressFly s' = _inProgressFly s
  /\ (props s' = props s \/ exists k, props s' = <[k := false]> (props s)).

(** Two states that differ at most in their subscriptions and in the
    events recorded so far. *)
Definition agree (st st' : State Message) : Prop :=
  linter st' = linter st
  /\ cursorScopes st' = cursorScopes st
  /\ runs st' = runs st
  /\ editor (self st') = editor (self st)
  /\ _messages (self st') = _messages (self st)
  /\ _inProgress (self st') = _inProgress (self st)
  /\ _inProgressFly (self st') = _inProgressFly (self st)
  /\ props (self st') = props (self st)
  /\ _emitter (self st') = _emitter (self st).

(** The events an operation added to the history. *)
Definition added (before after : State Message) (es : list Event) : Prop :=
  trace after = trace before ++ es.

(** Where the results of [l] go when its task settles, and what the
    batch and the lock become. *)
Definition writeSession (st : State Message) (l : LinterRef)
    (o : Outcome RawResult) (m : gmap LinterRef (list Message))
    : gmap LinterRef (list Message) :=
  if String.eqb (scope (provider (linter st) l)) "project" then m
  else <[l := results validateResults o]> m.

Definition writeProject (st : State Message) (l : LinterRef)
    (o : Outcome RawResult) (m : gmap LinterRef (list Message))
    : gmap LinterRef (list Message) :=
  if String.eqb (scope (provider (linter st) l)) "project"
  then <[l := results validateResults o]> m else m.

Definition release (run : Run) (l : LinterRef) (p : gmap string bool)
    : gmap string bool :=
  match removeFirst l (waiting run) with
  | [] => <[lockKey (runKind run) := false]> p
  | _ :: _ => p
  end.

Definition leave (run : Run) (l : LinterRef) : Run :=
  mkRun (runKind run) (removeFirst l (waiting run)).

End Lifecycle.

Arguments writeSession {RawResult Message}.
Arguments writeProject {RawResult Message}.
Arguments agree {Message}.
Arguments added {Message}.
Arguments releasedOnly {Message}.
Arguments initial {Message}.
Arguments fire {Message}.
Arguments activate {Message}.
Arguments toggle {Message}.
Arguments moveCursor {Message}.
Arguments Lint {RawResult Message}.
Arguments Fire {RawResult Message}.
Arguments Settle {RawResult Message}.
Arguments Destroy {RawResult Message}.
Arguments SetMessages {RawResult Message}.
Arguments DeleteMessages {RawResult Message}.
Arguments OnDidUpdate {RawResult Message}.
Arguments OnDidDestroy {RawResult Message}.
Arguments Activate {RawResult Message}.
Arguments Toggle {RawResult Message}.
Arguments MoveCursor {RawResult Message}.
Arguments act {RawResult Message}.
Arguments isWriter {RawResult Message}.
Arguments acts {RawResult Message}.
Arguments unlocked {Message}.

End Lifecycle.

(** ** Rejections the handler of [.catch] cannot read *)

Module Rejection.

Import EditorLinter.

(** What [linter.lint(@editor)] can throw, or its promise be rejected
    with: any value.  [Promise.reject()] gives undefined and [throw null]
    gives null, neither of which has properties; an error object has a
    [message] and a [stack]. *)
Inductive Thrown :=
| ThrownUndefined
| ThrownNull
| ThrownError (e : Error).

Section Rejection.

Variable RawResult : Type.
Variable Message : Type.
Variable validateResults : RawResult -> Error + list Message.

(** How the invocation of an analyzer ends: with a value, or with
    something thrown. *)
Inductive Completion :=
| Returned (raw : RawResult)
| Threw (t : Thrown).

(** The handler of [.catch]:
    [(error) -> atom.notifications.addError error.message, {detail:
    error.stack, dismissable: true}; []].  It gives the notification it
    adds and the list it returns; reading [error.message] throws on
    undefined and on null, and then the handler gives nothing ([None]). *)
Definition onCatch (t : Thrown) : option (list Event * list Message) :=
  match t with
  | ThrownError e => Some ([AddError (message e) (stack e)], [])
  | ThrownUndefined => None
  | ThrownNull => None
  end.

(** [new Promise((resolve) => resolve(linter.lint(@editor)))
    .then(Helpers.validateResults).catch(...)]: the events so far and what
    is passed on to the last [.then]; [None] when the promise is rejected
    by its own handler, so that the last [.then] is skipped. *)
Definition chain (c : Completion) : option (list Event * list Message) :=
  match c with
  | Returned raw =>
      match validateResults raw with
      | inr ms => Some ([], ms)
      | inl e => onCatch (ThrownError e)
      end
  | Threw t => onCatch t
  end.

(** A session with the batches whose [Promise.all] has been rejected:
    the [.then] of such a batch, which releases the lock, never runs. *)
Record Batches := mkBatches {
  state : State Message;
  rejected : list nat }.

Definition isRejected (r : nat) (bs : Batches) : bool :=
  existsb (Nat.eqb r) (rejected bs).

(** The promise of analyzer [l] in batch [r] finishes with [c]. *)
Definition finish (r : nat) (l : LinterRef) (c : Completion) (bs : Batches)
    : Batches :=
  let st := state bs in
  match runs st !! r with
  | Some run =>
      if isWaiting l (waiting run) then
        let rest := removeFirst l (waiting run) in
        match chain c with
        | Some (es, ms) =>
            let st1 := deliver l ms (log es st) in
            let st2 :=
              withRuns (<[r := mkRun (runKind run) rest]> (runs st1)) st1 in
            mkBatches
              (match rest with
               | [] => if isRejected r bs then st2
                       else snd (_lock (runKind run) (Some false) st2)
               | _ :: _ => st2
               end)
              (rejected bs)
        | None =>
            mkBatches
              (withRuns (<[r := mkRun (runKind run) rest]> (runs st)) st)
              (r :: rejected bs)
        end
      else bs
  | None => bs
  end.

Definition finishAll (r : nat) (sched : list (LinterRef * Completion))
    (bs : Batches) : Batches :=
  fold_left (fun acc lc => finish r (fst lc) (snd lc) acc) sched bs.

(** The completions that the chain handles, as outcomes. *)
Definition handled (c : Completion) : option (Outcome RawResult) :=
  match c with
  | Returned raw => Some (Fulfilled raw)
  | Threw (ThrownError e) => Some (Rejected e)
  | Threw ThrownUndefined => None
  | Threw ThrownNull => None
  end.

Definition isLockWrite (e : Event) : bool :=
  match e with LockWrite _ _ => true | _ => false end.

Definition lockWrites (es : list Event) : nat :=
  length (List.filter isLockWrite es).

(** In the words of the specification: an invocation fails when it throws
    or rejects, or returns a result that validation refuses, and a failed
    invocation counts as zero diagnostics. *)
Definition spec_failure (o : Outcome RawResult) : bool :=
  match o with
  | Rejected _ => true
  | Fulfilled raw =>
      match validateResults raw with
      | inl _ => true
      | inr _ => false
      end
  end.

Definition spec_diagnostics (o : Outcome RawResult) : list Message :=
  match o with
  | Rejected _ => []
  | Fulfilled raw =>
      match validateResults raw with
      | inl _ => []
      | inr ms => ms
      end
  end.

End Rejection.

Arguments Returned {RawResult}.
Arguments Threw {RawResult}.
Arguments onCatch {Message}.
Arguments chain {RawResult Message}.
Arguments mkBatches {Message}.
Arguments state {Message}.
Arguments rejected {Message}.
Arguments isRejected {Message}.
Arguments finish {RawResult Message}.
Arguments finishAll {RawResult Message}.
Arguments handled {RawResult}.
Arguments spec_failure {RawResult Message}.
Arguments spec_diagnostics {RawResult Message}.

End Rejection.

(** ** Whole lives of an ES6 session *)

Module SessionLife.

Import EditorLinterES6.

Definition isCallback (h : Handler) : bool :=
  match h with Callback _ => true | Internal _ => false end.

(** The emitter as the constructor leaves it for the two message events:
    the session's own handler first, subscribers' callbacks after it. *)
Definition wired (s : Session) : Prop :=
  emitterDisposed (emitter s) = false
  /\ exists onAdd onRemove,
       listeners "did-message-add" (emitter s) = markOnAdd :: onAdd
       /\ listeners "did-message-remove" (emitter s) = unmarkOnRemove :: onRemove
       /\ Forall (fun h => isCallback h = true) onAdd
       /\ Forall (fun h => isCallback h = true) onRemove.

(** What reaches a session after its construction.  A change of a setting
    and the destruction of the editor arrive through subscriptions, and
    only while these are live. *)
Inductive Step :=
| AfterImmediate
| AddMessage (m : MessageRef)
| RemoveMessage (m : MessageRef)
| UnderlineIssuesChanged (cfg : Config)
| GutterEnabledChanged (cfg : Config)
| GutterPositionChanged (cfg : Config)
| EditorDestroyed
| Destroy.

Definition withUnderlineIssues (b : bool) (s : Session) : Session :=
  mkSession (editor s) (emitter s) (messages s) (gutterMarkers s)
    (editorMarkers s) (gutter s) (subscriptions s) b (gutterEnabled s).

Definition withGutterEnabled (b : bool) (s : Session) : Session :=
  mkSession (editor s) (emitter s) (messages s) (gutterMarkers s)
    (editorMarkers s) (gutter s) (subscriptions s) (underlineIssues s) b.

Definition whenLive (d : Disposable) (s : Session)
    (k : Session * list Event) : Session * list Event :=
  if Lifecycle.live d (subscriptions s) then k else (s, []).

Definition step (s : Session) (a : Step) : Session * list Event :=
  match a with
  | AfterImmediate => afterImmediate s
  | AddMessage m => addMessage m s
  | RemoveMessage m => removeMessage m s
  | UnderlineIssuesChanged cfg =>
      whenLive (ConfigSub "linter.underlineIssues") s
        (withUnderlineIssues (cfgUnderlineIssues cfg) s, [])
  | GutterEnabledChanged cfg =>
      whenLive (ConfigSub "linter.gutterEnabled") s
        (handleGutter cfg (withGutterEnabled (cfgGutterEnabled cfg) s))
  | GutterPositionChanged cfg =>
      whenLive (ConfigSub "linter.gutterPosition") s (handleGutter cfg s)
  | EditorDestroyed =>
      whenLive (EditorSub (editor s) "did-destroy") s (destroy s)
  | Destroy => destroy s
  end.

Definition steps (l : list Step) (s : Session) : Session * list Event :=
  fold_left (fun acc a => let '(s', es) := step (fst acc) a in (s', snd acc ++ es))
    l (s, []).

(** Gutters added minus gutters destroyed, over a history. *)
Definition gutterChange (e : Event) : Z :=
  match e with
  | GutterAdded _ => 1%Z
  | GutterDestroyed => (-1)%Z
  | _ => 0%Z
  end.

Fixpoint gutterBalance (es : list Event) : Z :=
  match es with
  | [] => 0%Z
  | e :: rest => (gutterChange e + gutterBalance rest)%Z
  end.

Definition gutters (s : Session) : Z :=
  match gutter s with Some _ => 1%Z | None => 0%Z end.

(** A session after [dispose]: nothing is left to notify or to cancel. *)
Definition disposed (s : Session) : Prop :=
  emitterDisposed (emitter s) = true
  /\ compositeDisposed (subscriptions s) = true
  /\ gutter s = None.

Definition isAfterImmediate (a : Step) : bool :=
  match a with AfterImmediate => true | _ => false end.

(** getMessages *)
Definition getMessages (s : Session) : list MessageRef := messages s.

(** What a step does to the message set of a session that has been
    destroyed: [addMessage] and [removeMessage] test and update the set
    before they emit, [dispose] clears it. *)
Definition trackedAfter (ms : list MessageRef) (a : Step) : list MessageRef :=
  match a with
  | AddMessage m => if hasMessage m ms then ms else ms ++ [m]
  | RemoveMessage m => if hasMessage m ms then dropMessage m ms else ms
  | Destroy => []
  | _ => ms
  end.

End SessionLife.

(** ** Subscriptions over a session's life *)

Module Subscriptions.

(** The subscriptions taken in a history, in the order they were taken. *)
Definition taken (es : list Event) : list Disposable :=
  flat_map (fun e => match e with Subscribed d => [d] | _ => [] end) es.


End Subscriptions.

(** ** The panel's DOM and its visibility *)

Module PanelDom.

Import BottomPanel.

Definition elementIds (ms : list (MessageRef * Element)) : list nat :=
  map (fun e => elementId (snd e)) ms.

(** The children of [messagesElement] are the elements of the tracked
    messages, each once, and the next element is new to them. *)
Definition tidy (p : Panel) : Prop :=
  children p = elementIds (messages p)
  /\ List.NoDup (keys (messages p))
  /\ List.NoDup (children p)
  /\ Forall (fun c => c < nextElement p) (children p).



End PanelDom.

(** ** The panel and its host *)

Module PanelHost.

Import BottomPanel.

(** The listener of 'linter.showErrorPanel'. *)
Definition onShowErrorPanel (newValue : bool) (p : Panel) : Panel :=
  updateVisibility
    (mkPanel (scope p) (messages p) (visibleMessages p) (children p)
       (visibility p) newValue (paneVisibility p) (nextElement p) (ops p)).

(** The observer of the active pane item; [isEditor] tells whether the
    item is the active text editor. *)
Definition onActivePaneItem (isEditor : bool) (p : Panel) : Panel :=
  updateVisibility
    (mkPanel (scope p) (messages p) (visibleMessages p) (children p)
       (visibility p) (configVisibility p) isEditor (nextElement p) (ops p)).

(** A method called on the panel, or a callback run by the host. *)
Inductive HostCall :=
| Method (c : Call)
| ShowErrorPanelChanged (newValue : bool)
| ActivePaneItemChanged (isEditor : bool).

Definition hostCall (visible : string -> MessageRef -> bool)
    (p : Panel) (h : HostCall) : Panel :=
  match h with
  | Method c => call visible p c
  | ShowErrorPanelChanged newValue => onShowErrorPanel newValue p
  | ActivePaneItemChanged isEditor => onActivePaneItem isEditor p
  end.

Definition hostCalls (visible : string -> MessageRef -> bool)
    (hs : list HostCall) (p : Panel) : Panel :=
  fold_left (hostCall visible) hs p.

(** getVisibility *)
Definition getVisibility (p : Panel) : bool := visibility p.

(** Whether the workspace panel, added hidden, is shown after [os]. *)
Definition shownAfter (b : bool) (o : Op) : bool :=
  match o with
  | ShowPanel => true
  | HidePanel => false
  | _ => b
  end.

Definition shown (os : list Op) : bool := fold_left shownAfter os false.

Definition isShowPanel (o : Op) : bool :=
  match o with ShowPanel => true | _ => false end.

(** The host allows the panel: the setting is on and the active pane item
    is the editor. *)
Definition allowed (p : Panel) : bool :=
  configVisibility p && paneVisibility p.

Definition changesSetting (h : HostCall) : bool :=
  match h with Method _ => false | _ => true end.

End PanelHost.

(** ** Concrete inputs used by the examples *)

Module Examples.

Import EditorLinter.

Definition activeRef : EditorRef := 7%positive.
Definition otherRef : EditorRef := 8%positive.
Definition linterX : LinterRef := 1%positive.
Definition linterY : LinterRef := 2%positive.

(** A registry used in the examples: [linterX] lints on the fly in every
    grammar, [linterY] on save in 'source.js' for the whole project. *)
Definition exampleProvider (l : LinterRef) : Provider :=
  if Pos.eqb l linterX then mkProvider ["*"] (Some true) "file"
  else mkProvider ["source.js"] (Some false) "project".

Definition exampleLinter (toggle : bool) : Linter string :=
  mkLinter (Some activeRef) toggle [linterX; linterY] exampleProvider ∅.

(** The session of editor [e], with one subscriber to each event. *)
Definition exampleSession (e : EditorRef) : Session string :=
  onDidDestroy (Callback 2)
    (onDidUpdate (Callback 1) (fst (constructor string e))).

(** [activeRef] is the active editor. *)
Definition exampleState (toggle : bool) (e : EditorRef) (scopes : list string)
    : State string :=
  mkState (exampleLinter toggle) (exampleSession e) scopes [] [].

Definition boom : Error := mkError "boom" "at lint".

(** A validator for the examples: a result is malformed when it holds an
    empty text. *)
Definition exampleValidate (raw : list string) : Error + list string :=
  if existsb (String.eqb "") raw
  then inl (mkError "Invalid result" "at validateResults")
  else inr raw.

(** Panel inputs: every message shows in the file scope, only message 2
    in the line scope. *)
Definition showAll (sc : string) (m : MessageRef) : bool := true.

Definition showLine (sc : string) (m : MessageRef) : bool :=
  if String.eqb sc "Line" then Pos.eqb m 2 else true.

Definition newPanel : BottomPanel.Panel := BottomPanel.constructor "File" true true.

Definition readdCalls : list BottomPanel.Call :=
  [BottomPanel.SetMessages [1%positive] [];
   BottomPanel.SetMessages [1%positive] []].

Definition editingCalls : list BottomPanel.Call :=
  [BottomPanel.SetMessages [1%positive; 2%positive] [];
   BottomPanel.Refresh (Some "Line");
   BottomPanel.SetMessages [3%positive; 1%positive] [1%positive];
   BottomPanel.RemoveMessages [3%positive; 4%positive];
   BottomPanel.Refresh None].


(** States of the CoffeeScript session with batches in flight: one save
    batch of both analyzers, and two change batches of [linterX]. *)
Definition savingState : State string :=
  lint false (exampleState false activeRef ["source.js"]).

Definition typingState : State string :=
  lint true (lint true (exampleState true activeRef ["source.js"])).

(** The save batch of [savingState] with no task finished yet, and a
    second save after the first batch stored "old" for [linterX]. *)
Definition savingBatches : Rejection.Batches string :=
  Rejection.mkBatches savingState [].

Definition secondSave : Rejection.Batches string :=
  Rejection.mkBatches
    (lint false
       (Rejection.state
          (Rejection.finishAll exampleValidate 0
             [(linterX, Rejection.Returned ["old"]);
              (linterY, Rejection.Returned [])]
             savingBatches)))
    [].

Definition editorEvents : list Lifecycle.EditorEvent :=
  [Lifecycle.DidSave; Lifecycle.DidStopChanging;
   Lifecycle.DidChangeCursorPosition; Lifecycle.DidSave].

Definition quietActions : list (Lifecycle.Action (list string) string) :=
  [Lifecycle.Lint true; Lifecycle.Fire Lifecycle.DidSave; Lifecycle.Destroy;
   Lifecycle.Toggle false; Lifecycle.Lint false].

(** An ES6 session as its constructor leaves it, with underlining on and a
    gutter on the left, and steps taken on it. *)
Definition exampleConfig : EditorLinterES6.Config :=
  EditorLinterES6.mkConfig true true "Left".

Definition blankSession : EditorLinterES6.Session :=
  EditorLinterES6.mkSession otherRef newEmitter [] [] [] None newComposite
    false false.

Definition exampleES6 : EditorLinterES6.Session :=
  match fst (EditorLinterES6.constructor exampleConfig
               (EditorLinterES6.VTextEditor activeRef) []) with
  | inr s => EditorLinterES6.onDidMessageChange (Callback 3) s
  | inl _ => blankSession
  end.

Definition lateSteps : list SessionLife.Step :=
  [SessionLife.AddMessage 1%positive;
   SessionLife.GutterEnabledChanged exampleConfig;
   SessionLife.Destroy;
   SessionLife.RemoveMessage 1%positive].

Definition lateMessages : list SessionLife.Step :=
  [SessionLife.AddMessage 1%positive;
   SessionLife.GutterEnabledChanged exampleConfig;
   SessionLife.AddMessage 2%positive;
   SessionLife.EditorDestroyed;
   SessionLife.RemoveMessage 1%positive].

End Examples.

(** * Properties *)

(** ** The scheduler of [lib/editor-linter.coffee] *)

Module SchedulerFacts.

Import EditorLinter Examples.

(** Bring nested appends to one right-nested form. *)
Ltac flatten_app :=
  repeat first [rewrite <- app_assoc | rewrite app_nil_r | progress simpl].

Section Facts.

Context {RawResult Message : Type}.
Variable validateResults : RawResult -> Error + list Message.

Implicit Types (st : State Message) (lm : Linter Message) (w : bool)
  (l : LinterRef) (o : Outcome RawResult).

(** [_lint] keeps, in order, the registered analyzers that pass both
    guards of the loop body. *)
Lemma _lint_filter lm w scopes registry :
  _lint lm w scopes registry = List.filter (selected lm w scopes) registry.
Proof.
  induction registry as [|l rest IH]; simpl; [reflexivity|].
  destruct (selected lm w scopes l); now rewrite IH.
Qed.

Lemma isnt_false w v : isnt w v = false <-> v = Some w.
Proof.
  destruct v as [b|]; simpl; [|split; discriminate].
  destruct w, b; simpl; split; intros H; try reflexivity; try discriminate;
    inversion H.
Qed.

Lemma selected_true lm w scopes l :
  selected lm w scopes l = true <->
  scopeMatches scopes (provider lm l) = true /\
  (lintOnTheFly lm = true -> lintOnFly (provider lm l) = Some w).
Proof.
  unfold selected. destruct (lintOnTheFly lm); simpl.
  - destruct (isnt w (lintOnFly (provider lm l))) eqn:E.
    + split; [discriminate|]. intros [_ H].
      apply isnt_false in H; [congruence|reflexivity].
    + apply isnt_false in E. split; [intros H; split; auto|intros [H _]; exact H].
  - split; [intros H; split; [exact H|discriminate]|intros [H _]; exact H].
Qed.

Lemma scopeMatches_In scopes p :
  scopeMatches scopes p = true <->
  exists g, In g (grammarScopes p) /\ In g scopes.
Proof.
  unfold scopeMatches. rewrite existsb_exists. split.
  - intros (entry & Hin & Hex). apply existsb_exists in Hex as (g & Hg & Heq).
    apply String.eqb_eq in Heq. subst g. now exists entry.
  - intros (g & Hg & Hs). exists g. split; [exact Hs|].
    apply existsb_exists. exists g. split; [exact Hg|apply String.eqb_refl].
Qed.

Lemma run_mode_filter_scope lm w scopes l :
  In l (_lint lm w scopes (linters lm)) ->
  scopeMatches scopes (provider lm l) = true.
Proof.
  rewrite _lint_filter, List.filter_In, selected_true. tauto.
Qed.

(** ** [lint] *)

Lemma lint_inactive st w : isActive st = false -> lint w st = st.
Proof. intros H. unfold lint. now rewrite H. Qed.

(** A call that passes both guards and invokes something: the lock is
    read, the analyzers are invoked and one batch starts.  Nothing is
    written to the lock. *)
Lemma lint_starts st w :
  isActive st = true -> lockFree st w -> invokedBy st w <> [] ->
  lint w st =
    mkState (linter st) (self st) (cursorScopes st)
      (runs st ++ [mkRun w (invokedBy st w)])
      (trace st ++ [LockRead (lockKey w)]
         ++ map (fun l => Invoked l (editor (self st))) (invokedBy st w)).
Proof.
  unfold lockFree, invokedBy. intros Ha Hl Hi. unfold lint.
  rewrite Ha. simpl. rewrite Hl. simpl.
  destruct (_lint _ _ _ _) as [|l ls] eqn:E; [congruence|].
  unfold withRuns, log. simpl. now rewrite <- app_assoc.
Qed.

(** A call that passes both guards and invokes nothing. *)
Lemma lint_idle st w :
  isActive st = true -> lockFree st w -> invokedBy st w = [] ->
  lint w st =
    mkState (linter st)
      (mkSession (editor (self st)) (_messages (self st))
         (_inProgress (self st)) (_inProgressFly (self st))
         (<[lockKey w := false]> (props (self st)))
         (_emitter (self st)) (_subscriptions (self st)))
      (cursorScopes st) (runs st)
      (trace st ++ [LockRead (lockKey w)] ++ [LockWrite (lockKey w) false]).
Proof.
  unfold lockFree, invokedBy. intros Ha Hl Hi. unfold lint.
  rewrite Ha. simpl. rewrite Hl. simpl. rewrite Hi. simpl.
  unfold withSelf, log. simpl. now rewrite app_nil_r, <- app_assoc.
Qed.

(** A call that finds the lock held only reads it. *)
Lemma lint_held st w :
  isActive st = true -> truthy (props (self st) !! lockKey w) = true ->
  lint w st = log [LockRead (lockKey w)] st.
Proof. intros Ha Hl. unfold lint. rewrite Ha. simpl. now rewrite Hl. Qed.

(** ** [settle] *)

Lemma isWaiting_In l ls : isWaiting l ls = true <-> In l ls.
Proof.
  unfold isWaiting. rewrite existsb_exists. split.
  - intros (x & Hx & E). apply Pos.eqb_eq in E. now subst.
  - intros H. exists l. split; [exact H|apply Pos.eqb_refl].
Qed.

Lemma removeFirst_perm l ls : In l ls -> Permutation ls (l :: removeFirst l ls).
Proof.
  induction ls as [|x rest IH]; simpl; [tauto|].
  destruct (Pos.eqb_spec x l) as [->|Hne]; [reflexivity|].
  intros [H|H]; [congruence|].
  rewrite (IH H) at 1. apply perm_swap.
Qed.

Lemma deliver_trace st l ms :
  trace (deliver l ms st) = trace st ++ delivered st l.
Proof.
  unfold deliver, delivered, isActive.
  destruct (String.eqb _ _); simpl;
    destruct (activeEditor (linter st)) as [e|]; simpl;
    try destruct (Pos.eqb _ e); simpl;
    rewrite <- ?app_assoc; simpl; rewrite ?app_nil_r; reflexivity.
Qed.

Lemma deliver_linter st l ms :
  linter (deliver l ms st) =
    if String.eqb (scope (provider (linter st) l)) "project"
    then setProjectMessages l ms (linter st) else linter st.
Proof.
  unfold deliver, isActive.
  destruct (String.eqb _ _); simpl;
    destruct (activeEditor (linter st)) as [e|]; simpl;
    try destruct (Pos.eqb _ e); reflexivity.
Qed.

Lemma deliver_self st l ms :
  self (deliver l ms st) =
    if String.eqb (scope (provider (linter st) l)) "project"
    then self st else setMessages l ms (self st).
Proof.
  unfold deliver, isActive.
  destruct (String.eqb _ _); simpl;
    destruct (activeEditor (linter st)) as [e|]; simpl;
    try destruct (Pos.eqb _ e); reflexivity.
Qed.

Lemma deliver_runs st l ms : runs (deliver l ms st) = runs st.
Proof.
  unfold deliver, isActive.
  destruct (String.eqb _ _); simpl;
    destruct (activeEditor (linter st)) as [e|]; simpl;
    try destruct (Pos.eqb _ e); reflexivity.
Qed.

Lemma deliver_cursorScopes st l ms :
  cursorScopes (deliver l ms st) = cursorScopes st.
Proof.
  unfold deliver, isActive.
  destruct (String.eqb _ _); simpl;
    destruct (activeEditor (linter st)) as [e|]; simpl;
    try destruct (Pos.eqb _ e); reflexivity.
Qed.

Section Settle.

Variables (st : State Message) (r : nat) (l : LinterRef)
  (o : Outcome RawResult) (run : Run).
Hypothesis Hrun : runs st !! r = Some run.
Hypothesis Hwait : In l (waiting run).

Let st' := settle validateResults r l o st.
Let rest := removeFirst l (waiting run).
Let project := String.eqb (scope (provider (linter st) l)) "project".

Lemma settle_unfold :
  st' =
    let st1 := deliver l (results validateResults o)
                 (log (notification validateResults o) st) in
    let st2 := withRuns (<[r := mkRun (runKind run) rest]> (runs st1)) st1 in
    match rest with
    | [] => snd (_lock (runKind run) (Some false) st2)
    | _ :: _ => st2
    end.
Proof.
  subst st' rest. unfold settle. rewrite Hrun.
  apply isWaiting_In in Hwait. now rewrite Hwait.
Qed.

Lemma settle_trace :
  trace st' = trace st ++ notification validateResults o
                ++ delivered st l ++ released (runKind run) rest.
Proof.
  rewrite settle_unfold. cbv zeta.
  destruct rest; simpl; rewrite ?deliver_trace; simpl;
    unfold delivered, isActive; simpl; flatten_app; reflexivity.
Qed.

Lemma settle_linter :
  linter st' =
    if project then setProjectMessages l (results validateResults o) (linter st)
    else linter st.
Proof.
  rewrite settle_unfold. cbv zeta.
  destruct rest; simpl; now rewrite deliver_linter.
Qed.

Lemma settle_messages :
  _messages (self st') =
    if project then _messages (self st)
    else <[l := results validateResults o]> (_messages (self st)).
Proof.
  rewrite settle_unfold. cbv zeta. subst project.
  destruct rest; simpl; rewrite deliver_self; simpl;
    destruct (String.eqb _ _); reflexivity.
Qed.

Lemma settle_runs :
  runs st' = <[r := mkRun (runKind run) rest]> (runs st).
Proof.
  rewrite settle_unfold. cbv zeta.
  destruct rest; simpl; now rewrite deliver_runs.
Qed.

Lemma settle_static :
  provider (linter st') = provider (linter st)
  /\ linters (linter st') = linters (linter st)
  /\ activeEditor (linter st') = activeEditor (linter st)
  /\ lintOnTheFly (linter st') = lintOnTheFly (linter st)
  /\ editor (self st') = editor (self st)
  /\ _emitter (self st') = _emitter (self st)
  /\ cursorScopes st' = cursorScopes st.
Proof.
  rewrite settle_unfold. cbv zeta.
  destruct rest; simpl; rewrite ?deliver_linter, ?deliver_self,
    ?deliver_cursorScopes; simpl;
    destruct (String.eqb _ _); simpl; repeat split; reflexivity.
Qed.

Lemma settle_stored : stored l st' = Some (results validateResults o).
Proof.
  unfold stored. destruct settle_static as (Hp & _). rewrite Hp.
  rewrite settle_linter, settle_messages. subst project.
  destruct (String.eqb _ _); simpl; apply lookup_insert_eq.
Qed.

Lemma settle_stored_other l' : l' <> l -> stored l' st' = stored l' st.
Proof.
  intros Hne. unfold stored. destruct settle_static as (Hp & _). rewrite Hp.
  rewrite settle_linter, settle_messages. subst project.
  destruct (String.eqb (scope (provider (linter st) l)) "project"); simpl;
    destruct (String.eqb _ _); try reflexivity;
    now apply lookup_insert_ne.
Qed.

End Settle.

(** ** Counting error notifications *)

Lemma errorCount_app es1 es2 :
  errorCount (es1 ++ es2) = errorCount es1 + errorCount es2.
Proof. unfold errorCount. now rewrite List.filter_app, length_app. Qed.

Lemma errorCount_emit event em : errorCount (emit event em) = 0.
Proof.
  unfold emit. destruct (emitterDisposed em); [reflexivity|].
  induction (listeners event em) as [|h hs IH]; [reflexivity|exact IH].
Qed.

Lemma errorCount_delivered st l : errorCount (delivered st l) = 0.
Proof.
  unfold delivered. rewrite !errorCount_app, errorCount_emit.
  destruct (String.eqb _ _), (isActive st); reflexivity.
Qed.

Lemma errorCount_released k rest : errorCount (released k rest) = 0.
Proof. destruct rest; reflexivity. Qed.

Lemma errorCount_notification o :
  errorCount (notification validateResults o) =
    if failed validateResults o then 1 else 0.
Proof.
  unfold notification, failed.
  destruct (fst (caught validateResults o)); reflexivity.
Qed.

Lemma settle_errorCount st r l o run :
  runs st !! r = Some run -> In l (waiting run) ->
  errorCount (trace (settle validateResults r l o st)) =
    errorCount (trace st) + (if failed validateResults o then 1 else 0).
Proof.
  intros Hrun Hwait. rewrite (settle_trace st r l o run Hrun Hwait).
  rewrite !errorCount_app, errorCount_notification, errorCount_delivered,
    errorCount_released. lia.
Qed.

(** A task that is not waiting in batch [r] cannot settle there. *)
Lemma settle_refused st r l o :
  (forall run, runs st !! r = Some run -> ~ In l (waiting run)) ->
  settle validateResults r l o st = st.
Proof.
  intros H. unfold settle. destruct (runs st !! r) as [run|] eqn:E; [|reflexivity].
  destruct (isWaiting l (waiting run)) eqn:W; [|reflexivity].
  apply isWaiting_In in W. now destruct (H run eq_refl).
Qed.

Lemma settle_lookup st r l o run :
  runs st !! r = Some run -> In l (waiting run) ->
  runs (settle validateResults r l o st) !! r =
    Some (mkRun (runKind run) (removeFirst l (waiting run))).
Proof.
  intros Hrun Hwait. rewrite (settle_runs st r l o run Hrun Hwait).
  apply list_lookup_insert_eq. now apply lookup_lt_Some in Hrun.
Qed.

Lemma settleAll_cons r l o sched st :
  settleAll validateResults r ((l, o) :: sched) st =
    settleAll validateResults r sched (settle validateResults r l o st).
Proof. reflexivity. Qed.

Lemma settleAll_app r pre post st :
  settleAll validateResults r (pre ++ post) st =
    settleAll validateResults r post (settleAll validateResults r pre st).
Proof. unfold settleAll. apply fold_left_app. Qed.

(** Settling a part of a batch leaves the rest of it waiting. *)
Lemma settleAll_prefix r pre : forall st k ws more,
  runs st !! r = Some (mkRun k ws) ->
  Permutation (map fst pre ++ more) ws ->
  exists ws',
    runs (settleAll validateResults r pre st) !! r = Some (mkRun k ws')
    /\ Permutation more ws'.
Proof.
  induction pre as [|[l o] pre IH]; intros st k ws more Hrun Hperm.
  - exists ws. split; [exact Hrun|exact Hperm].
  - rewrite settleAll_cons.
    assert (Hin : In l ws).
    { eapply Permutation_in; [exact Hperm|]. now left. }
    apply (IH _ k (removeFirst l ws) more).
    + now rewrite (settle_lookup st r l o _ Hrun Hin).
    + apply (Permutation_cons_inv (a := l)).
      simpl in Hperm. rewrite Hperm. now apply removeFirst_perm.
Qed.

Lemma removeFirst_In x l ls : In x (removeFirst l ls) -> In x ls.
Proof.
  induction ls as [|y rest IH]; simpl; [tauto|].
  destruct (Pos.eqb y l); simpl; tauto.
Qed.

Lemma settle_entries_other st r l o l' :
  (forall run, runs st !! r = Some run -> ~ In l' (waiting run)) ->
  entries l' (settle validateResults r l o st) = entries l' st.
Proof.
  intros Hnot. destruct (runs st !! r) as [run|] eqn:Hrun.
  - destruct (in_dec Pos.eq_dec l (waiting run)) as [Hin|Hout].
    + assert (Hne : l <> l') by (intros ->; exact (Hnot run eq_refl Hin)).
      unfold entries.
      rewrite (settle_linter st r l o run Hrun Hin),
        (settle_messages st r l o run Hrun Hin).
      destruct (String.eqb _ _); simpl; f_equal;
        now apply lookup_insert_ne.
    + rewrite settle_refused; [reflexivity|].
      intros run' E. rewrite Hrun in E. now inversion E; subst.
  - rewrite settle_refused; [reflexivity|]. intros run' E. congruence.
Qed.

Lemma settle_keeps_out st r l o l' :
  (forall run, runs st !! r = Some run -> ~ In l' (waiting run)) ->
  forall run, runs (settle validateResults r l o st) !! r = Some run ->
              ~ In l' (waiting run).
Proof.
  intros Hnot run' Hrun'. destruct (runs st !! r) as [run|] eqn:Hrun.
  - destruct (in_dec Pos.eq_dec l (waiting run)) as [Hin|Hout].
    + rewrite (settle_lookup st r l o run Hrun Hin) in Hrun'.
      inversion Hrun'; subst; simpl. intros H.
      apply removeFirst_In in H. exact (Hnot run eq_refl H).
    + rewrite settle_refused in Hrun'.
      * rewrite Hrun in Hrun'. now apply Hnot.
      * intros run0 E. rewrite Hrun in E. now inversion E; subst.
  - rewrite settle_refused in Hrun'; [congruence|]. intros run0 E. congruence.
Qed.

(** Whatever settles in a batch, the entries of an analyzer that does
    not wait in it stay as they are. *)
Lemma settleAll_entries_other r l' sched : forall st,
  (forall run, runs st !! r = Some run -> ~ In l' (waiting run)) ->
  entries l' (settleAll validateResults r sched st) = entries l' st.
Proof.
  induction sched as [|[l o] sched IH]; intros st Hnot; [reflexivity|].
  rewrite settleAll_cons, IH.
  - now apply settle_entries_other.
  - now apply settle_keeps_out.
Qed.

Lemma stored_entries l st st' :
  provider (linter st') = provider (linter st) ->
  entries l st' = entries l st -> stored l st' = stored l st.
Proof.
  unfold stored, entries. intros Hp E. rewrite Hp. inversion E as [[E1 E2]].
  now rewrite E1, E2.
Qed.

Lemma settle_provider st r l o :
  provider (linter (settle validateResults r l o st)) = provider (linter st).
Proof.
  destruct (runs st !! r) as [run|] eqn:Hrun.
  - destruct (in_dec Pos.eq_dec l (waiting run)) as [Hin|Hout].
    + exact (proj1 (settle_static st r l o run Hrun Hin)).
    + rewrite settle_refused; [reflexivity|].
      intros run' E. rewrite Hrun in E. now inversion E; subst.
  - rewrite settle_refused; [reflexivity|]. intros run' E. congruence.
Qed.

Lemma settleAll_provider r sched : forall st,
  provider (linter (settleAll validateResults r sched st)) = provider (linter st).
Proof.
  induction sched as [|[l o] sched IH]; intros st; [reflexivity|].
  now rewrite settleAll_cons, IH, settle_provider.
Qed.

(** A whole batch: every task settles, the error notifications are those
    of the failures, every analyzer's entry holds what one of its
    outcomes gave, nothing is left waiting and the release comes last. *)
Lemma settleAll_complete r sched : forall st k ws,
  runs st !! r = Some (mkRun k ws) ->
  Permutation (map fst sched) ws ->
  let fin := settleAll validateResults r sched st in
  runs fin !! r = Some (mkRun k [])
  /\ errorCount (trace fin) =
       errorCount (trace st)
       + length (List.filter (fun lo => failed validateResults (snd lo)) sched)
  /\ (forall l, In l ws ->
        exists o, In (l, o) sched
                  /\ stored l fin = Some (results validateResults o))
  /\ (sched <> [] ->
        exists es, trace fin = trace st ++ es ++ [LockWrite (lockKey k) false]).
Proof.
  induction sched as [|[l o] sched IH]; intros st k ws Hrun Hperm; cbv zeta.
  - simpl in Hperm. apply Permutation_nil in Hperm. subst ws. simpl.
    repeat split; [exact Hrun|lia|intros l []|congruence].
  - assert (Hin : In l ws).
    { eapply Permutation_in; [exact Hperm|]. now left. }
    pose proof (settle_lookup st r l o _ Hrun Hin) as Hrun2. simpl in Hrun2.
    assert (Hperm2 : Permutation (map fst sched) (removeFirst l ws)).
    { apply (Permutation_cons_inv (a := l)).
      simpl in Hperm. rewrite Hperm. now apply removeFirst_perm. }
    destruct (IH _ k _ Hrun2 Hperm2) as (Hfin & Hcount & Hstored & Hlast).
    rewrite settleAll_cons. repeat split.
    + exact Hfin.
    + rewrite Hcount, (settle_errorCount st r l o _ Hrun Hin). simpl.
      destruct (failed validateResults o); simpl; lia.
    + intros l' Hl'.
      destruct (in_dec Pos.eq_dec l' (removeFirst l ws)) as [Hrest|Hgone].
      * destruct (Hstored l' Hrest) as (o' & Ho' & Hs').
        exists o'. split; [now right|exact Hs'].
      * assert (l' = l) as ->.
        { apply (Permutation_in l' (removeFirst_perm l ws Hin)) in Hl'.
          destruct Hl' as [E|E]; [now symmetry|contradiction]. }
        exists o. split; [now left|].
        rewrite <- (settle_stored st r l o _ Hrun Hin).
        apply stored_entries; [apply settleAll_provider|].
        apply settleAll_entries_other.
        intros run E. rewrite Hrun2 in E. now inversion E; subst.
    + intros _. destruct sched as [|lo sched'].
      * simpl. simpl in Hperm2. apply Permutation_nil in Hperm2.
        rewrite (settle_trace st r l o _ Hrun Hin). simpl. rewrite Hperm2. simpl.
        exists (notification validateResults o ++ delivered st l).
        unfold delivered; flatten_app; reflexivity.
      * destruct Hlast as (es & Hes); [discriminate|].
        rewrite Hes, (settle_trace st r l o _ Hrun Hin). simpl.
        exists ((notification validateResults o ++ delivered st l
                 ++ released k (removeFirst l ws)) ++ es).
        unfold delivered; flatten_app; reflexivity.
Qed.

(** ** Counting invocations *)

Lemma invocationCount_app es1 es2 :
  invocationCount (es1 ++ es2) = invocationCount es1 + invocationCount es2.
Proof. unfold invocationCount. now rewrite List.filter_app, length_app. Qed.

Lemma invocationCount_invoked (e : EditorRef) ls :
  invocationCount (map (fun l => Invoked l e) ls) = length ls.
Proof.
  unfold invocationCount. induction ls as [|l ls IH]; simpl; [reflexivity|].
  now rewrite IH.
Qed.

(** [lint] never leaves a lock held that it found free. *)
Lemma lint_keeps_free st w k : lockFree st k -> lockFree (lint w st) k.
Proof.
  unfold lockFree. intros Hk. unfold lint.
  destruct (isActive st); simpl; [|exact Hk].
  destruct (truthy (props (self st) !! lockKey w)); simpl; [exact Hk|].
  destruct (_lint _ _ _ _); simpl; [|exact Hk].
  destruct (decide (lockKey w = lockKey k)) as [E|E].
  - rewrite E. now rewrite lookup_insert_eq.
  - now rewrite lookup_insert_ne.
Qed.

(** C1 (the code departs from the claim): [lint] reads the lock and
    releases it after the batch, but never takes it.  A second trigger
    of the same kind, issued while the batch of the first one is still
    waiting, therefore finds the lock free, invokes every selected
    analyzer again and starts a second batch of that kind. *)
Theorem second_trigger_runs_again st w :
  isActive st = true -> lockFree st w -> invokedBy st w <> [] ->
  let st1 := lint w st in
  let st2 := lint w st1 in
  lockFree st1 w
  /\ runs st1 = runs st ++ [mkRun w (invokedBy st w)]
  /\ runs st2 = runs st ++ [mkRun w (invokedBy st w); mkRun w (invokedBy st w)]
  /\ inFlight w st2 =
       inFlight w st ++ [mkRun w (invokedBy st w); mkRun w (invokedBy st w)]
  /\ invocationCount (trace st2) =
       invocationCount (trace st) + 2 * length (invokedBy st w).
Proof.
  intros Ha Hl Hi. cbv zeta.
  pose proof (lint_starts st w Ha Hl Hi) as E1.
  assert (Ha1 : isActive (lint w st) = true) by (rewrite E1; exact Ha).
  assert (Hl1 : lockFree (lint w st) w) by (rewrite E1; exact Hl).
  assert (Hi1 : invokedBy (lint w st) w = invokedBy st w) by (now rewrite E1).
  assert (Hi1' : invokedBy (lint w st) w <> []) by (now rewrite Hi1).
  pose proof (lint_starts (lint w st) w Ha1 Hl1 Hi1') as E2.
  assert (Hruns : runs (lint w (lint w st))
                  = runs st ++ [mkRun w (invokedBy st w); mkRun w (invokedBy st w)]).
  { rewrite Hi1 in E2. rewrite E2. simpl. rewrite E1. simpl.
    now rewrite <- app_assoc. }
  rewrite Hi1 in E2. repeat split.
  - exact Hl1.
  - now rewrite E1.
  - exact Hruns.
  - unfold inFlight. rewrite Hruns, List.filter_app. f_equal. simpl.
    rewrite Bool.eqb_reflx. destruct (invokedBy st w); [congruence|reflexivity].
  - rewrite E2. cbn [trace self]. rewrite E1. cbn [trace self].
    rewrite !invocationCount_app, !invocationCount_invoked.
    change (invocationCount [LockRead (lockKey w)]) with 0. lia.
Qed.

(** C2 (as amended): with the global toggle on, [_lint] invokes exactly
    the registered analyzers that match a scope and whose [lintOnFly]
    flag equals the trigger kind; with the toggle off it invokes every
    registered analyzer that matches a scope, whatever its flag. *)
Theorem run_mode_filter_follows_toggle lm w scopes l :
  In l (_lint lm w scopes (linters lm)) <->
  In l (linters lm)
  /\ scopeMatches scopes (provider lm l) = true
  /\ (if lintOnTheFly lm
      then lintOnFly (provider lm l) = Some w
      else True).
Proof.
  rewrite _lint_filter, List.filter_In, selected_true.
  destruct (lintOnTheFly lm); intuition congruence.
Qed.

(** C10: when the session's editor is not the active editor, [lint]
    returns the state it was given: the history gains no event (no lock
    read or write, no invocation), no batch starts, and the session's
    map and the project's map are the same. *)
Theorem lint_of_inactive_editor_is_noop st w :
  isActive st = false -> lint w st = st.
Proof. intros H. unfold lint. now rewrite H. Qed.

(** ** What one call of [lint] leaves behind *)

Lemma errorCount_invoked (e : EditorRef) ls :
  errorCount (map (fun l => Invoked l e) ls) = 0.
Proof. induction ls as [|l ls IH]; [reflexivity|exact IH]. Qed.

(** The events of a call, and where its invocations come from. *)
Lemma lint_trace st w :
  exists es,
    trace (lint w st) = trace st ++ es
    /\ errorCount es = 0
    /\ forall l e, In (Invoked l e) es -> In l (invokedBy st w).
Proof.
  destruct (isActive st) eqn:Ha.
  2:{ exists []. rewrite lint_inactive by exact Ha. rewrite app_nil_r.
      repeat split; [intros l e []]. }
  destruct (truthy (props (self st) !! lockKey w)) eqn:Hl.
  { exists [LockRead (lockKey w)]. rewrite lint_held by assumption.
    repeat split. intros l e [H|[]]; discriminate. }
  destruct (invokedBy st w) as [|l0 ls] eqn:Hi.
  { exists ([LockRead (lockKey w)] ++ [LockWrite (lockKey w) false]).
    rewrite lint_idle by assumption. repeat split.
    intros l e [H|[H|[]]]; discriminate. }
  exists ([LockRead (lockKey w)]
          ++ map (fun l => Invoked l (editor (self st))) (invokedBy st w)).
  rewrite lint_starts by (try assumption; rewrite Hi; discriminate).
  repeat split.
  - rewrite errorCount_app, errorCount_invoked. reflexivity.
  - intros l e [H|H]; [discriminate|].
    apply in_map_iff in H as (l' & E & Hin). inversion E; subst.
    now rewrite <- Hi.
Qed.

Lemma lint_entries st w l : entries l (lint w st) = entries l st.
Proof.
  destruct (isActive st) eqn:Ha; [|now rewrite lint_inactive].
  destruct (truthy (props (self st) !! lockKey w)) eqn:Hl;
    [now rewrite lint_held|].
  destruct (invokedBy st w) as [|l0 ls] eqn:Hi;
    [now rewrite lint_idle|].
  rewrite lint_starts; [reflexivity|assumption..|rewrite Hi; discriminate].
Qed.

Lemma lint_provider st w : provider (linter (lint w st)) = provider (linter st).
Proof.
  destruct (isActive st) eqn:Ha; [|now rewrite lint_inactive].
  destruct (truthy (props (self st) !! lockKey w)) eqn:Hl;
    [now rewrite lint_held|].
  destruct (invokedBy st w) as [|l0 ls] eqn:Hi;
    [now rewrite lint_idle|].
  rewrite lint_starts; [reflexivity|assumption..|rewrite Hi; discriminate].
Qed.

(** The batch a call starts sits right after the batches there were. *)
Lemma lint_new_run st w run :
  runs (lint w st) !! length (runs st) = Some run ->
  run = mkRun w (invokedBy st w).
Proof.
  destruct (isActive st) eqn:Ha.
  2:{ rewrite lint_inactive by exact Ha. intros H.
      apply lookup_lt_Some in H. lia. }
  destruct (truthy (props (self st) !! lockKey w)) eqn:Hl.
  { rewrite lint_held by assumption. simpl. intros H.
    apply lookup_lt_Some in H. lia. }
  destruct (invokedBy st w) as [|l0 ls] eqn:Hi.
  { rewrite lint_idle by assumption. simpl. intros H.
    apply lookup_lt_Some in H. lia. }
  rewrite lint_starts by (try assumption; rewrite Hi; discriminate).
  simpl. rewrite list_lookup_middle by reflexivity. rewrite Hi. congruence.
Qed.

Lemma emit_no_render event em : ~ In Render (emit event em).
Proof.
  unfold emit. destruct (emitterDisposed em); [intros []|].
  intros H. apply in_map_iff in H as (h & E & _). discriminate.
Qed.

(** C4: when the chain of analyzer [l] settles with outcome [o], the
    results (empty after a handled failure) are stored under [l] in the
    project's map if [l] is project-scoped and in the session's own map
    otherwise, the other map being left alone; after the write the
    handlers of 'did-update' are called, and a render is requested
    exactly when the session's editor is the active one. *)
Theorem settled_result_is_stored_and_announced st r l o run :
  runs st !! r = Some run -> In l (waiting run) ->
  let st' := settle validateResults r l o st in
  let res := results validateResults o in
  let project := String.eqb (scope (provider (linter st) l)) "project" in
  (if project
   then messagesProject (linter st') = <[l := res]> (messagesProject (linter st))
        /\ _messages (self st') = _messages (self st)
   else _messages (self st') = <[l := res]> (_messages (self st))
        /\ messagesProject (linter st') = messagesProject (linter st))
  /\ trace st' =
       trace st ++ notification validateResults o
         ++ [if project then ProjectSet l else SessionSet l]
         ++ emit "did-update" (_emitter (self st))
         ++ (if isActive st then [Render] else [])
         ++ released (runKind run) (removeFirst l (waiting run))
  /\ (In Render (delivered st l) <-> isActive st = true).
Proof.
  intros Hrun Hwait. cbv zeta. repeat split.
  - rewrite (settle_linter st r l o run Hrun Hwait),
      (settle_messages st r l o run Hrun Hwait).
    destruct (String.eqb _ _); split; reflexivity.
  - rewrite (settle_trace st r l o run Hrun Hwait).
    unfold delivered. flatten_app. reflexivity.
  - unfold delivered. intros [H|H].
    + destruct (String.eqb _ _); discriminate.
    + simpl in H. apply in_app_or in H as [H|H];
        [now apply emit_no_render in H|].
      destruct (isActive st); [reflexivity|destruct H].
  - intros Ha. unfold delivered. rewrite Ha.
    apply in_or_app. right. apply in_or_app. right. now left.
Qed.

(** C5: an analyzer is invoked only if one of its grammar scopes is among
    the scopes at the cursor or is '*'.  An analyzer [B] none of whose
    scopes is among them is not invoked by the call, and however the
    tasks of the batch settle, the entries of [B] are what they were. *)
Theorem unmatched_scope_is_left_alone st w B outcomes :
  (forall g, In g (grammarScopes (provider (linter st) B)) ->
             ~ In g (cursorScopes st ++ ["*"])) ->
  (forall l, In l (invokedBy st w) ->
     exists g, In g (grammarScopes (provider (linter st) l))
               /\ In g (cursorScopes st ++ ["*"]))
  /\ ~ In B (invokedBy st w)
  /\ (exists es, trace (lint w st) = trace st ++ es
                 /\ forall e, ~ In (Invoked B e) es)
  /\ entries B (settleAll validateResults (length (runs st)) outcomes (lint w st))
     = entries B st.
Proof.
  intros HB.
  assert (Hscope : forall l, In l (invokedBy st w) ->
            exists g, In g (grammarScopes (provider (linter st) l))
                      /\ In g (cursorScopes st ++ ["*"])).
  { intros l Hl. unfold invokedBy in Hl.
    apply run_mode_filter_scope in Hl. now apply scopeMatches_In. }
  assert (Hout : ~ In B (invokedBy st w)).
  { intros H. destruct (Hscope B H) as (g & Hg & Hs). exact (HB g Hg Hs). }
  repeat split; [exact Hscope|exact Hout| |].
  - destruct (lint_trace st w) as (es & Htr & _ & Hinv).
    exists es. split; [exact Htr|]. intros e H. exact (Hout (Hinv B e H)).
  - rewrite settleAll_entries_other; [apply lint_entries|].
    intros run Hrun. apply lint_new_run in Hrun. now subst run.
Qed.

(** The chain of [_lint] against the specification's notion of failure. *)
Lemma failed_spec o :
  failed validateResults o = Rejection.spec_failure validateResults o.
Proof.
  unfold failed, caught. destruct o as [raw|e]; simpl; [|reflexivity].
  now destruct (validateResults raw).
Qed.

Lemma results_spec o :
  results validateResults o = Rejection.spec_diagnostics validateResults o.
Proof.
  unfold results, caught. destruct o as [raw|e]; simpl; [|reflexivity].
  now destruct (validateResults raw).
Qed.

Lemma notification_failure o e :
  o = Rejected e
  \/ (exists raw, o = Fulfilled raw /\ validateResults raw = inl e) ->
  notification validateResults o = [AddError (message e) (stack e)]
  /\ results validateResults o = [].
Proof.
  unfold notification, results, caught.
  intros [->|(raw & -> & Hraw)]; simpl; [now split|].
  rewrite Hraw. now split.
Qed.

Lemma notification_success raw ms :
  validateResults raw = inr ms ->
  notification validateResults (Fulfilled raw) = []
  /\ results validateResults (Fulfilled raw) = ms.
Proof.
  unfold notification, results, caught. simpl. intros ->. now split.
Qed.

(** X20: in the batch of one call, let the tasks settle in any order, each
    with a value or with an error object.  Each failure (a rejection or a
    throw with an error, or a result refused by the validator) adds
    exactly one error notification, carrying the message and the stack of
    the error, and leaves the empty list as that analyzer's entry; each
    success adds no notification and leaves the validated results as the
    entry; every invoked analyzer ends with the entry of one of its
    outcomes; the notifications of the whole batch are as many as its
    failures; no task is left waiting and the release of the lock is the
    last event. *)
Theorem failures_are_contained st w sched :
  isActive st = true -> lockFree st w ->
  Permutation (map fst sched) (invokedBy st w) ->
  let r := length (runs st) in
  let fin := settleAll validateResults r sched (lint w st) in
  (forall pre l o post e,
      sched = pre ++ (l, o) :: post ->
      o = Rejected e
      \/ (exists raw, o = Fulfilled raw /\ validateResults raw = inl e) ->
      let before := settleAll validateResults r pre (lint w st) in
      let after := settle validateResults r l o before in
      exists rest,
        trace after = trace before ++ AddError (message e) (stack e) :: rest
        /\ errorCount rest = 0
        /\ stored l after = Some [])
  /\ (forall pre l raw ms post,
        sched = pre ++ (l, Fulfilled raw) :: post ->
        validateResults raw = inr ms ->
        let before := settleAll validateResults r pre (lint w st) in
        let after := settle validateResults r l (Fulfilled raw) before in
        exists rest,
          trace after = trace before ++ rest
          /\ errorCount rest = 0
          /\ stored l after = Some ms)
  /\ (forall l, In l (invokedBy st w) ->
        exists o, In (l, o) sched
                  /\ stored l fin
                     = Some (Rejection.spec_diagnostics validateResults o))
  /\ errorCount (trace fin) =
       errorCount (trace st)
       + length (List.filter
                   (fun lo => Rejection.spec_failure validateResults (snd lo))
                   sched)
  /\ (forall run, runs fin !! r = Some run -> waiting run = [])
  /\ (exists es, trace fin = trace st ++ es ++ [LockWrite (lockKey w) false]).
Proof.
  intros Ha Hl Hperm. cbv zeta.
  destruct (invokedBy st w) as [|l0 ls] eqn:Hi.
  - apply Permutation_sym, Permutation_nil, map_eq_nil in Hperm. subst sched.
    simpl. rewrite (lint_idle st w Ha Hl Hi). simpl.
    split; [|split; [|split; [|split; [|split]]]].
    + intros pre l o post e Hsched. destruct pre; discriminate.
    + intros pre l raw ms post Hsched. destruct pre; discriminate.
    + intros l [].
    + unfold errorCount. rewrite List.filter_app, length_app. simpl. lia.
    + intros run H. apply lookup_lt_Some in H. lia.
    + now exists [LockRead (lockKey w)].
  - assert (Hne : invokedBy st w <> []) by (rewrite Hi; discriminate).
    assert (Hrun : runs (lint w st) !! length (runs st)
                   = Some (mkRun w (invokedBy st w))).
    { rewrite (lint_starts st w Ha Hl Hne). simpl.
      now apply list_lookup_middle. }
    rewrite <- Hi in Hperm.
    destruct (lint_trace st w) as (es0 & Htr & Hcount0 & _).
    destruct (settleAll_complete _ sched _ _ _ Hrun Hperm)
      as (Hfin & Hcount & Hstored & Hlast).
    assert (Hstep : forall pre l o post,
               sched = pre ++ (l, o) :: post ->
               exists ws',
                 runs (settleAll validateResults (length (runs st)) pre
                         (lint w st)) !! length (runs st)
                 = Some (mkRun w ws')
                 /\ In l (waiting (mkRun w ws'))).
    { intros pre l o post Hsched.
      destruct (settleAll_prefix (length (runs st)) pre (lint w st) w
                  (invokedBy st w) (l :: map fst post) Hrun)
        as (ws' & Hrun' & Hperm').
      { subst sched. now rewrite map_app in Hperm. }
      exists ws'. split; [exact Hrun'|].
      simpl. eapply Permutation_in; [exact Hperm'|now left]. }
    rewrite <- Hi. split; [|split; [|split; [|split; [|split]]]].
    + intros pre l o post e Hsched Hfail.
      destruct (Hstep pre l o post Hsched) as (ws' & Hrun' & Hin).
      destruct (notification_failure o e Hfail) as (Hnote & Hres).
      exists (delivered (settleAll validateResults (length (runs st)) pre
                           (lint w st)) l
              ++ released w (removeFirst l ws')).
      split; [|split].
      * rewrite (settle_trace _ _ l o _ Hrun' Hin), Hnote. reflexivity.
      * now rewrite errorCount_app, errorCount_delivered, errorCount_released.
      * rewrite (settle_stored _ _ l o _ Hrun' Hin). now rewrite Hres.
    + intros pre l raw ms post Hsched Hok.
      destruct (Hstep pre l (Fulfilled raw) post Hsched) as (ws' & Hrun' & Hin).
      destruct (notification_success raw ms Hok) as (Hnote & Hres).
      exists (delivered (settleAll validateResults (length (runs st)) pre
                           (lint w st)) l
              ++ released w (removeFirst l ws')).
      split; [|split].
      * rewrite (settle_trace _ _ l _ _ Hrun' Hin), Hnote. reflexivity.
      * now rewrite errorCount_app, errorCount_delivered, errorCount_released.
      * rewrite (settle_stored _ _ l _ _ Hrun' Hin). now rewrite Hres.
    + intros l Hl'. destruct (Hstored l Hl') as (o & Hin & Hst).
      exists o. split; [exact Hin|]. now rewrite <- results_spec.
    + rewrite Hcount, Htr, errorCount_app, Hcount0.
      rewrite (List.filter_ext
                 (fun lo => failed validateResults (snd lo))
                 (fun lo => Rejection.spec_failure validateResults (snd lo)))
        by (intros lo; apply failed_spec).
      lia.
    + intros run E. rewrite Hfin in E. now inversion E.
    + destruct Hlast as (es & Hes).
      { intros ->. simpl in Hperm. apply Permutation_nil in Hperm.
        congruence. }
      exists (es0 ++ es). rewrite Hes, Htr. now rewrite <- !app_assoc.
Qed.

End Facts.

End SchedulerFacts.

(** ** Construction and destruction of a session *)

Module SessionFacts.

Module C := EditorLinter.
Module J := EditorLinterES6.

Lemma disposeAll_disposed c : compositeDisposed (snd (disposeAll c)) = true.
Proof.
  unfold disposeAll. destruct (compositeDisposed c) eqn:E; [exact E|reflexivity].
Qed.









(** C9: the constructor of the ES6 session refuses every value that is
    not a text editor, before anything is subscribed or created: it
    returns the error and the history it was given.  For a text editor it
    returns a session over that editor whose subscriptions are taken. *)
Theorem constructor_accepts_editors_only :
  (forall cfg v past,
      (forall e, v <> J.VTextEditor e) ->
      J.constructor cfg v past = (inl J.notAnEditor, past))
  /\ (forall cfg e past,
        exists s es,
          J.constructor cfg (J.VTextEditor e) past = (inr s, past ++ es)
          /\ J.editor s = e
          /\ compositeDisposed (J.subscriptions s) = false
          /\ disposables (J.subscriptions s)
             = J.firstSubscriptions e ++ J.lastSubscriptions
          /\ forall d, In d (J.firstSubscriptions e ++ J.lastSubscriptions) ->
                       In (Subscribed d) es).
Proof.
  split.
  - intros cfg v past Hv. unfold J.constructor.
    destruct v; try reflexivity. now destruct (Hv e).
  - intros cfg e past. unfold J.constructor, J.handleGutter. simpl.
    destruct (J.cfgGutterEnabled cfg) eqn:Eg.
    all: eexists; eexists; (split; [reflexivity|]).
    all: repeat split; try reflexivity.
    all: intros d Hd; simpl in Hd |- *;
      repeat (destruct Hd as [<-|Hd]; [tauto|]); destruct Hd.
Qed.

End SessionFacts.

(** ** The bottom panel *)

Module PanelFacts.

Import BottomPanel.

Section Facts.

Variable visible : string -> MessageRef -> bool.

Implicit Types (p : Panel) (m : MessageRef)
  (ms : list (MessageRef * Element)).

(** *** The Map operations *)

Lemma has_keys m ms : has m ms = true <-> In m (keys ms).
Proof.
  unfold has, keys. rewrite existsb_exists, in_map_iff. split.
  - intros (x & Hx & E). apply Pos.eqb_eq in E. now exists x.
  - intros (x & E & Hx). exists x. split; [exact Hx|now apply Pos.eqb_eq].
Qed.

Lemma has_false_keys m ms : has m ms = false <-> ~ In m (keys ms).
Proof.
  rewrite <- has_keys. destruct (has m ms); split; congruence.
Qed.

Lemma get_None m ms : get m ms = None <-> ~ In m (keys ms).
Proof.
  unfold get, keys. induction ms as [|[k e] rest IH]; simpl; [tauto|].
  destruct (Pos.eqb_spec k m) as [E|E]; simpl.
  - split; [discriminate|]. intros H. destruct H. now left.
  - rewrite IH. tauto.
Qed.

Lemma get_Some m ms el : get m ms = Some el -> In (m, el) ms.
Proof.
  unfold get. induction ms as [|[k e] rest IH]; simpl; [discriminate|].
  destruct (Pos.eqb_spec k m) as [E|E]; simpl.
  - intros H. injection H as <-. left. now rewrite E.
  - intros H. right. now apply IH.
Qed.

Lemma keys_delete m0 m ms :
  In m (keys (delete m0 ms)) <-> In m (keys ms) /\ m <> m0.
Proof.
  unfold keys, delete. rewrite !in_map_iff. split.
  - intros (x & E & Hx). apply List.filter_In in Hx as (Hx & Hne).
    apply negb_true_iff, Pos.eqb_neq in Hne. subst m.
    split; [now exists x|exact Hne].
  - intros ((x & E & Hx) & Hne). exists x. split; [exact E|].
    apply List.filter_In. split; [exact Hx|].
    apply negb_true_iff, Pos.eqb_neq. now rewrite E.
Qed.

Lemma delete_absent m ms : ~ In m (keys ms) -> delete m ms = ms.
Proof.
  unfold delete, keys. induction ms as [|[k e] rest IH]; simpl; [reflexivity|].
  intros H. destruct (Pos.eqb_spec k m) as [E|E]; simpl.
  - destruct H. now left.
  - rewrite IH; [reflexivity|tauto].
Qed.

Lemma keys_replace m el ms : keys (replace m el ms) = keys ms.
Proof.
  unfold keys. induction ms as [|[k e] rest IH]; simpl; [reflexivity|].
  destruct (Pos.eqb_spec k m) as [E|E]; simpl; [now rewrite E|].
  now rewrite IH.
Qed.

Lemma keys_set m0 el m ms :
  In m (keys (set m0 el ms)) <-> In m (keys ms) \/ m = m0.
Proof.
  unfold set. destruct (has m0 ms) eqn:E.
  - rewrite keys_replace. apply has_keys in E.
    split; [tauto|]. intros [H| ->]; assumption.
  - unfold keys. rewrite map_app, in_app_iff. simpl.
    split; intros [H|H].
    + now left.
    + destruct H as [H|[]]. now right.
    + now left.
    + right. left. now symmetry.
Qed.

Lemma set_fresh m el ms : ~ In m (keys ms) -> set m el ms = ms ++ [(m, el)].
Proof. intros H. apply has_false_keys in H. unfold set. now rewrite H. Qed.

(** *** The loops of [removeMessages] and [setMessages] *)

Lemma removeOne_keys p m0 m :
  In m (keys (messages (removeOne p m0))) <->
  In m (keys (messages p)) /\ m <> m0.
Proof.
  unfold removeOne. destruct (get m0 (messages p)) as [el|] eqn:E; simpl.
  - apply keys_delete.
  - apply get_None in E. split; [|tauto].
    intros H. split; [exact H|]. intros ->. exact (E H).
Qed.

Lemma removeMessages_cons m0 removed p :
  removeMessages (m0 :: removed) p = removeMessages removed (removeOne p m0).
Proof. reflexivity. Qed.

Lemma addMessages_cons m0 added p :
  addMessages visible (m0 :: added) p
  = addMessages visible added (addOne visible p m0).
Proof. reflexivity. Qed.

Lemma removeMessages_keys removed : forall p m,
  In m (keys (messages (removeMessages removed p))) <->
  In m (keys (messages p)) /\ ~ In m removed.
Proof.
  induction removed as [|m0 removed IH]; intros p m; [simpl; tauto|].
  rewrite removeMessages_cons, IH, removeOne_keys. simpl.
  split; [intros ((H1 & H2) & H3)|intros (H1 & H2)]; repeat split; auto;
    intros [E|E]; auto.
Qed.

Lemma addOne_keys p m0 m :
  In m (keys (messages (addOne visible p m0))) <->
  In m (keys (messages p)) \/ m = m0.
Proof. unfold addOne. simpl. apply keys_set. Qed.


Lemma removeMessages_ops removed : forall p,
  exists rs,
    ops (removeMessages removed p) = ops p ++ rs
    /\ Forall (fun o => isRemoval o = true) rs.
Proof.
  induction removed as [|m0 removed IH]; intros p.
  - exists []. simpl. now rewrite app_nil_r.
  - destruct (IH (removeOne p m0)) as (rs & Hops & Hall).
    rewrite removeMessages_cons, Hops.
    unfold removeOne. destruct (get m0 (messages p)) as [el|]; simpl.
    + exists (RemoveChild m0 (elementId el) :: rs).
      rewrite <- app_assoc. split; [reflexivity|]. now constructor.
    + now exists rs.
Qed.

Lemma addMessages_ops added : forall p,
  exists adds,
    ops (addMessages visible added p) = ops p ++ adds
    /\ Forall (fun o => isAddition o = true) adds
    /\ additions adds = added.
Proof.
  induction added as [|m0 added IH]; intros p.
  - exists []. simpl. now rewrite app_nil_r.
  - destruct (IH (addOne visible p m0)) as (adds & Hops & Hall & Hadd).
    rewrite addMessages_cons, Hops. simpl.
    exists (AppendChild m0 (nextElement p) :: adds).
    rewrite <- app_assoc. split; [reflexivity|]. split; [now constructor|].
    simpl. now rewrite Hadd.
Qed.

Lemma setMessages_unfold added removed p :
  setMessages visible added removed p =
    updateVisibility (addMessages visible added (removeMessages removed p)).
Proof. unfold setMessages. now destruct removed. Qed.


(** *** The counter *)

Lemma counted_app ms1 ms2 : counted (ms1 ++ ms2) = (counted ms1 + counted ms2)%Z.
Proof. unfold counted. rewrite List.filter_app, length_app. lia. Qed.

Lemma counted_cons k el ms :
  counted ((k, el) :: ms) = ((if status el then 1 else 0) + counted ms)%Z.
Proof. unfold counted. simpl. destruct (status el); simpl; lia. Qed.

Lemma counted_delete m ms : forall el,
  List.NoDup (keys ms) -> get m ms = Some el ->
  counted (delete m ms) = (counted ms - (if status el then 1 else 0))%Z.
Proof.
  induction ms as [|[k e] rest IH]; intros el Hnd Hget; [discriminate|].
  simpl in Hnd. apply List.NoDup_cons_iff in Hnd as (Hk & Hnd).
  unfold get in Hget. unfold delete. simpl in *.
  destruct (Pos.eqb_spec k m) as [E|E]; simpl in *.
  - injection Hget as <-. subst k.
    fold (delete m rest). rewrite delete_absent by exact Hk.
    rewrite counted_cons. lia.
  - fold (delete m rest). rewrite !counted_cons, (IH el Hnd Hget). lia.
Qed.

Lemma NoDup_delete m ms : List.NoDup (keys ms) -> List.NoDup (keys (delete m ms)).
Proof.
  unfold keys, delete. induction ms as [|[k e] rest IH]; simpl; [auto|].
  intros Hnd. apply List.NoDup_cons_iff in Hnd as (Hk & Hnd).
  destruct (Pos.eqb k m); simpl; [now apply IH|].
  apply List.NoDup_cons_iff. split; [|now apply IH].
  intros H. apply Hk. apply in_map_iff in H as (x & E & Hx).
  apply List.filter_In in Hx as (Hx & _). apply in_map_iff. now exists x.
Qed.

Lemma Forall_delete (P : MessageRef * Element -> Prop) m ms :
  Forall P ms -> Forall P (delete m ms).
Proof.
  intros H. apply List.Forall_forall. intros x Hx.
  apply List.filter_In in Hx as (Hx & _). revert x Hx. now apply List.Forall_forall.
Qed.

Lemma consistent_removeOne p m : consistent visible p -> consistent visible (removeOne p m).
Proof.
  intros (Hnd & Hst & Hc). unfold removeOne.
  destruct (get m (messages p)) as [el|] eqn:E; [|now repeat split].
  repeat split; simpl.
  - now apply NoDup_delete.
  - now apply Forall_delete.
  - rewrite (counted_delete m (messages p) el Hnd E), Hc.
    destruct (status el); lia.
Qed.

Lemma consistent_removeMessages removed : forall p,
  consistent visible p -> consistent visible (removeMessages removed p).
Proof.
  induction removed as [|m removed IH]; intros p Hp; [exact Hp|].
  rewrite removeMessages_cons. now apply IH, consistent_removeOne.
Qed.

Lemma removeOne_scope p m : scope (removeOne p m) = scope p.
Proof. unfold removeOne. now destruct (get m (messages p)). Qed.

Lemma consistent_addOne p m :
  consistent visible p -> ~ In m (keys (messages p)) -> consistent visible (addOne visible p m).
Proof.
  intros (Hnd & Hst & Hc) Hm. unfold addOne. repeat split; simpl.
  - rewrite set_fresh by exact Hm. unfold keys. rewrite map_app. simpl.
    apply List.NoDup_app; [exact Hnd|repeat constructor; intros []|].
    intros x Hx [E|[]]. subst x. exact (Hm Hx).
  - rewrite set_fresh by exact Hm. apply Forall_app. split; [exact Hst|].
    now constructor.
  - rewrite set_fresh by exact Hm. rewrite counted_app, Hc.
    unfold counted. simpl. destruct (visible (scope p) m); simpl; lia.
Qed.

Lemma consistent_addMessages added : forall p,
  consistent visible p -> List.NoDup added ->
  (forall m, In m added -> ~ In m (keys (messages p))) ->
  consistent visible (addMessages visible added p).
Proof.
  induction added as [|m added IH]; intros p Hp Hnd Hfresh; [exact Hp|].
  rewrite addMessages_cons. apply List.NoDup_cons_iff in Hnd as (Hm & Hnd).
  apply IH; [|exact Hnd|].
  - apply consistent_addOne; [exact Hp|]. apply Hfresh. now left.
  - intros m' Hm'. rewrite addOne_keys. intros [H|H].
    + apply (Hfresh m'); [now right|exact H].
    + subst m'. exact (Hm Hm').
Qed.

Lemma consistent_updateVisibility p : consistent visible p -> consistent visible (updateVisibility p).
Proof. intros H. exact H. Qed.

(** *** [refresh] *)

Lemma refresh_loop sc ms : forall acc n,
  fold_left (refreshOne visible sc) ms (acc, n)
  = (acc ++ map (restatus visible sc) ms, (n + counted (map (restatus visible sc) ms))%Z).
Proof.
  induction ms as [|[k e] rest IH]; intros acc n; simpl.
  - rewrite app_nil_r. f_equal. unfold counted. simpl. lia.
  - unfold refreshOne at 2. simpl. rewrite IH, <- app_assoc. simpl.
    f_equal. rewrite (counted_cons k (mkElement (elementId e) (visible sc k))).
    simpl. destruct (visible sc k); lia.
Qed.

Lemma refresh_unfold sc' p :
  refresh visible sc' p =
    let sc := match given sc' with Some s => s | None => scope p end in
    let ms := map (restatus visible sc) (messages p) in
    updateVisibility
      (mkPanel sc ms (counted ms) (children p) (visibility p)
         (configVisibility p) (paneVisibility p) (nextElement p) (ops p)).
Proof.
  unfold refresh. rewrite refresh_loop. simpl. reflexivity.
Qed.

Lemma keys_restatus sc ms : keys (map (restatus visible sc) ms) = keys ms.
Proof. unfold keys. rewrite map_map. reflexivity. Qed.

Lemma consistent_refresh sc' p :
  List.NoDup (keys (messages p)) -> consistent visible (refresh visible sc' p).
Proof.
  intros Hnd. rewrite refresh_unfold. cbv zeta. repeat split; simpl.
  - now rewrite keys_restatus.
  - apply List.Forall_forall. intros x Hx.
    apply in_map_iff in Hx as (y & <- & _). reflexivity.
Qed.

(** *** Sequences of calls *)

Lemma distinct_NoDup (added : list MessageRef) :
  distinct added = true -> List.NoDup added.
Proof.
  induction added as [|m rest IH]; simpl; [constructor|].
  intros H. apply andb_true_iff in H as (Hm & Hrest).
  constructor; [|now apply IH].
  intros Hin. apply negb_true_iff in Hm.
  assert (existsb (Pos.eqb m) rest = true); [|congruence].
  apply existsb_exists. exists m. split; [exact Hin|apply Pos.eqb_refl].
Qed.

Lemma consistent_call p c :
  consistent visible p -> freshCall p c = true -> consistent visible (call visible p c).
Proof.
  intros Hp Hc. destruct c as [added removed|removed|sc']; simpl.
  - simpl in Hc. apply andb_true_iff in Hc as (Hd & Hf).
    rewrite setMessages_unfold. apply consistent_updateVisibility.
    apply consistent_addMessages.
    + now apply consistent_removeMessages.
    + now apply distinct_NoDup.
    + intros m Hm. rewrite forallb_forall in Hf.
      apply has_false_keys, negb_true_iff. now apply Hf.
  - now apply consistent_removeMessages.
  - apply consistent_refresh. exact (proj1 Hp).
Qed.

Lemma consistent_calls cs : forall p,
  consistent visible p -> freshCalls visible cs p = true ->
  consistent visible (calls visible cs p).
Proof.
  induction cs as [|c cs IH]; intros p Hp Hcs; [exact Hp|].
  simpl in Hcs. apply andb_true_iff in Hcs as (Hc & Hcs).
  simpl. apply IH; [now apply consistent_call|exact Hcs].
Qed.

Lemma consistent_constructor sc cv pv : consistent visible (constructor sc cv pv).
Proof. repeat split; constructor. Qed.

Lemma consistent_visibleNow p :
  consistent visible p -> visibleMessages p = visibleNow visible p.
Proof.
  intros (_ & Hst & Hc). rewrite Hc. unfold counted, visibleNow.
  do 2 f_equal. apply List.filter_ext_in. intros x Hx.
  revert x Hx. now apply List.Forall_forall.
Qed.

(** C7 (as amended): after any sequence of [setMessages],
    [removeMessages] and [refresh] calls on a new panel in which every
    [setMessages] adds pairwise distinct messages that are not tracked
    once its removals are done, the counter is the number of tracked
    messages that are visible under the panel's scope.  A message added
    while invisible leaves the counter alone, and so does the removal of
    a message that is not tracked or whose element is not visible. *)
Theorem counter_follows_visibility sc cv pv cs :
  freshCalls visible cs (constructor sc cv pv) = true ->
  let p := calls visible cs (constructor sc cv pv) in
  visibleMessages p = visibleNow visible p
  /\ (forall m, visible (scope p) m = false ->
        visibleMessages (addOne visible p m) = visibleMessages p)
  /\ (forall m, get m (messages p) = None ->
        visibleMessages (removeOne p m) = visibleMessages p)
  /\ (forall m el, get m (messages p) = Some el -> status el = false ->
        visibleMessages (removeOne p m) = visibleMessages p).
Proof.
  intros Hcs. cbv zeta. split; [|split; [|split]].
  - apply consistent_visibleNow, consistent_calls; [|exact Hcs].
    apply consistent_constructor.
  - intros m Hm. unfold addOne. simpl. now rewrite Hm.
  - intros m Hm. unfold removeOne. now rewrite Hm.
  - intros m el Hm Hs. unfold removeOne. rewrite Hm. simpl. now rewrite Hs.
Qed.

End Facts.

End PanelFacts.

Module PanelExamples.

Import BottomPanel Examples PanelFacts.

Example editing_counter :
  visibleMessages (calls showLine editingCalls newPanel) = 1%Z.
Proof. reflexivity. Qed.

Example editing_tracked :
  keys (messages (calls showLine editingCalls newPanel))
  = [2%positive; 1%positive].
Proof. reflexivity. Qed.

(** C7, the claim as stated fails: a message handed over as added twice
    is tracked once and counted twice. *)
Lemma readded_message_is_counted_twice :
  let p := calls showAll readdCalls newPanel in
  keys (messages p) = [1%positive]
  /\ visibleNow showAll p = 1%Z
  /\ visibleMessages p = 2%Z.
Proof. cbv zeta. repeat split. Qed.

(** C7 as amended, at a concrete input. *)
Lemma counter_follows_visibility_witness :
  freshCalls showLine editingCalls (constructor "File" true true) = true
  /\ visibleMessages (calls showLine editingCalls (constructor "File" true true))
     = visibleNow showLine (calls showLine editingCalls (constructor "File" true true)).
Proof.
  split; [reflexivity|].
  exact (proj1 (counter_follows_visibility showLine "File" true true
                  editingCalls eq_refl)).
Defined.

End PanelExamples.

Module SchedulerExamples.

Import EditorLinter Examples SchedulerFacts.

(** Both analyzers are invoked by a save while the toggle is off. *)
Example save_invokes_both :
  invokedBy (exampleState false activeRef ["source.js"]) false = [linterX; linterY].
Proof. reflexivity. Qed.

Example change_invokes_first :
  invokedBy (exampleState true activeRef ["source.js"]) true = [linterX].
Proof. reflexivity. Qed.

(** C1, at a concrete input: two change triggers in a row on the active
    editor start two batches and invoke [linterX] twice. *)
Lemma second_trigger_runs_again_witness :
  let st := exampleState true activeRef ["source.js"] in
  isActive st = true /\ lockFree st true /\ invokedBy st true <> []
  /\ runs (lint true (lint true st))
     = [mkRun true [linterX]; mkRun true [linterX]]
  /\ invocationCount (trace (lint true (lint true st))) = 2.
Proof.
  cbv zeta.
  assert (Ha : isActive (exampleState true activeRef ["source.js"]) = true)
    by reflexivity.
  assert (Hl : lockFree (exampleState true activeRef ["source.js"]) true)
    by (vm_compute; reflexivity).
  assert (Hi : invokedBy (exampleState true activeRef ["source.js"]) true <> [])
    by discriminate.
  destruct (second_trigger_runs_again (exampleState true activeRef ["source.js"]) true
              Ha Hl Hi) as (_ & _ & Hruns & _ & Hcount).
  split; [exact Ha|]. split; [exact Hl|]. split; [exact Hi|].
  split; [exact Hruns|exact Hcount].
Defined.

(** C2, the claim as stated fails: with the toggle off, [linterX], which
    is restricted to on-the-fly runs, is invoked by a save. *)
Lemma toggle_off_ignores_run_mode :
  let lm := exampleLinter false in
  runModeOf (provider lm linterX) = OnChange
  /\ spec_runModeMatches (runModeOf (provider lm linterX)) false = false
  /\ In linterX (_lint lm false ["source.js"; "*"] (linters lm)).
Proof. cbv zeta. repeat split. now left. Qed.

(** C10, at a concrete input: [otherRef] is not the active editor. *)
Lemma lint_of_inactive_editor_witness :
  isActive (exampleState true otherRef ["source.js"]) = false
  /\ lint true (exampleState true otherRef ["source.js"])
     = exampleState true otherRef ["source.js"].
Proof.
  split; [reflexivity|].
  apply (lint_of_inactive_editor_is_noop (exampleState true otherRef ["source.js"]) true).
  reflexivity.
Defined.

(** X20 at a concrete input: a save with the toggle off invokes both
    analyzers; [linterY] returns a result that the validator refuses,
    then [linterX] rejects with an error. *)
Lemma failures_are_contained_witness :
  let st := exampleState false activeRef ["source.js"] in
  let sched := [(linterY, Fulfilled [""]); (linterX, Rejected boom)] in
  let fin := settleAll exampleValidate 0 sched (lint false st) in
  let after := settle exampleValidate 0 linterY (Fulfilled [""])
                 (lint false st) in
  isActive st = true /\ lockFree st false
  /\ Permutation (map fst sched) (invokedBy st false)
  /\ (exists rest,
        trace after = trace (lint false st)
                      ++ AddError "Invalid result" "at validateResults" :: rest
        /\ errorCount rest = 0
        /\ stored linterY after = Some [])
  /\ errorCount (trace fin) = 2
  /\ (forall run, runs fin !! 0 = Some run -> waiting run = []).
Proof.
  cbv zeta.
  assert (Ha : isActive (exampleState false activeRef ["source.js"]) = true)
    by reflexivity.
  assert (Hl : lockFree (exampleState false activeRef ["source.js"]) false)
    by (vm_compute; reflexivity).
  assert (Hp : Permutation
                 (map fst [(linterY, Fulfilled [""]);
                           (linterX, Rejected (RawResult := list string) boom)])
                 (invokedBy (exampleState false activeRef ["source.js"]) false))
    by apply perm_swap.
  destruct (failures_are_contained exampleValidate
              (exampleState false activeRef ["source.js"]) false _ Ha Hl Hp)
    as (Hfail & _ & _ & Hcount & Hdone & _).
  split; [exact Ha|]. split; [exact Hl|]. split; [exact Hp|].
  split; [|split; [exact Hcount|exact Hdone]].
  exact (Hfail [] linterY (Fulfilled [""]) [(linterX, Rejected boom)]
           (mkError "Invalid result" "at validateResults") eq_refl
           (or_intror (ex_intro _ [""] (conj eq_refl eq_refl)))).
Defined.

(** C4, at a concrete input: the rejection of the project-scoped
    [linterY] is stored as the empty list in the project's map, the
    subscriber of 'did-update' is called and a render is requested. *)
Lemma settled_result_witness :
  let st := lint false (exampleState false activeRef ["source.js"]) in
  let st' := settle exampleValidate 0 linterY (Rejected boom) st in
  runs st !! 0 = Some (mkRun false [linterX; linterY])
  /\ In linterY [linterX; linterY]
  /\ messagesProject (linter st') = <[linterY := []]> (messagesProject (linter st))
  /\ _messages (self st') = _messages (self st)
  /\ trace st' =
       trace st ++ [AddError "boom" "at lint"; ProjectSet linterY;
                    Called "did-update" (Callback 1); Render].
Proof.
  cbv zeta.
  assert (Hrun : runs (lint false (exampleState false activeRef ["source.js"])) !! 0
                 = Some (mkRun false [linterX; linterY])) by reflexivity.
  assert (Hin : In linterY (waiting (mkRun false [linterX; linterY])))
    by (right; now left).
  destruct (settled_result_is_stored_and_announced exampleValidate
              (lint false (exampleState false activeRef ["source.js"]))
              0 linterY (Rejected boom) _ Hrun Hin)
    as ((Hproject & Hsession) & Htrace & _).
  split; [exact Hrun|]. split; [exact Hin|]. split; [exact Hproject|].
  split; [exact Hsession|exact Htrace].
Defined.

(** C5, at a concrete input: in a CoffeeScript file the change trigger
    invokes [linterX] only, and the entries of [linterY] stay absent. *)
Lemma unmatched_scope_witness :
  let st := exampleState true activeRef ["source.coffee"] in
  (forall g, In g (grammarScopes (provider (linter st) linterY)) ->
             ~ In g (cursorScopes st ++ ["*"]))
  /\ ~ In linterY (invokedBy st true)
  /\ entries linterY
       (settleAll exampleValidate (length (runs st))
          [(linterX, Fulfilled ["unused"])] (lint true st))
     = entries linterY st.
Proof.
  cbv zeta.
  assert (HB : forall g,
             In g (grammarScopes
                     (provider (linter (exampleState true activeRef
                                          ["source.coffee"])) linterY)) ->
             ~ In g (cursorScopes (exampleState true activeRef ["source.coffee"])
                       ++ ["*"])).
  { intros g [<-|[]] [H|[H|[]]]; discriminate. }
  destruct (unmatched_scope_is_left_alone exampleValidate
              (exampleState true activeRef ["source.coffee"]) true linterY
              [(linterX, Fulfilled ["unused"])] HB)
    as (_ & Hout & _ & Hentries).
  split; [exact HB|]. split; [exact Hout|exact Hentries].
Defined.

End SchedulerExamples.

(** ** Whole lives of a CoffeeScript session *)

Module LifecycleFacts.

Import EditorLinter Lifecycle SchedulerFacts.

Section Facts.

Context {RawResult Message : Type}.
Variable validateResults : RawResult -> Error + list Message.

Implicit Types (st : State Message) (s : Session Message) (w : bool)
  (l : LinterRef) (o : Outcome RawResult) (lm : Linter Message)
  (e : EditorRef) (scopes : list string).

(** *** The lock fields *)

Lemma releasedOnly_unlocked s s' : releasedOnly s s' -> unlocked s -> unlocked s'.
Proof.
  intros (H1 & H2 & H3) (U1 & U2 & U3). repeat split; [congruence..|].
  intros k. destruct H3 as [->|(k' & ->)]; [apply U3|].
  destruct (decide (k' = k)) as [->|Hne].
  - now rewrite lookup_insert_eq.
  - rewrite lookup_insert_ne by exact Hne. apply U3.
Qed.

Lemma releasedOnly_refl s : releasedOnly s s.
Proof. repeat split. now left. Qed.

Lemma lint_releasedOnly st w : releasedOnly (self st) (self (lint w st)).
Proof.
  unfold lint. destruct (isActive st); simpl; [|apply releasedOnly_refl].
  destruct (truthy _); simpl; [apply releasedOnly_refl|].
  destruct (_lint _ _ _ _); simpl; [|apply releasedOnly_refl].
  repeat split. right. now exists (lockKey w).
Qed.

Lemma deliver_locks st l ms :
  _inProgress (self (deliver l ms st)) = _inProgress (self st)
  /\ _inProgressFly (self (deliver l ms st)) = _inProgressFly (self st)
  /\ props (self (deliver l ms st)) = props (self st).
Proof.
  rewrite deliver_self. destruct (String.eqb _ _); simpl; repeat split.
Qed.

Lemma settle_releasedOnly st r l o :
  releasedOnly (self st) (self (settle validateResults r l o st)).
Proof.
  unfold settle. destruct (runs st !! r) as [run|]; [|apply releasedOnly_refl].
  destruct (isWaiting l (waiting run)); [|apply releasedOnly_refl].
  pose proof (deliver_locks (log (notification validateResults o) st) l
                (results validateResults o)) as (H1 & H2 & H3).
  simpl in H1, H2, H3.
  destruct (removeFirst l (waiting run)); simpl.
  - split; [exact H1|]. split; [exact H2|].
    right. exists (lockKey (runKind run)). now rewrite H3.
  - split; [exact H1|]. split; [exact H2|]. now left.
Qed.

Lemma fire_releasedOnly st ev : releasedOnly (self st) (self (fire ev st)).
Proof.
  unfold fire. destruct (live _ _); [|apply releasedOnly_refl].
  destruct ev; simpl.
  - apply lint_releasedOnly.
  - apply releasedOnly_refl.
  - unfold onDidStopChanging. destruct (lintOnTheFly (linter st));
      [apply lint_releasedOnly|apply releasedOnly_refl].
Qed.

Lemma destroy_releasedOnly st : releasedOnly (self st) (self (destroy st)).
Proof.
  unfold destroy. destruct (disposeAll _) as [es subs]. simpl.
  repeat split. now left.
Qed.

Lemma act_releasedOnly st (a : Action RawResult Message) :
  releasedOnly (self st) (self (act validateResults st a)).
Proof.
  destruct a; simpl.
  - apply lint_releasedOnly.
  - apply fire_releasedOnly.
  - apply settle_releasedOnly.
  - apply destroy_releasedOnly.
  - repeat split. now left.
  - repeat split. now left.
  - repeat split. now left.
  - repeat split. now left.
  - apply releasedOnly_refl.
  - apply releasedOnly_refl.
  - apply releasedOnly_refl.
Qed.

Lemma acts_unlocked actions : forall st,
  unlocked (self st) -> unlocked (self (acts validateResults actions st)).
Proof.
  induction actions as [|a actions IH]; intros st Hst; [exact Hst|].
  simpl. apply IH.
  exact (releasedOnly_unlocked _ _ (act_releasedOnly st a) Hst).
Qed.

Lemma initial_unlocked lm e scopes : unlocked (self (initial lm e scopes)).
Proof. repeat split. Qed.

(** X1: from construction on, whatever is called on the session and
    whenever its tasks settle, neither lock field nor lock property is ever
    true; so the guard of [lint] on the lock never stops a call: every
    call on the active editor that selects an analyzer starts a batch. *)
Theorem locks_are_never_held lm e scopes
    (actions : list (Action RawResult Message)) :
  let st := acts validateResults actions (initial lm e scopes) in
  unlocked (self st)
  /\ forall w, isActive st = true -> invokedBy st w <> [] ->
       runs (lint w st) = runs st ++ [mkRun w (invokedBy st w)].
Proof.
  cbv zeta.
  assert (U : unlocked (self (acts validateResults actions (initial lm e scopes))))
    by apply acts_unlocked, initial_unlocked.
  split; [exact U|]. intros w Ha Hi.
  rewrite (lint_starts _ w Ha (proj2 (proj2 U) (lockKey w)) Hi). reflexivity.
Qed.

(** *** States that differ in subscriptions only *)

Lemma agree_lint st st' w :
  agree st st' ->
  agree (lint w st) (lint w st')
  /\ exists es, added st (lint w st) es /\ added st' (lint w st') es.
Proof.
  destruct st as [lm [e ms ip ipf pr em subs] cs rs tr].
  destruct st' as [lm' [e' ms' ip' ipf' pr' em' subs'] cs' rs' tr'].
  unfold agree, added. simpl. intros (-> & -> & -> & -> & -> & -> & -> & -> & ->).
  unfold lint, isActive. simpl.
  destruct (activeEditor lm) as [a|]; simpl.
  2:{ split; [repeat split|]. exists []. now rewrite !app_nil_r. }
  destruct (Pos.eqb e a); simpl.
  2:{ split; [repeat split|]. exists []. now rewrite !app_nil_r. }
  destruct (truthy (pr !! lockKey w)); simpl.
  { split; [repeat split|]. now exists [LockRead (lockKey w)]. }
  destruct (_lint lm w (cs ++ ["*"]) (linters lm)) as [|l0 ls]; simpl.
  - split; [repeat split|].
    exists ([LockRead (lockKey w)] ++ [LockWrite (lockKey w) false]).
    split; flatten_app; reflexivity.
  - split; [repeat split|].
    exists ([LockRead (lockKey w)] ++ Invoked l0 e :: map (fun l => Invoked l e) ls).
    split; flatten_app; reflexivity.
Qed.

Lemma agree_settle st st' r l o :
  agree st st' ->
  agree (settle validateResults r l o st) (settle validateResults r l o st')
  /\ exists es, added st (settle validateResults r l o st) es
                /\ added st' (settle validateResults r l o st') es.
Proof.
  destruct st as [lm [e ms ip ipf pr em subs] cs rs tr].
  destruct st' as [lm' [e' ms' ip' ipf' pr' em' subs'] cs' rs' tr'].
  unfold agree, added. simpl. intros (-> & -> & -> & -> & -> & -> & -> & -> & ->).
  unfold settle. simpl. destruct (rs !! r) as [run|]; simpl.
  2:{ split; [repeat split|]. exists []. now rewrite !app_nil_r. }
  destruct (isWaiting l (waiting run)); simpl.
  2:{ split; [repeat split|]. exists []. now rewrite !app_nil_r. }
  unfold deliver, isActive. simpl.
  destruct (String.eqb (scope (provider lm l)) "project"); simpl;
    destruct (activeEditor lm) as [a|]; simpl;
    try destruct (Pos.eqb e a); simpl;
    destruct (removeFirst l (waiting run)); simpl;
    (split; [repeat split|]);
    flatten_app; eexists; (split; reflexivity).
Qed.

Lemma agree_destroy st : agree st (destroy st).
Proof.
  unfold destroy. destruct (disposeAll _) as [es subs]. repeat split.
Qed.

Lemma destroy_not_live st d :
  live d (_subscriptions (self (destroy st))) = false.
Proof.
  unfold destroy. destruct (disposeAll _) as [es subs] eqn:E. simpl.
  unfold live. replace subs with (snd (disposeAll (_subscriptions (self st))))
    by (now rewrite E).
  now rewrite SessionFacts.disposeAll_disposed.
Qed.

(** X2: [destroy] stops the editor's events from reaching the session and
    nothing else.  It leaves the maps, the batches and the locks as they
    are; a later direct call of [lint] and a later settlement of a waiting
    task do to the state, and add to the history, exactly what they would
    have done without it. *)
Theorem destroy_stops_editor_events_only st :
  (forall ev, fire ev (destroy st) = destroy st)
  /\ agree st (destroy st)
  /\ (forall w,
        agree (lint w st) (lint w (destroy st))
        /\ exists es, added st (lint w st) es
                      /\ added (destroy st) (lint w (destroy st)) es)
  /\ (forall r l o,
        agree (settle validateResults r l o st)
          (settle validateResults r l o (destroy st))
        /\ exists es, added st (settle validateResults r l o st) es
                      /\ added (destroy st)
                           (settle validateResults r l o (destroy st)) es).
Proof.
  split; [|split; [|split]].
  - intros ev. unfold fire. now rewrite destroy_not_live.
  - apply agree_destroy.
  - intros w. apply agree_lint, agree_destroy.
  - intros r l o. apply agree_settle, agree_destroy.
Qed.

(** *** Selection *)

(** X3: '*' is pushed onto the scopes of every call, so an analyzer that
    declares '*' passes the scope test wherever the cursor is: on the
    active editor, with the lock free, it is invoked by every trigger that
    its run-mode admits. *)
Theorem wildcard_analyzer_is_invoked_everywhere st w l :
  isActive st = true -> lockFree st w ->
  In l (linters (linter st)) ->
  In "*" (grammarScopes (provider (linter st) l)) ->
  (lintOnTheFly (linter st) = true ->
   lintOnFly (provider (linter st) l) = Some w) ->
  In l (invokedBy st w)
  /\ In (Invoked l (editor (self st))) (trace (lint w st)).
Proof.
  intros Ha Hl Hreg Hstar Hmode.
  assert (Hin : In l (invokedBy st w)).
  { unfold invokedBy. rewrite _lint_filter. apply List.filter_In.
    split; [exact Hreg|]. apply selected_true. split; [|exact Hmode].
    apply scopeMatches_In. exists "*". split; [exact Hstar|].
    apply in_or_app. right. now left. }
  split; [exact Hin|].
  rewrite (lint_starts st w Ha Hl); [|intros E; rewrite E in Hin; destruct Hin].
  simpl. apply in_or_app. right. right.
  apply in_map_iff. now exists l.
Qed.

(** *** Editor events *)

Lemma lint_linter st w : linter (lint w st) = linter st.
Proof.
  unfold lint. destruct (isActive st); simpl; [|reflexivity].
  destruct (truthy _); simpl; [reflexivity|].
  destruct (_lint _ _ _ _); reflexivity.
Qed.

Lemma lint_subscriptions st w :
  _subscriptions (self (lint w st)) = _subscriptions (self st)
  /\ editor (self (lint w st)) = editor (self st).
Proof.
  unfold lint. destruct (isActive st); simpl; [|now split].
  destruct (truthy _); simpl; [now split|].
  destruct (_lint _ _ _ _); now split.
Qed.

(** The batches a call of [lint] adds: none, or one of its kind. *)
Lemma lint_runs st w :
  runs (lint w st) = runs st
  \/ runs (lint w st) = runs st ++ [mkRun w (invokedBy st w)].
Proof.
  unfold lint, invokedBy. destruct (isActive st); simpl; [|now left].
  destruct (truthy _); simpl; [now left|].
  destruct (_lint _ _ _ _) eqn:E; simpl; [now left|now right].
Qed.

Lemma fire_linter st ev : linter (fire ev st) = linter st.
Proof.
  unfold fire. destruct (live _ _); [|reflexivity].
  destruct ev; simpl; [apply lint_linter|reflexivity|].
  unfold onDidStopChanging. destruct (lintOnTheFly (linter st));
    [apply lint_linter|reflexivity].
Qed.

Lemma fire_runs_toggle_off st ev :
  lintOnTheFly (linter st) = false ->
  exists new, runs (fire ev st) = runs st ++ new
              /\ Forall (fun run => runKind run = false) new.
Proof.
  intros Hoff. unfold fire.
  destruct (live _ _); [|exists []; now rewrite app_nil_r].
  destruct ev; simpl.
  - unfold onDidSave. destruct (lint_runs st false) as [E|E]; rewrite E.
    + exists []. now rewrite app_nil_r.
    + eexists. split; [reflexivity|]. now repeat constructor.
  - exists []. now rewrite app_nil_r.
  - unfold onDidStopChanging. rewrite Hoff. exists []. now rewrite app_nil_r.
Qed.

(** X4: while the global toggle is off, the editor's events start
    save-triggered batches only: whatever sequence of saves, cursor moves
    and stop-changing events the editor raises, every batch it adds is of
    the save kind, and the toggle is still off. *)
Theorem editor_events_lint_on_save_only_when_toggle_off
    (evs : list EditorEvent) st :
  lintOnTheFly (linter st) = false ->
  let st' := acts validateResults (map Fire evs) st in
  lintOnTheFly (linter st') = false
  /\ exists new, runs st' = runs st ++ new
                 /\ Forall (fun run => runKind run = false) new.
Proof.
  revert st. induction evs as [|ev evs IH]; intros st Hoff; cbv zeta.
  - split; [exact Hoff|]. exists []. now rewrite app_nil_r.
  - change (acts validateResults (map Fire (ev :: evs)) st)
      with (acts validateResults (map Fire evs) (fire ev st)).
    assert (Hoff' : lintOnTheFly (linter (fire ev st)) = false)
      by (now rewrite fire_linter).
    destruct (IH _ Hoff') as (Hfin & new2 & Hnew2 & Hall2).
    destruct (fire_runs_toggle_off st ev Hoff) as (new1 & Hnew1 & Hall1).
    split; [exact Hfin|]. exists (new1 ++ new2).
    split; [|now apply Forall_app].
    rewrite Hnew2, Hnew1. now rewrite <- app_assoc.
Qed.

(** *** Deleting an analyzer's messages *)

(** X5: [deleteMessages] removes the session's entry of that analyzer and
    no other; it does not take a task of the analyzer out of its batch, so
    when such a task settles afterwards the entry is written again. *)
Theorem deleted_messages_return_on_settlement st r l o run :
  runs st !! r = Some run -> In l (waiting run) ->
  let st' := act validateResults st (DeleteMessages l) in
  getMessages (self st') !! l = None
  /\ (forall l', l' <> l ->
        getMessages (self st') !! l' = getMessages (self st) !! l')
  /\ runs st' = runs st
  /\ stored l (settle validateResults r l o st')
     = Some (results validateResults o).
Proof.
  intros Hrun Hwait. cbv zeta. simpl. split; [|split; [|split]].
  - apply lookup_delete_eq.
  - intros l' Hne. now apply lookup_delete_ne.
  - reflexivity.
  - now apply (settle_stored validateResults _ r l o run).
Qed.

(** *** The order of settlements *)

Lemma removeFirst_comm l1 l2 (ws : list LinterRef) :
  removeFirst l1 (removeFirst l2 ws) = removeFirst l2 (removeFirst l1 ws).
Proof.
  induction ws as [|x rest IH]; simpl; [reflexivity|].
  destruct (Pos.eqb x l2) eqn:E2, (Pos.eqb x l1) eqn:E1; simpl;
    rewrite ?E1, ?E2; try reflexivity.
  - apply Pos.eqb_eq in E1, E2. congruence.
  - now rewrite IH.
Qed.

Lemma removeFirst_keeps l1 l2 (ws : list LinterRef) :
  l2 <> l1 -> In l2 ws -> In l2 (removeFirst l1 ws).
Proof.
  intros Hne. induction ws as [|x rest IH]; simpl; [tauto|].
  destruct (Pos.eqb_spec x l1) as [E|N]; simpl.
  - intros [H|H]; [congruence|exact H].
  - intros [H|H]; [now left|right; now apply IH].
Qed.

Lemma settle_props st r l o run :
  runs st !! r = Some run -> In l (waiting run) ->
  props (self (settle validateResults r l o st)) =
    match removeFirst l (waiting run) with
    | [] => <[lockKey (runKind run) := false]> (props (self st))
    | _ :: _ => props (self st)
    end.
Proof.
  intros Hrun Hwait. rewrite (settle_unfold validateResults st r l o run Hrun Hwait).
  cbv zeta.
  pose proof (deliver_locks (log (notification validateResults o) st) l
                (results validateResults o)) as (_ & _ & H3).
  destruct (removeFirst l (waiting run)); simpl; now rewrite H3.
Qed.

Lemma settle_twice st r1 l1 o1 run1 r2 l2 o2 run2 :
  runs st !! r1 = Some run1 -> In l1 (waiting run1) ->
  runs (settle validateResults r1 l1 o1 st) !! r2 = Some run2 ->
  In l2 (waiting run2) ->
  let a := settle validateResults r2 l2 o2 (settle validateResults r1 l1 o1 st) in
  _messages (self a)
    = writeSession validateResults st l2 o2 (writeSession validateResults st l1 o1 (_messages (self st)))
  /\ messagesProject (linter a)
     = writeProject validateResults st l2 o2 (writeProject validateResults st l1 o1 (messagesProject (linter st)))
  /\ runs a = <[r2 := leave run2 l2]> (<[r1 := leave run1 l1]> (runs st))
  /\ props (self a) = release run2 l2 (release run1 l1 (props (self st))).
Proof.
  intros Hrun1 Hin1 Hrun2 Hin2. cbv zeta.
  pose proof (settle_static validateResults st r1 l1 o1 run1 Hrun1 Hin1)
    as (Hprov0 & _).
  assert (Hprov : forall l,
             provider (linter (settle validateResults r1 l1 o1 st)) l
             = provider (linter st) l)
    by (intros l; exact (f_equal (fun f => f l) Hprov0)).
  split; [|split; [|split]].
  - rewrite (settle_messages validateResults _ r2 l2 o2 run2 Hrun2 Hin2).
    rewrite (settle_messages validateResults st r1 l1 o1 run1 Hrun1 Hin1).
    unfold writeSession. now rewrite Hprov.
  - rewrite (settle_linter validateResults _ r2 l2 o2 run2 Hrun2 Hin2).
    rewrite Hprov.
    rewrite (settle_linter validateResults st r1 l1 o1 run1 Hrun1 Hin1).
    unfold writeProject.
    destruct (String.eqb (scope (provider (linter st) l2)) "project"),
      (String.eqb (scope (provider (linter st) l1)) "project"); reflexivity.
  - rewrite (settle_runs validateResults _ r2 l2 o2 run2 Hrun2 Hin2).
    now rewrite (settle_runs validateResults st r1 l1 o1 run1 Hrun1 Hin1).
  - rewrite (settle_props _ r2 l2 o2 run2 Hrun2 Hin2).
    now rewrite (settle_props st r1 l1 o1 run1 Hrun1 Hin1).
Qed.

Lemma writeSession_comm st l1 o1 l2 o2 (m : gmap LinterRef (list Message)) :
  l1 <> l2 ->
  writeSession validateResults st l2 o2 (writeSession validateResults st l1 o1 m)
  = writeSession validateResults st l1 o1 (writeSession validateResults st l2 o2 m).
Proof.
  intros Hne. unfold writeSession.
  destruct (String.eqb _ _), (String.eqb _ _); try reflexivity.
  now apply insert_insert_ne.
Qed.

Lemma writeProject_comm st l1 o1 l2 o2 (m : gmap LinterRef (list Message)) :
  l1 <> l2 ->
  writeProject validateResults st l2 o2 (writeProject validateResults st l1 o1 m)
  = writeProject validateResults st l1 o1 (writeProject validateResults st l2 o2 m).
Proof.
  intros Hne. unfold writeProject.
  destruct (String.eqb _ _), (String.eqb _ _); try reflexivity.
  now apply insert_insert_ne.
Qed.

Lemma release_comm run1 l1 run2 l2 (p : gmap string bool) :
  release run2 l2 (release run1 l1 p) = release run1 l1 (release run2 l2 p).
Proof.
  unfold release.
  destruct (removeFirst l2 (waiting run2)), (removeFirst l1 (waiting run1));
    try reflexivity.
  destruct (decide (lockKey (runKind run2) = lockKey (runKind run1))) as [E|E].
  - now rewrite E.
  - now apply insert_insert_ne.
Qed.

Lemma release_waiting run l l' (p : gmap string bool) :
  l' <> l -> In l' (waiting run) -> release run l p = p.
Proof.
  intros Hne Hin. unfold release.
  pose proof (removeFirst_keeps l l' (waiting run) Hne Hin) as H.
  destruct (removeFirst l (waiting run)); [destruct H|reflexivity].
Qed.

(** X6: two tasks of different analyzers, of one batch or of two, may
    settle in either order: the session's map, the project's map, the
    batches and the locks end up the same.  Only the order of the recorded
    events depends on it. *)
Theorem settlements_of_different_analyzers_commute
    st r1 l1 o1 run1 r2 l2 o2 run2 :
  runs st !! r1 = Some run1 -> In l1 (waiting run1) ->
  runs st !! r2 = Some run2 -> In l2 (waiting run2) ->
  l1 <> l2 ->
  let a := settle validateResults r2 l2 o2 (settle validateResults r1 l1 o1 st) in
  let b := settle validateResults r1 l1 o1 (settle validateResults r2 l2 o2 st) in
  _messages (self a) = _messages (self b)
  /\ messagesProject (linter a) = messagesProject (linter b)
  /\ runs a = runs b
  /\ props (self a) = props (self b).
Proof.
  intros Hrun1 Hin1 Hrun2 Hin2 Hne. cbv zeta.
  assert (Hne' : l2 <> l1) by congruence.
  destruct (decide (r1 = r2)) as [E|Hr].
  - subst r2. rewrite Hrun1 in Hrun2. injection Hrun2 as <-.
    pose proof (settle_lookup validateResults st r1 l1 o1 run1 Hrun1 Hin1) as L1.
    pose proof (settle_lookup validateResults st r1 l2 o2 run1 Hrun1 Hin2) as L2.
    destruct (settle_twice st r1 l1 o1 run1 r1 l2 o2 _ Hrun1 Hin1 L1
                (removeFirst_keeps l1 l2 _ Hne' Hin2)) as (A1 & A2 & A3 & A4).
    destruct (settle_twice st r1 l2 o2 run1 r1 l1 o1 _ Hrun1 Hin2 L2
                (removeFirst_keeps l2 l1 _ Hne Hin1)) as (B1 & B2 & B3 & B4).
    rewrite A1, A2, A3, A4, B1, B2, B3, B4.
    split; [now apply writeSession_comm|].
    split; [now apply writeProject_comm|]. split.
    + rewrite !list_insert_insert_eq. unfold leave. simpl.
      now rewrite removeFirst_comm.
    + rewrite (release_waiting run1 l1 l2) by assumption.
      rewrite (release_waiting run1 l2 l1) by assumption.
      unfold release. simpl. now rewrite removeFirst_comm.
  - assert (L1 : runs (settle validateResults r1 l1 o1 st) !! r2 = Some run2).
    { rewrite (settle_runs validateResults st r1 l1 o1 run1 Hrun1 Hin1).
      now rewrite list_lookup_insert_ne. }
    assert (L2 : runs (settle validateResults r2 l2 o2 st) !! r1 = Some run1).
    { rewrite (settle_runs validateResults st r2 l2 o2 run2 Hrun2 Hin2).
      rewrite list_lookup_insert_ne; [exact Hrun1|congruence]. }
    destruct (settle_twice st r1 l1 o1 run1 r2 l2 o2 run2 Hrun1 Hin1 L1 Hin2)
      as (A1 & A2 & A3 & A4).
    destruct (settle_twice st r2 l2 o2 run2 r1 l1 o1 run1 Hrun2 Hin2 L2 Hin1)
      as (B1 & B2 & B3 & B4).
    rewrite A1, A2, A3, A4, B1, B2, B3, B4.
    split; [now apply writeSession_comm|].
    split; [now apply writeProject_comm|]. split.
    + apply list_insert_insert_ne. congruence.
    + apply release_comm.
Qed.

(** *** Who writes the maps *)

Lemma fire_entries st ev l : entries l (fire ev st) = entries l st.
Proof.
  unfold fire. destruct (live _ _); [|reflexivity].
  destruct ev; simpl; [apply lint_entries|reflexivity|].
  unfold onDidStopChanging. destruct (lintOnTheFly (linter st));
    [apply lint_entries|reflexivity].
Qed.

Lemma act_entries st (a : Action RawResult Message) l :
  isWriter a = false -> entries l (act validateResults st a) = entries l st.
Proof.
  destruct a; simpl; try discriminate; intros _; try reflexivity.
  - apply lint_entries.
  - apply fire_entries.
  - unfold destroy. now destruct (disposeAll _).
Qed.

(** X15: among the session's methods, its editor's events, the
    settlements of its tasks and the host's changes, the two message maps
    change only when a task settles or when [setMessages] or
    [deleteMessages] is called: no call of [lint], no editor event, no
    [destroy], no subscription and no change around the session writes to
    either of them. *)
Theorem only_settlements_write_messages
    (actions : list (Action RawResult Message)) st l :
  forallb (fun a => negb (isWriter a)) actions = true ->
  entries l (acts validateResults actions st) = entries l st.
Proof.
  revert st. induction actions as [|a actions IH]; intros st H; [reflexivity|].
  simpl in H. apply andb_true_iff in H as (Ha & H).
  apply negb_true_iff in Ha.
  change (acts validateResults (a :: actions) st)
    with (acts validateResults actions (act validateResults st a)).
  rewrite (IH _ H). now apply act_entries.
Qed.

(** X16: when tasks of one analyzer wait in two batches, its entry holds
    the results of the task that settled last, whichever batch was
    started first: results of an older run that finishes late replace
    those of a newer one. *)
Theorem later_settlement_wins st r1 r2 l o1 o2 run1 run2 :
  runs st !! r1 = Some run1 -> In l (waiting run1) ->
  runs st !! r2 = Some run2 -> In l (waiting run2) ->
  r1 <> r2 ->
  stored l (settle validateResults r2 l o2 (settle validateResults r1 l o1 st))
    = Some (results validateResults o2)
  /\ stored l (settle validateResults r1 l o1 (settle validateResults r2 l o2 st))
     = Some (results validateResults o1).
Proof.
  intros Hrun1 Hin1 Hrun2 Hin2 Hne. split.
  - apply (settle_stored validateResults _ r2 l o2 run2); [|exact Hin2].
    rewrite (settle_runs validateResults st r1 l o1 run1 Hrun1 Hin1).
    now rewrite list_lookup_insert_ne.
  - apply (settle_stored validateResults _ r1 l o1 run1); [|exact Hin1].
    rewrite (settle_runs validateResults st r2 l o2 run2 Hrun2 Hin2).
    rewrite list_lookup_insert_ne; [exact Hrun1|congruence].
Qed.

End Facts.

End LifecycleFacts.

(** ** Whole lives of an ES6 session *)

Module SessionLifeFacts.

Import EditorLinterES6 SessionLife.

Implicit Types (s : Session) (m : MessageRef) (es : list Event).

(** *** Messages and their markers *)

Lemma dropMessage_absent m (ms : list MessageRef) :
  ~ In m ms -> dropMessage m ms = ms.
Proof.
  unfold dropMessage. induction ms as [|x rest IH]; simpl; [reflexivity|].
  intros H. destruct (Pos.eqb_spec x m) as [E|E]; simpl.
  - destruct H. now left.
  - rewrite IH; [reflexivity|tauto].
Qed.

Lemma dropMessage_last m (ms : list MessageRef) :
  ~ In m ms -> dropMessage m (ms ++ [m]) = ms.
Proof.
  intros H. unfold dropMessage. rewrite List.filter_app. simpl.
  rewrite Pos.eqb_refl. simpl. rewrite app_nil_r. now apply dropMessage_absent.
Qed.

Lemma hasMessage_In m (ms : list MessageRef) : hasMessage m ms = true <-> In m ms.
Proof.
  unfold hasMessage. rewrite existsb_exists. split.
  - intros (x & Hx & E). apply Pos.eqb_eq in E. now subst.
  - intros H. exists m. split; [exact H|apply Pos.eqb_refl].
Qed.

Lemma hasMessage_false m (ms : list MessageRef) :
  hasMessage m ms = false <-> ~ In m ms.
Proof. rewrite <- hasMessage_In. destruct (hasMessage m ms); split; congruence. Qed.

(** Subscribers' callbacks are called in turn and leave the session alone. *)
Lemma callbacks_run event m (hs : list Handler) : forall s es,
  Forall (fun h => isCallback h = true) hs ->
  fold_left (fun acc h =>
               let '(s', es') := runHandler event m h (fst acc) in
               (s', snd acc ++ es')) hs (s, es)
  = (s, es ++ map (Called event) hs).
Proof.
  induction hs as [|h hs IH]; intros s es Hall; simpl.
  - now rewrite app_nil_r.
  - inversion Hall as [|? ? Hh Hrest]; subst.
    destruct h as [id|name]; [|discriminate]. simpl.
    rewrite IH by exact Hrest. now rewrite <- app_assoc.
Qed.

Lemma constructor_wired cfg e past s es :
  constructor cfg (VTextEditor e) past = (inr s, es) -> wired s.
Proof.
  unfold constructor, handleGutter. simpl.
  destruct (cfgGutterEnabled cfg); simpl; intros H; injection H as <- _;
    (split; [reflexivity|]); exists [], []; repeat split; constructor.
Qed.

(** *** Sequences of steps *)

Lemma steps_acc (l : list Step) : forall s es,
  fold_left (fun acc a => let '(s', es') := step (fst acc) a in (s', snd acc ++ es'))
    l (s, es)
  = (fst (steps l s), es ++ snd (steps l s)).
Proof.
  unfold steps. induction l as [|a l IH]; intros s es; simpl.
  - now rewrite app_nil_r.
  - destruct (step s a) as [s1 es1]. simpl.
    rewrite (IH s1 (es ++ es1)), (IH s1 es1). simpl. now rewrite <- app_assoc.
Qed.

Lemma steps_cons a l s :
  steps (a :: l) s =
    (fst (steps l (fst (step s a))), snd (step s a) ++ snd (steps l (fst (step s a)))).
Proof.
  unfold steps at 1. simpl. destruct (step s a) as [s1 es1]. simpl.
  apply steps_acc.
Qed.

Lemma steps_app l1 l2 s :
  steps (l1 ++ l2) s =
    (fst (steps l2 (fst (steps l1 s))),
     snd (steps l1 s) ++ snd (steps l2 (fst (steps l1 s)))).
Proof.
  revert s. induction l1 as [|a l1 IH]; intros s.
  - change (steps [] s) with (s, @nil Event). simpl. now destruct (steps l2 s).
  - simpl. rewrite !steps_cons, IH. simpl. now rewrite <- app_assoc.
Qed.

(** *** The gutter *)

Lemma gutterBalance_app es1 es2 :
  gutterBalance (es1 ++ es2) = (gutterBalance es1 + gutterBalance es2)%Z.
Proof. induction es1 as [|e es1 IH]; simpl; [reflexivity|]. rewrite IH. lia. Qed.

Lemma gutterBalance_quiet es :
  Forall (fun e => gutterChange e = 0%Z) es -> gutterBalance es = 0%Z.
Proof. induction 1 as [|e es He _ IH]; simpl; [reflexivity|]. lia. Qed.

Lemma emit_quiet event em : Forall (fun e => gutterChange e = 0%Z) (emit event em).
Proof.
  unfold emit. destruct (emitterDisposed em); [constructor|].
  apply List.Forall_forall. intros x Hx.
  apply in_map_iff in Hx as (h & <- & _). reflexivity.
Qed.

Lemma disposeAll_quiet c : Forall (fun e => gutterChange e = 0%Z) (fst (disposeAll c)).
Proof.
  unfold disposeAll. destruct (compositeDisposed c); simpl; [constructor|].
  apply List.Forall_forall. intros x Hx.
  apply in_map_iff in Hx as (h & <- & _). reflexivity.
Qed.

Lemma runHandler_gutter event m h s :
  gutter (fst (runHandler event m h s)) = gutter s
  /\ Forall (fun e => gutterChange e = 0%Z) (snd (runHandler event m h s)).
Proof.
  destruct h as [id|name]; simpl; [split; [reflexivity|now repeat constructor]|].
  destruct (String.eqb name "mark-on-add").
  - destruct (underlineIssues s); simpl; split; try reflexivity;
      now repeat constructor.
  - simpl. split; [reflexivity|]. apply Forall_app. split.
    + destruct (hasMessage m (editorMarkers s)); now repeat constructor.
    + destruct (hasMessage m (gutterMarkers s)); now repeat constructor.
Qed.

Lemma handlers_gutter event m (hs : list Handler) : forall s es,
  Forall (fun e => gutterChange e = 0%Z) es ->
  let r := fold_left (fun acc h =>
                        let '(s', es') := runHandler event m h (fst acc) in
                        (s', snd acc ++ es')) hs (s, es) in
  gutter (fst r) = gutter s /\ Forall (fun e => gutterChange e = 0%Z) (snd r).
Proof.
  induction hs as [|h hs IH]; intros s es Hes; cbv zeta; simpl; [now split|].
  destruct (runHandler_gutter event m h s) as (Hg & Hq).
  destruct (runHandler event m h s) as [s1 es1]. simpl in *.
  destruct (IH s1 (es ++ es1)) as (Hg' & Hq').
  - apply Forall_app. now split.
  - split; [congruence|exact Hq'].
Qed.

Lemma emitMessage_gutter event m s :
  gutter (fst (emitMessage event m s)) = gutter s
  /\ Forall (fun e => gutterChange e = 0%Z) (snd (emitMessage event m s)).
Proof.
  unfold emitMessage. destruct (emitterDisposed (emitter s));
    [split; [reflexivity|constructor]|].
  apply (handlers_gutter event m _ s []). constructor.
Qed.

Lemma addMessage_gutter m s :
  gutter (fst (addMessage m s)) = gutter s
  /\ gutterBalance (snd (addMessage m s)) = 0%Z.
Proof.
  unfold addMessage. destruct (hasMessage m (messages s)); [now split|].
  destruct (emitMessage_gutter "did-message-add" m
              (withMessages (messages s ++ [m]) s)) as (Hg & Hq).
  destruct (emitMessage _ _ _) as [s1 es1]. simpl in *.
  split; [exact Hg|]. apply gutterBalance_quiet, Forall_app.
  split; [exact Hq|apply emit_quiet].
Qed.

Lemma removeMessage_gutter m s :
  gutter (fst (removeMessage m s)) = gutter s
  /\ gutterBalance (snd (removeMessage m s)) = 0%Z.
Proof.
  unfold removeMessage. destruct (hasMessage m (messages s)); [|now split].
  destruct (emitMessage_gutter "did-message-remove" m
              (withMessages (dropMessage m (messages s)) s)) as (Hg & Hq).
  destruct (emitMessage _ _ _) as [s1 es1]. simpl in *.
  split; [exact Hg|]. apply gutterBalance_quiet, Forall_app.
  split; [exact Hq|apply emit_quiet].
Qed.

Lemma handleGutter_balance cfg s :
  gutterBalance (snd (handleGutter cfg s))
  = (gutters (fst (handleGutter cfg s)) - gutters s)%Z.
Proof.
  unfold handleGutter, removeGutter, addGutter, gutters.
  destruct (gutter s) eqn:E; simpl; destruct (cfgGutterEnabled cfg); simpl;
    rewrite ?E; lia.
Qed.

Lemma destroy_balance s :
  gutters (fst (destroy s)) = 0%Z
  /\ gutterBalance (snd (destroy s)) = (- gutters s)%Z.
Proof.
  destruct s as [e em ms gm edm g subs ui ge].
  unfold destroy, dispose, removeGutter, gutters. simpl.
  pose proof (disposeAll_quiet subs) as Hq.
  destruct g as [z|]; simpl;
    destruct (disposeAll subs) as [es2 subs']; simpl in *;
    (split; [reflexivity|]);
    rewrite gutterBalance_app, (gutterBalance_quiet _ (emit_quiet _ _)); simpl;
    rewrite (gutterBalance_quiet _ Hq); lia.
Qed.

Lemma step_balance s a :
  gutterBalance (snd (step s a)) = (gutters (fst (step s a)) - gutters s)%Z.
Proof.
  destruct a; simpl; unfold whenLive.
  - unfold gutters. simpl. lia.
  - destruct (addMessage_gutter m s) as (Hg & Hb). unfold gutters.
    rewrite Hg, Hb. lia.
  - destruct (removeMessage_gutter m s) as (Hg & Hb). unfold gutters.
    rewrite Hg, Hb. lia.
  - destruct (Lifecycle.live _ _); unfold gutters; simpl; lia.
  - destruct (Lifecycle.live _ _); [|unfold gutters; simpl; lia].
    rewrite handleGutter_balance. unfold gutters. simpl. lia.
  - destruct (Lifecycle.live _ _); [|unfold gutters; simpl; lia].
    apply handleGutter_balance.
  - destruct (Lifecycle.live _ _); [|unfold gutters; simpl; lia].
    destruct (destroy_balance s) as (Hg & Hb). rewrite Hg, Hb. lia.
  - destruct (destroy_balance s) as (Hg & Hb). rewrite Hg, Hb. lia.
Qed.

Lemma steps_balance l : forall s,
  gutterBalance (snd (steps l s)) = (gutters (fst (steps l s)) - gutters s)%Z.
Proof.
  induction l as [|a l IH]; intros s.
  - unfold steps. simpl. lia.
  - rewrite steps_cons. simpl. rewrite gutterBalance_app, IH, step_balance. lia.
Qed.

(** X8: the gutters of a session are added and destroyed in turn.  After
    the constructor and any steps, the gutters added exceed the gutters
    destroyed by one if the session holds a gutter and by none otherwise;
    once the session is destroyed they are equal. *)
Theorem gutters_are_added_and_destroyed_in_turn cfg e (l : list Step) :
  exists s0 es0,
    constructor cfg (VTextEditor e) [] = (inr s0, es0)
    /\ gutterBalance (es0 ++ snd (steps l s0)) = gutters (fst (steps l s0))
    /\ (0 <= gutters (fst (steps l s0)) <= 1)%Z
    /\ gutterBalance (es0 ++ snd (steps (l ++ [Destroy]) s0)) = 0%Z.
Proof.
  assert (H0 : exists s0 es0,
             constructor cfg (VTextEditor e) [] = (inr s0, es0)
             /\ gutterBalance es0 = gutters s0).
  { unfold constructor, handleGutter, addGutter, gutters. simpl.
    destruct (cfgGutterEnabled cfg); simpl; eexists; eexists;
      (split; [reflexivity|]); reflexivity. }
  destruct H0 as (s0 & es0 & Hc & Hb0). exists s0, es0.
  split; [exact Hc|]. split; [|split].
  - rewrite gutterBalance_app, steps_balance, Hb0. lia.
  - unfold gutters. destruct (gutter _); lia.
  - rewrite gutterBalance_app, steps_balance, Hb0, steps_app. simpl.
    unfold steps at 1. simpl.
    destruct (destroy_balance (fst (steps l s0))) as (Hg & _).
    destruct (destroy (fst (steps l s0))) as [s1 es1]. simpl in *. lia.
Qed.

(** *** After [destroy] *)

Lemma destroy_disposed s : disposed (fst (destroy s)).
Proof.
  destruct s as [e em ms gm edm g subs ui ge].
  unfold destroy, dispose, removeGutter, disposed. simpl.
  pose proof (SessionFacts.disposeAll_disposed subs) as Hd.
  destruct g; simpl; destruct (disposeAll subs) as [es2 subs']; simpl in *;
    repeat split; exact Hd.
Qed.

Lemma disposed_not_live d s : disposed s -> Lifecycle.live d (subscriptions s) = false.
Proof. intros (_ & H & _). unfold Lifecycle.live. now rewrite H. Qed.

Lemma disposed_step s a :
  disposed s -> isAfterImmediate a = false ->
  disposed (fst (step s a)) /\ snd (step s a) = [].
Proof.
  intros Hd Ha. pose proof Hd as (He & Hs & Hg).
  destruct a; simpl; try discriminate; unfold whenLive;
    rewrite ?(disposed_not_live _ s Hd); try (split; [exact Hd|reflexivity]).
  - unfold addMessage. destruct (hasMessage m (messages s)); [now split|].
    unfold emitMessage. simpl. rewrite He. simpl. unfold emit. simpl.
    rewrite He. split; [|reflexivity]. repeat split; assumption.
  - unfold removeMessage. destruct (hasMessage m (messages s)); [|now split].
    unfold emitMessage. simpl. rewrite He. simpl. unfold emit. simpl.
    rewrite He. split; [|reflexivity]. repeat split; assumption.
  - split; [apply destroy_disposed|].
    destruct s as [e em ms gm edm g subs ui ge]. simpl in *. subst g.
    unfold destroy, dispose, removeGutter, emit, disposeAll. simpl.
    now rewrite He, Hs.
Qed.

Lemma destroyed_step s1 ms a :
  emitter s1 = disposeEmitter (emitter s1) ->
  compositeDisposed (subscriptions s1) = true ->
  gutter s1 = None ->
  isAfterImmediate a = false ->
  step (withMessages ms s1) a = (withMessages (trackedAfter ms a) s1, []).
Proof.
  intros He Hs Hg Ha.
  destruct s1 as [e [hs ed] ms1 gm edm g [ds cd] ui ge].
  simpl in He, Hs, Hg. injection He as -> ->. subst cd g.
  destruct a; try discriminate; try reflexivity.
  - cbn [step trackedAfter]. unfold addMessage. cbn [messages withMessages].
    now destruct (hasMessage m ms).
  - cbn [step trackedAfter]. unfold removeMessage. cbn [messages withMessages].
    now destruct (hasMessage m ms).
Qed.

Lemma destroy_shape s :
  emitter (fst (destroy s)) = disposeEmitter (emitter (fst (destroy s)))
  /\ compositeDisposed (subscriptions (fst (destroy s))) = true
  /\ gutter (fst (destroy s)) = None
  /\ withMessages [] (fst (destroy s)) = fst (destroy s).
Proof.
  destruct s as [e [hs ed] ms gm edm g [ds cd] ui ge].
  unfold destroy, dispose, removeGutter, disposeAll. simpl.
  destruct g, cd; simpl; repeat split.
Qed.

Lemma destroyed_steps s1 (l : list Step) : forall ms,
  emitter s1 = disposeEmitter (emitter s1) ->
  compositeDisposed (subscriptions s1) = true ->
  gutter s1 = None ->
  forallb (fun a => negb (isAfterImmediate a)) l = true ->
  steps l (withMessages ms s1)
  = (withMessages (fold_left trackedAfter l ms) s1, []).
Proof.
  induction l as [|a l IH]; intros ms He Hs Hg Hl; [reflexivity|].
  simpl in Hl. apply andb_true_iff in Hl as (Ha & Hl).
  apply negb_true_iff in Ha.
  rewrite steps_cons, (destroyed_step s1 ms a He Hs Hg Ha). cbn [fst snd].
  now rewrite (IH _ He Hs Hg Hl).
Qed.

(** X9: a destroyed session is silent but not inert.  Whatever is added
    to it or removed from it afterwards, whichever setting changes, and
    however often it is destroyed again, no handler is called, no marker
    or gutter is touched and no subscription is disposed; the session
    stays as [destroy] left it except for its message set, which
    [addMessage] and [removeMessage] still update and [getMessages] still
    returns.  (The callback queued by the constructor is left aside, see
    X10.) *)
Theorem destroyed_session_is_silent s (l : list Step) :
  forallb (fun a => negb (isAfterImmediate a)) l = true ->
  snd (steps l (fst (destroy s))) = []
  /\ disposed (fst (steps l (fst (destroy s))))
  /\ fst (steps l (fst (destroy s)))
     = withMessages (fold_left trackedAfter l []) (fst (destroy s))
  /\ getMessages (fst (steps l (fst (destroy s))))
     = fold_left trackedAfter l [].
Proof.
  intros Hl. destruct (destroy_shape s) as (He & Hs & Hg & Hm).
  pose proof (destroy_disposed s) as (D1 & D2 & D3).
  rewrite <- Hm at 1 2 3 5.
  rewrite (destroyed_steps _ l [] He Hs Hg Hl). cbn [fst snd].
  split; [reflexivity|]. split; [|split; reflexivity].
  repeat split; assumption.
Qed.

(** X10: the subscription to 'did-stop-changing' is taken in a callback
    queued by the constructor.  If the session is destroyed first, the
    callback still takes the subscription but the disposed composite does
    not keep it, so nothing disposes it later; taken before [destroy], it
    is disposed with the others. *)
Theorem late_subscription_is_not_kept s :
  let d := EditorSub (editor s) "did-stop-changing" in
  (let s1 := fst (destroy s) in
   snd (afterImmediate s1) = [Subscribed d]
   /\ subscriptions (fst (afterImmediate s1)) = subscriptions s1
   /\ snd (destroy (fst (afterImmediate s1))) = [])
  /\ (compositeDisposed (subscriptions s) = false ->
      In (Disposed d) (snd (destroy (fst (afterImmediate s))))).
Proof.
  cbv zeta. split.
  - pose proof (destroy_disposed s) as Hd.
    assert (He : editor (fst (destroy s)) = editor s).
    { destruct s as [e em ms gm edm g subs ui ge].
      unfold destroy, dispose, removeGutter. simpl.
      destruct g; simpl; destruct (disposeAll subs); reflexivity. }
    destruct Hd as (H1 & H2 & H3).
    unfold afterImmediate, subscribe, add. simpl. rewrite H2, He.
    split; [reflexivity|]. split.
    + now destruct (fst (destroy s)).
    + destruct (fst (destroy s)) as [e em ms gm edm g subs ui ge].
      simpl in *. subst g.
      unfold destroy, dispose, removeGutter, emit, disposeAll. simpl.
      now rewrite H1, H2.
  - intros Hlive. destruct s as [e em ms gm edm g subs ui ge]. simpl in Hlive.
    assert (E : snd (destroy (fst (afterImmediate
                                     (mkSession e em ms gm edm g subs ui ge))))
                = emit "did-destroy" em
                  ++ (match g with Some _ => [GutterDestroyed] | None => [] end)
                  ++ map Disposed (disposables subs
                                   ++ [EditorSub e "did-stop-changing"])).
    { unfold afterImmediate, subscribe, add. simpl. rewrite Hlive.
      unfold destroy, dispose, removeGutter, disposeAll. simpl.
      destruct g; reflexivity. }
    rewrite E, !in_app_iff, map_app, in_app_iff. right. right. right. now left.
Qed.

(** X7: on a session wired as the constructor leaves it, adding a message
    that is new to the session and then removing it gives the session
    back.  The addition marks the message (when issues are underlined)
    before the subscribers of 'did-message-add' and of 'did-message-change'
    are called; the removal destroys that marker first; and adding a
    message that is already tracked does nothing and tells nobody. *)
Theorem message_round_trip s m :
  wired s ->
  ~ In m (messages s) -> ~ In m (editorMarkers s) -> ~ In m (gutterMarkers s) ->
  exists onAdd onRemove,
    listeners "did-message-add" (emitter s) = markOnAdd :: onAdd
    /\ listeners "did-message-remove" (emitter s) = unmarkOnRemove :: onRemove
    /\ messages (fst (addMessage m s)) = messages s ++ [m]
    /\ snd (addMessage m s) =
         (if underlineIssues s then [MarkerCreated m] else [])
         ++ map (Called "did-message-add") onAdd
         ++ emit "did-message-change" (emitter s)
    /\ snd (removeMessage m (fst (addMessage m s))) =
         (if underlineIssues s then [MarkerDestroyed m] else [])
         ++ map (Called "did-message-remove") onRemove
         ++ emit "did-message-change" (emitter s)
    /\ fst (removeMessage m (fst (addMessage m s))) = s
    /\ addMessage m (fst (addMessage m s)) = (fst (addMessage m s), []).
Proof.
  intros (Hlive & onAdd & onRemove & HA & HR & FA & FR) Hm He Hg.
  exists onAdd, onRemove. split; [exact HA|]. split; [exact HR|].
  destruct s as [e em ms gm edm g subs ui ge]. simpl in *.
  assert (Hadd : addMessage m (mkSession e em ms gm edm g subs ui ge)
                 = (mkSession e em (ms ++ [m]) gm
                      (if ui then edm ++ [m] else edm) g subs ui ge,
                    (if ui then [MarkerCreated m] else [])
                    ++ map (Called "did-message-add") onAdd
                    ++ emit "did-message-change" em)).
  { unfold addMessage. simpl. apply hasMessage_false in Hm. rewrite Hm.
    unfold emitMessage. simpl. rewrite Hlive, HA. simpl.
    destruct ui; simpl; rewrite callbacks_run by exact FA; simpl.
    - rewrite (dropMessage_absent m edm He). reflexivity.
    - reflexivity. }
  rewrite Hadd. simpl.
  assert (Hin : hasMessage m (ms ++ [m]) = true).
  { apply hasMessage_In, in_or_app. right. now left. }
  assert (Hrem : removeMessage m
                   (mkSession e em (ms ++ [m]) gm
                      (if ui then edm ++ [m] else edm) g subs ui ge)
                 = (mkSession e em ms gm edm g subs ui ge,
                    (if ui then [MarkerDestroyed m] else [])
                    ++ map (Called "did-message-remove") onRemove
                    ++ emit "did-message-change" em)).
  { unfold removeMessage. simpl. rewrite Hin.
    unfold emitMessage. simpl. rewrite Hlive, HR. simpl.
    rewrite (dropMessage_last m ms Hm), (dropMessage_absent m gm Hg).
    apply hasMessage_false in Hg. rewrite Hg.
    destruct ui; simpl; rewrite callbacks_run by exact FR; simpl.
    - rewrite (dropMessage_last m edm He).
      assert (H1 : hasMessage m (edm ++ [m]) = true).
      { apply hasMessage_In, in_or_app. right. now left. }
      rewrite H1. unfold withMarkers. simpl. reflexivity.
    - rewrite (dropMessage_absent m edm He).
      apply hasMessage_false in He. rewrite He. reflexivity. }
  rewrite Hrem. simpl.
  repeat split.
  unfold addMessage. simpl. now rewrite Hin.
Qed.

(** *** The markers at the end of a session *)

Lemma destroy_markers s :
  editorMarkers (fst (destroy s)) = editorMarkers s
  /\ gutterMarkers (fst (destroy s)) = gutterMarkers s
  /\ forall m, ~ In (MarkerDestroyed m) (snd (destroy s)).
Proof.
  destruct s as [e [hs ed] ms gm edm g [ds cd] ui ge].
  unfold destroy, dispose, removeGutter, emit, disposeAll. simpl.
  destruct g, cd, ed; simpl.
  all: split; [reflexivity|]; split; [reflexivity|]; intros m H.
  all: repeat match type of H with
              | In _ (_ ++ _) => apply in_app_or in H as [H|H]
              | In _ (_ :: _) => apply in_inv in H as [H|H]; [discriminate H|]
              | In _ [] => destruct H
              | False => destruct H
              | _ = _ \/ _ => destruct H as [H|H]; [discriminate H|]
              | In _ (map _ _) =>
                  apply in_map_iff in H as (? & H & _); discriminate H
              end.
Qed.

Lemma disposed_step_markers s a :
  disposed s ->
  disposed (fst (step s a))
  /\ editorMarkers (fst (step s a)) = editorMarkers s
  /\ gutterMarkers (fst (step s a)) = gutterMarkers s
  /\ forall m, ~ In (MarkerDestroyed m) (snd (step s a)).
Proof.
  intros Hd. pose proof Hd as (He & Hs & Hg).
  destruct a; simpl; unfold whenLive;
    rewrite ?(disposed_not_live _ s Hd);
    try (split; [exact Hd|]; split; [reflexivity|]; split; [reflexivity|];
         intros ? []).
  - unfold afterImmediate, subscribe, add. rewrite Hs.
    split; [|split; [reflexivity|split; [reflexivity|]]].
    + destruct s; exact Hd.
    + intros m [H|[]]. discriminate.
  - unfold addMessage. destruct (hasMessage m (messages s)).
    + split; [exact Hd|]. split; [reflexivity|]. split; [reflexivity|].
      intros ? [].
    + unfold emitMessage. simpl. rewrite He. simpl. unfold emit. simpl.
      rewrite He. split; [repeat split; assumption|].
      split; [reflexivity|]. split; [reflexivity|]. intros ? [].
  - unfold removeMessage. destruct (hasMessage m (messages s)).
    + unfold emitMessage. simpl. rewrite He. simpl. unfold emit. simpl.
      rewrite He. split; [repeat split; assumption|].
      split; [reflexivity|]. split; [reflexivity|]. intros ? [].
    + split; [exact Hd|]. split; [reflexivity|]. split; [reflexivity|].
      intros ? [].
  - split; [apply destroy_disposed|]. apply destroy_markers.
Qed.

(** X19: [dispose] tests [size] on its two WeakMaps, which have none, so
    it never walks them: [destroy] destroys no marker and leaves both
    tables as they are, and nothing that reaches the session afterwards
    destroys one either.  The markers of the messages still tracked at
    [destroy] stay in the editor. *)
Theorem destroy_leaves_the_markers s (l : list Step) :
  let r := steps (Destroy :: l) s in
  editorMarkers (fst r) = editorMarkers s
  /\ gutterMarkers (fst r) = gutterMarkers s
  /\ forall m, ~ In (MarkerDestroyed m) (snd r).
Proof.
  cbv zeta. rewrite steps_cons. cbn [step].
  destruct (destroy_markers s) as (E1 & E2 & E3).
  pose proof (destroy_disposed s) as Hd.
  revert E1 E2 Hd. generalize (fst (destroy s)) as s1.
  intros s1 E1 E2 Hd. cbn [fst snd].
  assert (K : editorMarkers (fst (steps l s1)) = editorMarkers s1
              /\ gutterMarkers (fst (steps l s1)) = gutterMarkers s1
              /\ forall m, ~ In (MarkerDestroyed m) (snd (steps l s1))).
  { clear E1 E2 E3. revert s1 Hd.
    induction l as [|a l IH]; intros s1 Hd.
    - split; [reflexivity|]. split; [reflexivity|]. intros m [].
    - destruct (disposed_step_markers s1 a Hd) as (Hd1 & M1 & M2 & M3).
      destruct (IH _ Hd1) as (N1 & N2 & N3).
      rewrite steps_cons. cbn [fst snd]. rewrite N1, N2, M1, M2.
      split; [reflexivity|]. split; [reflexivity|].
      intros m H. apply in_app_or in H as [H|H];
        [exact (M3 m H)|exact (N3 m H)]. }
  destruct K as (K1 & K2 & K3). rewrite K1, K2, E1, E2.
  split; [reflexivity|]. split; [reflexivity|].
  intros m H. apply in_app_or in H as [H|H]; [exact (E3 m H)|exact (K3 m H)].
Qed.

End SessionLifeFacts.

(** ** The panel's DOM and its visibility *)

Module PanelDomFacts.

Import BottomPanel PanelDom PanelFacts.

Section Facts.

Variable visible : string -> MessageRef -> bool.

Implicit Types (p : Panel) (m : MessageRef)
  (ms : list (MessageRef * Element)).

(** *** [refresh] *)

(** X11: [refresh] counts from scratch.  Whatever the counter was, after
    the call it is the number of tracked messages visible under the scope
    the panel then has: the scope given, or the old one when none or the
    empty string is given.  The tracked messages and the children stay. *)
Theorem refresh_recounts sc' p :
  let p' := refresh visible sc' p in
  visibleMessages p' = visibleNow visible p'
  /\ scope p' = match sc' with
                | Some s => if String.eqb s "" then scope p else s
                | None => scope p
                end
  /\ keys (messages p') = keys (messages p)
  /\ children p' = children p.
Proof.
  cbv zeta. rewrite refresh_unfold. cbv zeta. unfold updateVisibility. simpl.
  split; [|split; [|split]].
  - unfold visibleNow, counted. simpl. do 2 f_equal.
    apply List.filter_ext_in. intros x Hx.
    apply in_map_iff in Hx as (y & <- & _). reflexivity.
  - unfold given. destruct sc' as [s|]; [|reflexivity].
    destruct (String.eqb s ""); reflexivity.
  - apply keys_restatus.
  - reflexivity.
Qed.

(** *** Removing what is not tracked *)

Lemma removeOne_untracked p m : ~ In m (keys (messages p)) -> removeOne p m = p.
Proof. intros H. apply get_None in H. unfold removeOne. now rewrite H. Qed.

Lemma removeMessages_untracked removed : forall p,
  (forall m, In m removed -> ~ In m (keys (messages p))) ->
  removeMessages removed p = p.
Proof.
  induction removed as [|m removed IH]; intros p H; [reflexivity|].
  rewrite removeMessages_cons, removeOne_untracked by (apply H; now left).
  apply IH. intros m' Hm'. apply H. now right.
Qed.

(** X12: [removeMessages] skips what the panel does not track: a list of
    untracked messages changes nothing (no DOM operation, no decrement),
    so removing the same messages a second time changes nothing either. *)
Theorem removing_untracked_messages_is_a_noop removed p :
  ((forall m, In m removed -> has m (messages p) = false) ->
   removeMessages removed p = p)
  /\ removeMessages removed (removeMessages removed p) = removeMessages removed p.
Proof.
  split.
  - intros H. apply removeMessages_untracked.
    intros m Hm. apply has_false_keys. now apply H.
  - apply removeMessages_untracked. intros m Hm.
    rewrite removeMessages_keys. tauto.
Qed.

(** *** The children of the panel *)

Lemma elementIds_In ms m el : In (m, el) ms -> In (elementId el) (elementIds ms).
Proof.
  intros H. unfold elementIds. apply in_map_iff. now exists (m, el).
Qed.

Lemma elementIds_delete m ms : forall el,
  List.NoDup (keys ms) -> List.NoDup (elementIds ms) -> get m ms = Some el ->
  elementIds (delete m ms)
  = List.filter (fun c => negb (Nat.eqb c (elementId el))) (elementIds ms).
Proof.
  induction ms as [|[k e] rest IH]; intros el Hk Hi Hget; [discriminate|].
  simpl in Hk, Hi. apply List.NoDup_cons_iff in Hk as (Hk & Hks).
  apply List.NoDup_cons_iff in Hi as (Hi & His).
  unfold get in Hget. unfold delete. simpl in *.
  destruct (Pos.eqb_spec k m) as [E|E]; simpl in *.
  - injection Hget as <-. subst k. rewrite Nat.eqb_refl. simpl.
    fold (delete m rest). rewrite delete_absent by exact Hk.
    symmetry. apply List.forallb_filter_id. apply forallb_forall.
    intros c Hc. apply negb_true_iff, Nat.eqb_neq. intros ->. exact (Hi Hc).
  - fold (delete m rest). fold (get m rest) in Hget.
    assert (Hne : elementId e <> elementId el).
    { intros Eq. apply Hi. rewrite Eq.
      apply (elementIds_In rest m). now apply get_Some. }
    apply Nat.eqb_neq in Hne. rewrite Hne. simpl. f_equal.
    now apply IH.
Qed.

Lemma tidy_removeOne p m : tidy p -> tidy (removeOne p m).
Proof.
  intros (Hc & Hk & Hn & Hlt). unfold removeOne.
  destruct (get m (messages p)) as [el|] eqn:E; [|now repeat split].
  repeat split; simpl.
  - rewrite Hc. symmetry. apply elementIds_delete; [exact Hk| |exact E].
    now rewrite <- Hc.
  - now apply NoDup_delete.
  - now apply List.NoDup_filter.
  - apply List.Forall_forall. intros c Hc'.
    apply List.filter_In in Hc' as (Hc' & _).
    revert c Hc'. now apply List.Forall_forall.
Qed.

Lemma tidy_removeMessages removed : forall p, tidy p -> tidy (removeMessages removed p).
Proof.
  induction removed as [|m removed IH]; intros p Hp; [exact Hp|].
  rewrite removeMessages_cons. now apply IH, tidy_removeOne.
Qed.

Lemma tidy_addOne p m :
  tidy p -> ~ In m (keys (messages p)) -> tidy (addOne visible p m).
Proof.
  intros (Hc & Hk & Hn & Hlt) Hm. unfold addOne. repeat split; simpl.
  - rewrite set_fresh by exact Hm. unfold elementIds. rewrite map_app. simpl.
    now rewrite Hc.
  - rewrite set_fresh by exact Hm. unfold keys. rewrite map_app. simpl.
    apply List.NoDup_app; [exact Hk|repeat constructor; intros []|].
    intros x Hx [E|[]]. subst x. exact (Hm Hx).
  - apply List.NoDup_app; [exact Hn|repeat constructor; intros []|].
    intros x Hx [E|[]]. subst x.
    apply (proj1 (List.Forall_forall _ _) Hlt) in Hx. lia.
  - apply Forall_app. split; [|repeat constructor].
    apply List.Forall_forall. intros c Hc'.
    apply (proj1 (List.Forall_forall _ _) Hlt) in Hc'. lia.
Qed.

Lemma tidy_addMessages added : forall p,
  tidy p -> List.NoDup added ->
  (forall m, In m added -> ~ In m (keys (messages p))) ->
  tidy (addMessages visible added p).
Proof.
  induction added as [|m added IH]; intros p Hp Hnd Hfresh; [exact Hp|].
  rewrite addMessages_cons. apply List.NoDup_cons_iff in Hnd as (Hm & Hnd).
  apply IH; [|exact Hnd|].
  - apply tidy_addOne; [exact Hp|]. apply Hfresh. now left.
  - intros m' Hm'. rewrite addOne_keys. intros [H|H].
    + apply (Hfresh m'); [now right|exact H].
    + subst m'. exact (Hm Hm').
Qed.

Lemma tidy_refresh sc' p : tidy p -> tidy (refresh visible sc' p).
Proof.
  intros (Hc & Hk & Hn & Hlt). rewrite refresh_unfold. cbv zeta.
  unfold updateVisibility. repeat split; simpl.
  - rewrite Hc. unfold elementIds. rewrite map_map. reflexivity.
  - now rewrite keys_restatus.
  - exact Hn.
  - exact Hlt.
Qed.

Lemma tidy_call p c :
  tidy p -> freshCall p c = true -> tidy (call visible p c).
Proof.
  intros Hp Hc. destruct c as [added removed|removed|sc']; simpl.
  - simpl in Hc. apply andb_true_iff in Hc as (Hd & Hf).
    rewrite setMessages_unfold.
    assert (H : tidy (addMessages visible added (removeMessages removed p))).
    { apply tidy_addMessages.
      + now apply tidy_removeMessages.
      + now apply distinct_NoDup.
      + intros m Hm. rewrite forallb_forall in Hf.
        apply has_false_keys, negb_true_iff. now apply Hf. }
    exact H.
  - now apply tidy_removeMessages.
  - now apply tidy_refresh.
Qed.

Lemma tidy_calls cs : forall p,
  tidy p -> freshCalls visible cs p = true -> tidy (calls visible cs p).
Proof.
  induction cs as [|c cs IH]; intros p Hp Hcs; [exact Hp|].
  simpl in Hcs. apply andb_true_iff in Hcs as (Hc & Hcs).
  simpl. apply IH; [now apply tidy_call|exact Hcs].
Qed.

(** X13: as long as every [setMessages] hands over new messages, the
    children of [messagesElement] are the elements of the tracked
    messages, in the order of the Map and each once: no element of a
    removed message stays behind and no element is shown twice. *)
Theorem children_are_the_tracked_elements sc cv pv cs :
  freshCalls visible cs (constructor sc cv pv) = true ->
  let p := calls visible cs (constructor sc cv pv) in
  children p = elementIds (messages p)
  /\ List.NoDup (children p)
  /\ length (children p) = length (messages p).
Proof.
  intros Hcs. cbv zeta.
  assert (H : tidy (calls visible cs (constructor sc cv pv))).
  { apply tidy_calls; [|exact Hcs]. repeat split; constructor. }
  destruct H as (Hc & _ & Hn & _). split; [exact Hc|]. split; [exact Hn|].
  rewrite Hc. unfold elementIds. apply length_map.
Qed.

(** *** When the panel shows *)

Lemma removeMessages_settings removed : forall p,
  configVisibility (removeMessages removed p) = configVisibility p
  /\ paneVisibility (removeMessages removed p) = paneVisibility p.
Proof.
  induction removed as [|m removed IH]; intros p; [now split|].
  rewrite removeMessages_cons. destruct (IH (removeOne p m)) as (H1 & H2).
  rewrite H1, H2. unfold removeOne. now destruct (get m (messages p)).
Qed.

Lemma addMessages_settings added : forall p,
  configVisibility (addMessages visible added p) = configVisibility p
  /\ paneVisibility (addMessages visible added p) = paneVisibility p.
Proof.
  induction added as [|m added IH]; intros p; [now split|].
  rewrite addMessages_cons. destruct (IH (addOne visible p m)) as (H1 & H2).
  rewrite H1, H2. now split.
Qed.

Lemma call_settings p c :
  configVisibility (call visible p c) = configVisibility p
  /\ paneVisibility (call visible p c) = paneVisibility p.
Proof.
  destruct c as [added removed|removed|sc']; cbn [call].
  - rewrite setMessages_unfold. unfold updateVisibility. simpl.
    destruct (addMessages_settings added (removeMessages removed p)) as (H1 & H2).
    destruct (removeMessages_settings removed p) as (H3 & H4).
    rewrite H1, H2, H3, H4. now split.
  - apply removeMessages_settings.
  - rewrite refresh_unfold. now split.
Qed.



Lemma freshCalls_app cs1 cs2 : forall p,
  freshCalls visible (cs1 ++ cs2) p
  = freshCalls visible cs1 p && freshCalls visible cs2 (calls visible cs1 p).
Proof.
  induction cs1 as [|c cs1 IH]; intros p; [reflexivity|].
  simpl. rewrite IH. now rewrite andb_assoc.
Qed.



End Facts.

End PanelDomFacts.

(** ** Rejections that escape the handler *)

Module RejectionFacts.

Import EditorLinter Rejection SchedulerFacts.

Section Facts.

Context {RawResult Message : Type}.
Variable validateResults : RawResult -> Error + list Message.

Implicit Types (bs : Batches Message) (st : State Message) (r : nat)
  (l : LinterRef) (c : Completion RawResult) (o : Outcome RawResult)
  (t : Thrown).

(** *** The chain against [caught] *)

Lemma chain_handled c o :
  handled c = Some o ->
  chain validateResults c
  = Some (notification validateResults o, results validateResults o).
Proof.
  unfold notification, results, caught.
  destruct c as [raw|[| |e]]; simpl; intros H; inversion H; subst; simpl;
    [|reflexivity].
  now destruct (validateResults raw).
Qed.

Lemma chain_nullish t :
  t = ThrownUndefined \/ t = ThrownNull ->
  chain validateResults (Threw t) = None.
Proof. now intros [->| ->]. Qed.

Lemma chain_events c es ms :
  chain validateResults c = Some (es, ms) -> lockWrites es = 0.
Proof.
  destruct c as [raw|[| |e]]; simpl; try discriminate.
  - destruct (validateResults raw); simpl; intros H; now inversion H.
  - intros H. now inversion H.
Qed.


(** In a rejected batch a handled completion still delivers; only the
    release is missing. *)
Lemma finish_like_settle bs r l c o :
  handled c = Some o ->
  linter (state (finish validateResults r l c bs))
  = linter (settle validateResults r l o (state bs))
  /\ _messages (self (state (finish validateResults r l c bs)))
     = _messages (self (settle validateResults r l o (state bs)))
  /\ runs (state (finish validateResults r l c bs))
     = runs (settle validateResults r l o (state bs))
  /\ rejected (finish validateResults r l c bs) = rejected bs.
Proof.
  intros Hc. unfold finish, settle.
  destruct (runs (state bs) !! r) as [run|]; [|now repeat split].
  destruct (isWaiting l (waiting run)); [|now repeat split].
  rewrite (chain_handled c o Hc).
  destruct (removeFirst l (waiting run)); [|now repeat split].
  destruct (isRejected r bs); now repeat split.
Qed.

(** *** The history of a rejected batch *)

Lemma lockWrites_app es1 es2 :
  lockWrites (es1 ++ es2) = lockWrites es1 + lockWrites es2.
Proof. unfold lockWrites. now rewrite List.filter_app, length_app. Qed.

Lemma lockWrites_emit event em : lockWrites (emit event em) = 0.
Proof.
  unfold emit. destruct (emitterDisposed em); [reflexivity|].
  induction (listeners event em) as [|h hs IH]; [reflexivity|exact IH].
Qed.

Lemma lockWrites_delivered st l : lockWrites (delivered st l) = 0.
Proof.
  unfold delivered. rewrite !lockWrites_app, lockWrites_emit.
  now destruct (String.eqb _ _), (isActive st).
Qed.

Lemma isRejected_cons r bs st :
  isRejected r (mkBatches st (r :: rejected bs)) = true.
Proof. unfold isRejected. simpl. now rewrite Nat.eqb_refl. Qed.

Lemma finish_rejected r l c bs :
  isRejected r bs = true ->
  isRejected r (finish validateResults r l c bs) = true
  /\ exists es,
       trace (state (finish validateResults r l c bs)) = trace (state bs) ++ es
       /\ lockWrites es = 0.
Proof.
  intros Hr. unfold finish.
  destruct (runs (state bs) !! r) as [run|];
    [|split; [exact Hr|exists []; now rewrite app_nil_r]].
  destruct (isWaiting l (waiting run));
    [|split; [exact Hr|exists []; now rewrite app_nil_r]].
  destruct (chain validateResults c) as [[es ms]|] eqn:Ec.
  - rewrite Hr. split.
    { unfold isRejected in *. now destruct (removeFirst l (waiting run)). }
    exists (es ++ delivered (log es (state bs)) l).
    split.
    + destruct (removeFirst l (waiting run)); simpl;
        rewrite deliver_trace; simpl; now rewrite <- app_assoc.
    + now rewrite lockWrites_app, (chain_events c es ms Ec),
        lockWrites_delivered.
  - split; [apply isRejected_cons|]. exists []. simpl. now rewrite app_nil_r.
Qed.

Lemma finishAll_rejected r sched : forall bs,
  isRejected r bs = true ->
  exists es,
    trace (state (finishAll validateResults r sched bs)) = trace (state bs) ++ es
    /\ lockWrites es = 0.
Proof.
  induction sched as [|[l c] sched IH]; intros bs Hr.
  - exists []. simpl. now rewrite app_nil_r.
  - destruct (finish_rejected r l c bs Hr) as (Hr1 & es1 & Ht1 & Hq1).
    destruct (IH _ Hr1) as (es2 & Ht2 & Hq2).
    exists (es1 ++ es2). split.
    + change (finishAll validateResults r ((l, c) :: sched) bs)
        with (finishAll validateResults r sched
                (finish validateResults r l c bs)).
      now rewrite Ht2, Ht1, <- app_assoc.
    + now rewrite lockWrites_app, Hq1, Hq2.
Qed.

(** C3, where the code departs from the claim: an analyzer that rejects
    with undefined, or throws null, is not caught.  The handler of
    [.catch] throws on [error.message], so no notification is added, the
    last [.then] is skipped (nothing is stored for the analyzer, whose
    earlier entry stays, and nothing is announced), and [Promise.all] is
    rejected: whatever the other tasks of the batch do afterwards, the
    batch's release never runs.  The other tasks still deliver. *)
Theorem nullish_rejection_escapes_the_handler bs r l run t sched :
  runs (state bs) !! r = Some run -> In l (waiting run) ->
  t = ThrownUndefined \/ t = ThrownNull ->
  let after := finish validateResults r l (Threw t) bs in
  let fin := finishAll validateResults r sched after in
  trace (state after) = trace (state bs)
  /\ entries l (state after) = entries l (state bs)
  /\ runs (state after) !! r
     = Some (mkRun (runKind run) (removeFirst l (waiting run)))
  /\ isRejected r after = true
  /\ (exists es, trace (state fin) = trace (state after) ++ es
                 /\ lockWrites es = 0)
  /\ (forall l' c' o',
        l' <> l -> In l' (waiting run) -> handled c' = Some o' ->
        stored l' (state (finish validateResults r l' c' after))
        = Some (spec_diagnostics validateResults o')).
Proof.
  intros Hrun Hin Ht. cbv zeta.
  assert (E : finish validateResults r l (Threw t) bs
              = mkBatches
                  (withRuns (<[r := mkRun (runKind run)
                                      (removeFirst l (waiting run))]>
                               (runs (state bs))) (state bs))
                  (r :: rejected bs)).
  { unfold finish. rewrite Hrun.
    apply isWaiting_In in Hin. rewrite Hin.
    now rewrite (chain_nullish t Ht). }
  assert (Hlook : runs (state (finish validateResults r l (Threw t) bs)) !! r
                  = Some (mkRun (runKind run) (removeFirst l (waiting run)))).
  { rewrite E. simpl. apply list_lookup_insert_eq.
    now apply lookup_lt_Some in Hrun. }
  assert (Hrej : isRejected r (finish validateResults r l (Threw t) bs) = true).
  { rewrite E. apply isRejected_cons. }
  split; [now rewrite E|]. split; [now rewrite E|].
  split; [exact Hlook|]. split; [exact Hrej|].
  split; [now apply finishAll_rejected|].
  intros l' c' o' Hne Hin' Hc'.
  destruct (finish_like_settle (finish validateResults r l (Threw t) bs)
              r l' c' o' Hc') as (Hlin & Hmsg & _).
  assert (Hwait : In l' (waiting (mkRun (runKind run)
                                    (removeFirst l (waiting run))))).
  { simpl. now apply LifecycleFacts.removeFirst_keeps. }
  pose proof (settle_stored validateResults _ r l' o' _ Hlook Hwait) as Hst.
  unfold stored in *. rewrite Hlin, Hmsg, Hst. now rewrite results_spec.
Qed.

End Facts.

End RejectionFacts.

(** ** What [destroy] disposes *)

Module DestroyFacts.

Import Subscriptions SessionFacts.




Lemma taken_subscribed ds : taken (map Subscribed ds) = ds.
Proof. induction ds as [|d ds IH]; [reflexivity|]. simpl. now rewrite IH. Qed.




(** *** The CoffeeScript session *)

Section Coffee.

Context {RawResult Message : Type}.
Variable validateResults : RawResult -> Error + list Message.

Implicit Types (st : C.State Message) (w : bool) (l : LinterRef)
  (o : C.Outcome RawResult).










End Coffee.

(** *** The ES6 session *)











End DestroyFacts.

(** ** The further properties at concrete inputs *)

Module LifecycleExamples.

Import EditorLinter Lifecycle Examples LifecycleFacts.

Example saving_state_waits_for_both :
  runs savingState = [mkRun false [linterX; linterY]].
Proof. reflexivity. Qed.

Example save_event_reaches_a_new_session :
  fire DidSave (exampleState false activeRef ["source.js"])
  = lint false (exampleState false activeRef ["source.js"]).
Proof. reflexivity. Qed.

(** X3 at a concrete input: in a Ruby file, [linterX] is invoked by a
    change trigger. *)
Lemma wildcard_analyzer_witness :
  let st := exampleState true activeRef ["source.ruby"] in
  isActive st = true /\ lockFree st true
  /\ In linterX (linters (linter st))
  /\ In "*" (grammarScopes (provider (linter st) linterX))
  /\ In linterX (invokedBy st true).
Proof.
  cbv zeta.
  assert (Ha : isActive (exampleState true activeRef ["source.ruby"]) = true)
    by reflexivity.
  assert (Hl : lockFree (exampleState true activeRef ["source.ruby"]) true)
    by (vm_compute; reflexivity).
  assert (Hr : In linterX (linters (linter (exampleState true activeRef
                                              ["source.ruby"]))))
    by (now left).
  assert (Hs : In "*" (grammarScopes
                         (provider (linter (exampleState true activeRef
                                              ["source.ruby"])) linterX)))
    by (now left).
  split; [exact Ha|]. split; [exact Hl|]. split; [exact Hr|]. split; [exact Hs|].
  exact (proj1 (wildcard_analyzer_is_invoked_everywhere
                  (exampleState true activeRef ["source.ruby"]) true linterX
                  Ha Hl Hr Hs (fun _ => eq_refl))).
Defined.

(** X4 at a concrete input: with the toggle off, four editor events start
    save batches only. *)
Lemma editor_events_witness :
  let st := exampleState false activeRef ["source.js"] in
  lintOnTheFly (linter st) = false
  /\ exists new,
       runs (acts exampleValidate (map Fire editorEvents) st) = runs st ++ new
       /\ Forall (fun run => runKind run = false) new.
Proof.
  cbv zeta. split; [reflexivity|].
  exact (proj2 (editor_events_lint_on_save_only_when_toggle_off exampleValidate
                  editorEvents (exampleState false activeRef ["source.js"])
                  eq_refl)).
Defined.

(** X5 at a concrete input. *)
Lemma deleted_messages_witness :
  runs savingState !! 0 = Some (mkRun false [linterX; linterY])
  /\ In linterX [linterX; linterY]
  /\ stored linterX
       (settle exampleValidate 0 linterX (Fulfilled ["unused"])
          (act exampleValidate savingState (DeleteMessages linterX)))
     = Some ["unused"].
Proof.
  assert (Hrun : runs savingState !! 0 = Some (mkRun false [linterX; linterY]))
    by reflexivity.
  assert (Hin : In linterX (waiting (mkRun false [linterX; linterY])))
    by (now left).
  split; [exact Hrun|]. split; [exact Hin|].
  exact (proj2 (proj2 (proj2
           (deleted_messages_return_on_settlement exampleValidate savingState 0
              linterX (Fulfilled ["unused"]) _ Hrun Hin)))).
Defined.

(** X6 at a concrete input: the two tasks of the save batch. *)
Lemma settlements_commute_witness :
  let a := settle exampleValidate 0 linterY (Rejected boom)
             (settle exampleValidate 0 linterX (Fulfilled ["unused"]) savingState) in
  let b := settle exampleValidate 0 linterX (Fulfilled ["unused"])
             (settle exampleValidate 0 linterY (Rejected boom) savingState) in
  runs savingState !! 0 = Some (mkRun false [linterX; linterY])
  /\ linterX <> linterY
  /\ _messages (self a) = _messages (self b)
  /\ messagesProject (linter a) = messagesProject (linter b)
  /\ runs a = runs b
  /\ props (self a) = props (self b).
Proof.
  cbv zeta.
  assert (Hrun : runs savingState !! 0 = Some (mkRun false [linterX; linterY]))
    by reflexivity.
  assert (Hx : In linterX (waiting (mkRun false [linterX; linterY])))
    by (now left).
  assert (Hy : In linterY (waiting (mkRun false [linterX; linterY])))
    by (right; now left).
  assert (Hne : linterX <> linterY) by discriminate.
  split; [exact Hrun|]. split; [exact Hne|].
  exact (settlements_of_different_analyzers_commute exampleValidate savingState
           0 linterX (Fulfilled ["unused"]) _ 0 linterY (Rejected boom) _
           Hrun Hx Hrun Hy Hne).
Defined.

(** [setMessages] and [deleteMessages] write to the session's map. *)
Example setMessages_writes :
  entries linterX
    (act exampleValidate savingState (SetMessages linterX ["kept"]))
  = (Some ["kept"], None)
  /\ entries linterX
       (acts exampleValidate
          [SetMessages linterX ["kept"]; DeleteMessages linterX] savingState)
     = (None, None).
Proof. split; vm_compute; reflexivity. Qed.

(** X15 at a concrete input. *)
Lemma only_settlements_write_witness :
  forallb (fun a => negb (isWriter a)) quietActions = true
  /\ entries linterX (acts exampleValidate quietActions savingState)
     = entries linterX savingState.
Proof.
  split; [reflexivity|].
  exact (only_settlements_write_messages exampleValidate quietActions
           savingState linterX eq_refl).
Defined.

(** X16 at a concrete input: two change batches of [linterX]. *)
Lemma later_settlement_witness :
  runs typingState !! 0 = Some (mkRun true [linterX])
  /\ runs typingState !! 1 = Some (mkRun true [linterX])
  /\ stored linterX
       (settle exampleValidate 0 linterX (Fulfilled ["old"])
          (settle exampleValidate 1 linterX (Fulfilled ["new"]) typingState))
     = Some ["old"].
Proof.
  assert (H0 : runs typingState !! 0 = Some (mkRun true [linterX])) by reflexivity.
  assert (H1 : runs typingState !! 1 = Some (mkRun true [linterX])) by reflexivity.
  assert (Hin : In linterX (waiting (mkRun true [linterX]))) by (now left).
  split; [exact H0|]. split; [exact H1|].
  exact (proj2 (later_settlement_wins exampleValidate typingState 0 1 linterX
                  (Fulfilled ["old"]) (Fulfilled ["new"]) _ _
                  H0 Hin H1 Hin (fun E => O_S 0 E))).
Defined.

End LifecycleExamples.

Module SessionLifeExamples.

Import EditorLinterES6 SessionLife Examples SessionLifeFacts.

Example example_session_marks_and_notifies :
  snd (addMessage 9%positive exampleES6)
  = [MarkerCreated 9%positive; Called "did-message-change" (Callback 3)].
Proof. reflexivity. Qed.

Lemma exampleES6_wired : wired exampleES6.
Proof.
  split; [reflexivity|]. exists [], []. repeat split; constructor.
Qed.

(** X7 at a concrete input: message 9 on the example session. *)
Lemma message_round_trip_witness :
  wired exampleES6
  /\ ~ In 9%positive (messages exampleES6)
  /\ ~ In 9%positive (editorMarkers exampleES6)
  /\ ~ In 9%positive (gutterMarkers exampleES6)
  /\ fst (removeMessage 9%positive (fst (addMessage 9%positive exampleES6)))
     = exampleES6.
Proof.
  assert (H1 : ~ In 9%positive (messages exampleES6)) by (intros []).
  assert (H2 : ~ In 9%positive (editorMarkers exampleES6)) by (intros []).
  assert (H3 : ~ In 9%positive (gutterMarkers exampleES6)) by (intros []).
  split; [exact exampleES6_wired|]. split; [exact H1|]. split; [exact H2|].
  split; [exact H3|].
  destruct (message_round_trip exampleES6 9%positive exampleES6_wired H1 H2 H3)
    as (onAdd & onRemove & _ & _ & _ & _ & _ & Hback & _).
  exact Hback.
Defined.

Example destroyed_session_still_stores_messages :
  snd (steps lateMessages (fst (destroy exampleES6))) = []
  /\ getMessages (fst (steps lateMessages (fst (destroy exampleES6))))
     = [2%positive].
Proof. split; reflexivity. Qed.

(** X9 at a concrete input. *)
Lemma destroyed_session_witness :
  forallb (fun a => negb (isAfterImmediate a)) lateSteps = true
  /\ snd (steps lateSteps (fst (destroy exampleES6))) = []
  /\ getMessages (fst (steps lateSteps (fst (destroy exampleES6))))
     = fold_left trackedAfter lateSteps [].
Proof.
  split; [reflexivity|].
  destruct (destroyed_session_is_silent exampleES6 lateSteps eq_refl)
    as (Hsilent & _ & _ & Hms).
  split; [exact Hsilent|exact Hms].
Defined.

End SessionLifeExamples.

Module PanelDomExamples.

Import BottomPanel PanelDom Examples PanelDomFacts.

Example readded_message_leaves_an_element_behind :
  children (calls showAll readdCalls newPanel) = [0; 1]
  /\ elementIds (messages (calls showAll readdCalls newPanel)) = [1].
Proof. split; reflexivity. Qed.

(** X13 at a concrete input. *)
Lemma children_witness :
  freshCalls showLine editingCalls (constructor "File" true true) = true
  /\ children (calls showLine editingCalls (constructor "File" true true))
     = elementIds (messages (calls showLine editingCalls
                               (constructor "File" true true))).
Proof.
  split; [reflexivity|].
  exact (proj1 (children_are_the_tracked_elements showLine "File" true true
                  editingCalls eq_refl)).
Defined.


End PanelDomExamples.

(** ** The panel and its host *)

Module PanelHostFacts.

Import BottomPanel PanelDom PanelHost PanelFacts PanelDomFacts.

Section Facts.

Variable visible : string -> MessageRef -> bool.

Implicit Types (p : Panel) (c : Call) (h : HostCall).

Lemma shown_last os o : shown (os ++ [o]) = shownAfter (shown os) o.
Proof. unfold shown. now rewrite fold_left_app. Qed.

Lemma shownAfter_quiet os : forall b,
  Forall (fun o => isRemoval o = true \/ isAddition o = true) os ->
  fold_left shownAfter os b = b.
Proof.
  induction os as [|o os IH]; intros b H; [reflexivity|].
  inversion H as [|? ? Ho Hos]; subst. simpl.
  rewrite (IH _ Hos). destruct o; simpl in *; try reflexivity;
    destruct Ho; discriminate.
Qed.

Lemma shown_quiet os new :
  Forall (fun o => isRemoval o = true \/ isAddition o = true) new ->
  shown (os ++ new) = shown os.
Proof.
  intros H. unfold shown. rewrite fold_left_app. now apply shownAfter_quiet.
Qed.

Lemma updateVisibility_tracks p :
  visibility (updateVisibility p) = shown (ops (updateVisibility p)).
Proof.
  unfold updateVisibility. simpl. rewrite shown_last.
  now destruct (configVisibility p && paneVisibility p
                && Z.ltb 0 (visibleMessages p)).
Qed.

Lemma removeMessages_visibility removed : forall p,
  visibility (removeMessages removed p) = visibility p.
Proof.
  induction removed as [|m removed IH]; intros p; [reflexivity|].
  rewrite removeMessages_cons, IH. unfold removeOne.
  now destruct (get m (messages p)).
Qed.

Lemma removals_quiet rs :
  Forall (fun o => isRemoval o = true) rs ->
  Forall (fun o => isRemoval o = true \/ isAddition o = true) rs.
Proof. apply List.Forall_impl. intros o H. now left. Qed.

Lemma additions_quiet adds :
  Forall (fun o => isAddition o = true) adds ->
  Forall (fun o => isRemoval o = true \/ isAddition o = true) adds.
Proof. apply List.Forall_impl. intros o H. now right. Qed.

Lemma quiet_not_shown new :
  Forall (fun o => isRemoval o = true \/ isAddition o = true) new ->
  Forall (fun o => isShowPanel o = false) new.
Proof.
  apply List.Forall_impl. intros o [H|H]; destruct o; try reflexivity; discriminate.
Qed.

Lemma hostCall_tracks p h :
  visibility p = shown (ops p) ->
  visibility (hostCall visible p h) = shown (ops (hostCall visible p h)).
Proof.
  intros Hp. destruct h as [[added removed|removed|sc']|b|b]; cbn [hostCall call].
  - rewrite setMessages_unfold. apply updateVisibility_tracks.
  - rewrite removeMessages_visibility.
    destruct (removeMessages_ops removed p) as (rs & Hops & Hall).
    rewrite Hops, shown_quiet; [exact Hp|now apply removals_quiet].
  - rewrite refresh_unfold. apply updateVisibility_tracks.
  - apply updateVisibility_tracks.
  - apply updateVisibility_tracks.
Qed.

(** What a method adds to the log while the host forbids the panel. *)
Lemma call_hidden p c :
  allowed p = false -> visibility p = false ->
  visibility (call visible p c) = false
  /\ exists new, ops (call visible p c) = ops p ++ new
                 /\ Forall (fun o => isShowPanel o = false) new.
Proof.
  unfold allowed. intros Hno Hv.
  destruct c as [added removed|removed|sc']; cbn [call].
  - rewrite setMessages_unfold.
    destruct (addMessages_settings visible added (removeMessages removed p))
      as (H1 & H2).
    destruct (removeMessages_settings removed p) as (H3 & H4).
    destruct (removeMessages_ops removed p) as (rs & Hrs & Hallr).
    destruct (addMessages_ops visible added (removeMessages removed p))
      as (adds & Hadds & Halla & _).
    unfold updateVisibility. simpl. rewrite H1, H2, H3, H4, Hno. simpl.
    split; [reflexivity|].
    exists (rs ++ adds ++ [HidePanel]).
    rewrite Hadds, Hrs, <- !app_assoc. split; [reflexivity|].
    apply Forall_app. split; [now apply quiet_not_shown, removals_quiet|].
    apply Forall_app. split; [now apply quiet_not_shown, additions_quiet|].
    now constructor.
  - rewrite removeMessages_visibility. split; [exact Hv|].
    destruct (removeMessages_ops removed p) as (rs & Hrs & Hallr).
    exists rs. split; [exact Hrs|]. now apply quiet_not_shown, removals_quiet.
  - rewrite refresh_unfold. unfold updateVisibility. simpl. rewrite Hno. simpl.
    split; [reflexivity|]. exists [HidePanel]. split; [reflexivity|].
    now constructor.
Qed.

Lemma calls_hidden cs : forall p,
  allowed p = false -> visibility p = false ->
  visibility (calls visible cs p) = false
  /\ exists new, ops (calls visible cs p) = ops p ++ new
                 /\ Forall (fun o => isShowPanel o = false) new.
Proof.
  induction cs as [|c cs IH]; intros p Hno Hv.
  - split; [exact Hv|]. exists []. split; [now rewrite app_nil_r|constructor].
  - change (calls visible (c :: cs) p) with (calls visible cs (call visible p c)).
    destruct (call_hidden p c Hno Hv) as (Hv1 & new1 & Hops1 & Hall1).
    assert (Hno1 : allowed (call visible p c) = false).
    { unfold allowed in *. destruct (call_settings visible p c) as (H1 & H2).
      now rewrite H1, H2. }
    destruct (IH _ Hno1 Hv1) as (Hv2 & new2 & Hops2 & Hall2).
    split; [exact Hv2|]. exists (new1 ++ new2).
    rewrite Hops2, Hops1, <- app_assoc. split; [reflexivity|].
    now apply Forall_app.
Qed.

(** X17: [getVisibility] tells whether the workspace panel is shown.
    From the constructor on, whatever methods are called and whatever the
    host reports about the setting and the active pane item, the flag is
    true exactly when the last of the panel's [show] and [hide] calls was
    a [show]. *)
Theorem visibility_flag_tracks_the_panel sc cv pv (hs : list HostCall) :
  let p := hostCalls visible hs (constructor sc cv pv) in
  getVisibility p = shown (ops p).
Proof.
  cbv zeta. unfold getVisibility, hostCalls.
  assert (H : visibility (constructor sc cv pv)
              = shown (ops (constructor sc cv pv))) by reflexivity.
  revert H. generalize (constructor sc cv pv).
  induction hs as [|h hs IH]; intros p Hp; [exact Hp|].
  simpl. apply IH. now apply hostCall_tracks.
Qed.

(** X18: once the setting 'linter.showErrorPanel' is switched off, or the
    active pane item is no longer the editor, the panel is hidden at once
    and no later [setMessages], [removeMessages] or [refresh] shows it,
    however many visible messages arrive. *)
Theorem forbidden_panel_stays_hidden p (cs : list Call) :
  (let q := onShowErrorPanel false p in
   getVisibility q = false
   /\ getVisibility (calls visible cs q) = false
   /\ exists new, ops (calls visible cs q) = ops q ++ new
                  /\ Forall (fun o => isShowPanel o = false) new)
  /\ (let q := onActivePaneItem false p in
      getVisibility q = false
      /\ getVisibility (calls visible cs q) = false
      /\ exists new, ops (calls visible cs q) = ops q ++ new
                     /\ Forall (fun o => isShowPanel o = false) new).
Proof.
  cbv zeta. unfold getVisibility. split.
  - assert (Hv : visibility (onShowErrorPanel false p) = false) by reflexivity.
    assert (Hno : allowed (onShowErrorPanel false p) = false) by reflexivity.
    split; [exact Hv|]. exact (calls_hidden cs _ Hno Hv).
  - assert (Hv : visibility (onActivePaneItem false p) = false).
    { unfold onActivePaneItem, updateVisibility. simpl.
      now rewrite andb_false_r. }
    assert (Hno : allowed (onActivePaneItem false p) = false).
    { unfold allowed, onActivePaneItem, updateVisibility. simpl.
      now rewrite andb_false_r. }
    split; [exact Hv|]. exact (calls_hidden cs _ Hno Hv).
Qed.

End Facts.

End PanelHostFacts.

Module PanelHostExamples.

Import BottomPanel PanelHost Examples.

(** A shown panel is hidden when the setting goes off, stays hidden when
    two visible messages arrive, and shows again when the setting returns. *)
Example setting_hides_and_shows_the_panel :
  let p := hostCalls showAll [Method (SetMessages [3%positive] [])]
             (constructor "File" true true) in
  let q := hostCalls showAll
             [ShowErrorPanelChanged false;
              Method (SetMessages [1%positive; 2%positive] [])] p in
  getVisibility p = true
  /\ getVisibility q = false
  /\ shown (ops q) = false
  /\ visibleMessages q = 3%Z
  /\ getVisibility (hostCalls showAll [ShowErrorPanelChanged true] q) = true.
Proof. cbv zeta. repeat split; reflexivity. Qed.

End PanelHostExamples.

Module DestroyExamples.

Import Subscriptions Examples SessionFacts DestroyFacts.

(** The subscription taken by the queued callback after [destroy] is
    never disposed, also not by a further [destroy]. *)
Example late_subscription_is_never_disposed :
  let d := EditorSub activeRef "did-stop-changing" in
  let es := snd (SessionLife.steps
                   [SessionLife.Destroy; SessionLife.AfterImmediate;
                    SessionLife.Destroy] exampleES6) in
  In (Subscribed d) es /\ ~ In (Disposed d) es.
Proof.
  cbv zeta. split.
  - vm_compute. tauto.
  - vm_compute. intros H.
    repeat (destruct H as [H|H]; [discriminate H|]). exact H.
Qed.


End DestroyExamples.

Module RejectionExamples.

Import EditorLinter Rejection Examples RejectionFacts.

(** A rejection with undefined in the second save: the entry of
    [linterX] still holds the results of the first save, nothing is
    notified, and the second batch is never released although both of its
    tasks have finished. *)
Example undefined_rejection_keeps_stale_results :
  let fin := finishAll exampleValidate 1
               [(linterX, Threw ThrownUndefined); (linterY, Returned ["new"])]
               secondSave in
  stored linterX (state fin) = Some ["old"]
  /\ stored linterY (state fin) = Some ["new"]
  /\ errorCount (trace (state fin)) = 0
  /\ lockWrites (trace (state fin)) = lockWrites (trace (state secondSave))
  /\ runs (state fin) !! 1 = Some (mkRun false []).
Proof. cbv zeta. repeat split; vm_compute; reflexivity. Qed.

(** The same batch when [linterX] rejects with an error object: one
    notification, the empty list stored, the batch released. *)
Example error_rejection_is_contained :
  let fin := finishAll exampleValidate 1
               [(linterX, Threw (ThrownError boom)); (linterY, Returned ["new"])]
               secondSave in
  stored linterX (state fin) = Some []
  /\ errorCount (trace (state fin)) = 1
  /\ lockWrites (trace (state fin))
     = S (lockWrites (trace (state secondSave))).
Proof. cbv zeta. repeat split; vm_compute; reflexivity. Qed.

(** C3 at the failing input: [linterX] rejects with undefined in the
    save batch, then [linterY] returns. *)
Lemma nullish_rejection_witness :
  let after := finish exampleValidate 0 linterX (Threw ThrownUndefined)
                 savingBatches in
  let fin := finishAll exampleValidate 0 [(linterY, Returned ["a"])] after in
  runs (state savingBatches) !! 0 = Some (mkRun false [linterX; linterY])
  /\ In linterX (waiting (mkRun false [linterX; linterY]))
  /\ trace (state after) = trace (state savingBatches)
  /\ entries linterX (state after) = entries linterX (state savingBatches)
  /\ isRejected 0 after = true
  /\ (exists es, trace (state fin) = trace (state after) ++ es
                 /\ lockWrites es = 0).
Proof.
  cbv zeta.
  assert (Hrun : runs (state savingBatches) !! 0
                 = Some (mkRun false [linterX; linterY])) by reflexivity.
  assert (Hin : In linterX (waiting (mkRun false [linterX; linterY])))
    by (now left).
  destruct (nullish_rejection_escapes_the_handler exampleValidate
              savingBatches 0 linterX _ ThrownUndefined
              [(linterY, Returned ["a"])] Hrun Hin (or_introl eq_refl))
    as (Htrace & Hentries & _ & Hrej & Hquiet & _).
  split; [exact Hrun|]. split; [exact Hin|]. split; [exact Htrace|].
  split; [exact Hentries|]. split; [exact Hrej|exact Hquiet].
Defined.


End RejectionExamples.
